(* ===== verification/_CoqProject ===== *)
-Q . S2P
Prelude.v
Types.v
Markers.v
Names.v
Processor.v
ProcessorInvariant.v
Growth.v
Timing.v
Dataset.v
Errors.v
ProcessorFacts.v
Batch.v
Tooltip.v
ContextMenu.v
Views.v
Timeline.v
