(* ===== verification/Prelude.v ===== *)
(** * A verified model of the React profiler's marker processor

    The program (repository [bvaughn/profiler], three source files):
    - [src/src/components/stack-chart/reactProfilerProcessor.js]: the
      function [reactProfilerProcessor] turns a list of [UserTiming]
      markers named ["--..."] into, per priority ([high], [normal], [low],
      [unscheduled]), a list of measures (typed, nested work intervals with
      a batch id, a depth and a duration) and a list of events. It filters
      and sorts the markers, then runs one pass of a stack machine: one
      stack of open frames and one batch state per priority, a current
      priority switched by the scheduler markers, a shared batch-id
      counter; a stop marker pops a frame and writes the duration of the
      measure the frame addresses. It logs malformed input and throws on a
      re-entrant start.
    - [src/src/components/tooltip/React.js]: the tooltip of a measure or
      event: a formatted component stack, the duration of the enclosing
      batch ([getTotalDuration]), a label per type.
    - [src/src/components/shared/ReactContextMenu.js]: the context menu of
      a measure or event: its items per type, and the show/hide protocol
      whose deferred hide goes through [setTimeout].
    The tooltip and the menu read the processor's output; nothing flows
    back.

    The files of the development, in dependency order:
    - [Prelude.v] (this file): JavaScript string primitives ([substr],
      [startsWith], [split]), a state-and-exception monad with its
      notation, Hoare triples and the [preserves] calculus over it with the
      tactic [preserves_tac], the two-state [steps] calculus with
      [steps_tac], the [throws_only] calculus of the exceptions a
      computation may raise with [throws_tac], the hint databases [profiler] and [profiler_rw],
      shared string and list lemmas.
    - [Types.v]: priorities (the four keys and any other text stored as a
      priority), work types, measures, events, data groups, and the
      four-key JavaScript objects [reactProfilerData] and [metadata] as the
      record [ptable] with [ptable_get] ([undefined] for another key).
    - [Markers.v]: the filter and the sort of lines 30-33. The comparator
      never answers 0, so ECMAScript leaves the order of equal timestamps
      to the implementation: the class [Sort.MarkerSort] states what the
      processor relies on (a permutation sorted by [startTime]) and the
      instance [SortFacts.v8_sort] is V8's binary insertion sort (the
      algorithm V8's TimSort runs below 64 elements) with the code's
      comparator, and [v8_insertion_sort], V8's bisection search for the
      insertion point ([BinaryInsertionSort] of array-sort.tq, a loop
      with fuel [right - left]), is proved to produce the same list. The
      processor's theorems hold for every instance.
    - [Names.v]: the dispatch of the loop on the marker name: [classify_name]
      is the [if]/[else if] chain of lines 193-283 and [component_parts]
      the [<name>-<stack>] parse; with the name grammar of the spec
      (section 6) printed from the branches and its round trips.
    - [Processor.v]: the processor. The closure variables are the record
      [pstate]; [console.error] appends to [st_log]; [throw] and the
      [TypeError] of reading a field of [undefined] are [Throw]s of the
      monad. [getLastType], [getDepth], [markWorkCompleted],
      [markWorkStarted], [throwIfIncomplete] are the helpers of the same
      names; [handleMarker] the branches of the dispatch, [processEvent]
      one iteration of the loop, [processEvents] the loop,
      [reportIncomplete] the final [forEach], [reactProfilerProcessor] the
      function; and when the function returns null.
    - [ProcessorInvariant.v]: the invariant [good] (every open frame
      addresses an existing zero-duration measure of its priority with the
      frame's type, depth and start; indices decrease down the stack; each
      frame's depth follows [getDepth]; no missing-measure diagnostic),
      kept by every helper, handler and the whole pass; the completion of
      a frame on a state that satisfies it.
    - [Growth.v]: the preorder [grows] on states (events, measures and
      diagnostics are only appended; a measure changes only in its
      duration, and only while that is 0), and that every helper and the
      loop relate their states by it.
    - [Timing.v]: the predicate [timed T] (every open frame started at
      or before [T]; every duration is non-negative; each priority's
      measure and event timestamps non-decreasing and at most [T]), kept
      by every helper called with the marker's time [T]; with the sort's
      contract, no duration the processor returns is negative and its
      output is in time order.
    - [Dataset.v]: properties of the returned dataset from two more
      predicates the loop keeps: every measure and event stored under a
      key carries a priority whose data-group key is that key; every
      batch id is below the number of [--render-start] markers (or 0).
    - [Errors.v]: what the processor throws: each helper and handler
      throws only the [Error] of a type started on top of itself or the
      [TypeError] of an unknown priority's data group; with known
      priorities in the scheduler markers only the first remains.
    - [ProcessorFacts.v]: the behaviour of each handler on every branch:
      mismatched stops, the fatal re-entrant start and what it misses, the
      scheduler guards, the crash on an unknown priority, cascading
      updates, the spec's worked example.
    - [Batch.v]: batch ids: which markers touch the batch state, what a
      render start mints, and that ids are not fresh: with at most one
      render pass every measure has id 0.
    - [Tooltip.v]: [formatComponentStack], [getTotalDuration] with its two
      loops, the label switches, and the components [TooltipReactEvent]
      and [TooltipReactWork] as records of the values their JSX shows.
    - [ContextMenu.v]: [renderContextMenuContents], [render],
      [mapStateToProps], the item handlers as clipboard or console
      effects, and [_onShow] / [_onHide] as a step relation over the
      handle, the store's visibility and the queue of pending timers,
      with an invariant by rule induction and what two hides before a
      show do from any reachable state.
    - [Views.v]: the three sources composed: what the tooltip and the
      menu show of the event the processor pushes for a state update.
    - [Timeline.v]: the abstract specification of what the processor
      computes on well-formed input: effect intervals as trees, batches
      (render segments inside an idle span, then a commit holding
      effects), cancelled batches, events, timelines of these, their
      markers and the measures and events they stand for; step lemmas
      for the handlers on a state seen through its current context
      ([at_ctx]); and the
      refinement theorem: inside a scheduling scope, on strictly
      increasing timestamps, [reactProfilerProcessor] returns exactly the
      abstract measures and events and logs nothing; and that the
      batches of a scope get the ids 0, 1, 2, ...

    What the theorems show: the refinement of the abstract timeline (on
    well-nested, well-timed input the output is exactly the spec's
    measures and every stack ends empty); the invariant and the safety of
    the pass (the "Could not find matching measure" branch is dead code);
    that the output is append-only and durations are written once while
    still 0; that durations are never negative and the output is in
    time order, because of the sort; that it is keyed by its
    priorities and that batch ids are bounded by the render passes (and
    are not fresh: the first pass shares id 0 with earlier work); that
    the sort model is the algorithm V8 runs; which errors are fatal; the functional
    behaviour of each handler, its guards and its error paths; round trips
    of the name grammar; the sort's contract; the tooltip's and the menu's
    results on the processor's output (the tooltip and the menu of a
    state-update event show and copy the marker's name and stack; the
    work menu's batch actions only log); and the places where the code and
    the spec part ways, each stated as a theorem (see the findings of the
    manifest).

    Modelling choices: JavaScript numbers are integers [Z] (timestamps),
    or [JFin]/[JInf] where [Infinity] occurs; the batch counter and indices
    are [nat]. Strings are Rocq strings of ASCII characters; [trim] removes
    ASCII whitespace. No fuel is needed for the repository's code: every
    loop runs over a finite list and is a structural recursion, so every
    function of the model is total and computes ([vm_compute] checks the
    examples). The one loop with fuel is V8's bisection in [Markers.v],
    whose fuel, the length of the sorted prefix, is proved enough. The
    refinement theorem assumes strictly increasing timestamps so that it
    holds for every sort implementation; equal timestamps are ordered by
    the sort (see [Markers.v]).

    Not modelled: the markup of the JSX (the components are modelled by
    the values they show), [formatMilliseconds] (another module), the
    Redux store and the selector [getRightClickedReactData] (the
    store's visibility flag is part of the menu protocol), the clipboard
    library (a copy is an effect carrying its text), the memoization
    cache of the tooltip (it does not change results), keys of [Object.prototype] used as
    priorities, and TimSort's merging of runs of 64 or more markers (the
    processor is verified against the sort interface instead). *)

From Stdlib Require Export ZArith Lia Sorted Permutation.
From Stdlib Require Import String Ascii.
From stdpp Require Export base list strings option.

Declare Scope profiler_scope.
Delimit Scope profiler_scope with prof.

(** ** JavaScript string primitives used by the sources *)

(** [s.substr(n)] for a non-negative [n]: the suffix of [s] from index [n]
    on, the empty string when [n] is past the end. *)
Fixpoint js_substr (n : nat) (s : string) : string :=
  match n, s with
  | 0, _ => s
  | S n', String _ s' => js_substr n' s'
  | S _, EmptyString => EmptyString
  end.

(** [s.startsWith(p)]. *)
Definition js_startsWith (s p : string) : bool := String.prefix p s.

(** [s.split(sep)] for a one-character separator: the pieces between the
    separators, always at least one (["".split("-")] is [[""]]). *)
Fixpoint js_split (sep : ascii) (s : string) : list string :=
  match s with
  | EmptyString => [EmptyString]
  | String c s' =>
      if ascii_dec c sep then EmptyString :: js_split sep s'
      else match js_split sep s' with
           | w :: ws => String c w :: ws
           | [] => [String c EmptyString]
           end
  end.

(** Whether a character occurs in a string. *)
Fixpoint str_has (c : ascii) (s : string) : bool :=
  match s with
  | EmptyString => false
  | String d s' => if ascii_dec c d then true else str_has c s'
  end.

(** ** Exceptions and a state-and-exception monad

    The processor throws ([throw new Error(...)] and the [TypeError] of a
    property read on [undefined]) and mutates closure variables; both are
    made explicit: a computation takes the state and either returns a value
    with the new state or throws. *)

Inductive outcome (E A : Type) : Type :=
  | Return (a : A)
  | Throw (e : E).
Arguments Return {E A} a.
Arguments Throw {E A} e.

Definition stm (S E A : Type) : Type := S -> outcome E (A * S).

Definition st_ret {S E A} (a : A) : stm S E A := fun s => Return (a, s).
Definition st_bind {S E A B} (m : stm S E A) (k : A -> stm S E B) : stm S E B :=
  fun s => match m s with
           | Return (a, s') => k a s'
           | Throw e => Throw e
           end.
Definition st_get {S E} : stm S E S := fun s => Return (s, s).
Definition st_put {S E} (s : S) : stm S E unit := fun _ => Return (tt, s).
Definition st_modify {S E} (f : S -> S) : stm S E unit := fun s => Return (tt, f s).
Definition st_throw {S E A} (e : E) : stm S E A := fun _ => Throw e.

Notation "x <- m ;; k" := (st_bind m (fun x => k))
  (at level 100, m at next level, right associativity) : profiler_scope.
Notation "m ;; k" := (st_bind m (fun _ => k))
  (at level 100, right associativity) : profiler_scope.

(** ** Shared lemmas *)

Create HintDb profiler discriminated.
Create Rewrite HintDb profiler_rw.

Section StringLemmas.
Local Open Scope string_scope.

Lemma js_startsWith_app p s : js_startsWith (p ++ s) p = true.
Proof. unfold js_startsWith. induction p as [|c p IH]; simpl; [by destruct s|].
  destruct (ascii_dec c c); [exact IH | congruence]. Qed.

Lemma js_substr_app p s : js_substr (String.length p) (p ++ s) = s.
Proof. induction p; simpl; auto. Qed.

Lemma js_split_no_sep sep s : str_has sep s = false -> js_split sep s = [s].
Proof.
  induction s as [|c s IH]; simpl; [done|].
  destruct (ascii_dec sep c) as [->|Hne]; [discriminate|].
  intros Hs. destruct (ascii_dec c sep); [congruence|]. by rewrite IH.
Qed.

Lemma js_split_app sep a b :
  str_has sep a = false ->
  js_split sep (a ++ String sep b) = a :: js_split sep b.
Proof.
  induction a as [|c a IH]; simpl.
  - destruct (ascii_dec sep sep); [done | congruence].
  - destruct (ascii_dec sep c) as [->|Hne]; [discriminate|].
    intros Ha. destruct (ascii_dec c sep); [congruence|]. by rewrite IH.
Qed.
(** [String.append] does not unfold under [simpl] with stdpp loaded. *)
Lemma str_app_cons c a b : String.append (String c a) b = String c (String.append a b).
Proof. done. Qed.

Lemma str_app_nil b : String.append EmptyString b = b.
Proof. done. Qed.

Lemma str_app_assoc a b c :
  String.append (String.append a b) c = String.append a (String.append b c).
Proof. induction a as [|d a IH]; [done|]. rewrite !str_app_cons. by rewrite IH. Qed.
End StringLemmas.

Section ListLemmas.
Context {A : Type}.

Lemma lookup_snoc_length (l : list A) (x : A) : (l ++ [x]) !! length l = Some x.
Proof. rewrite lookup_app_r; [|lia]. by rewrite Nat.sub_diag. Qed.

Lemma lookup_snoc_lt (l : list A) (x : A) i :
  i < length l -> (l ++ [x]) !! i = l !! i.
Proof. apply lookup_app_l. Qed.

Lemma length_snoc (l : list A) (x : A) : length (l ++ [x]) = S (length l).
Proof. rewrite length_app. simpl. lia. Qed.

Lemma lookup_middle_length (l r : list A) (x : A) : (l ++ x :: r) !! length l = Some x.
Proof. by apply list_lookup_middle. Qed.

Lemma insert_middle_length (l r : list A) (x y : A) :
  <[length l := y]> (l ++ x :: r) = l ++ y :: r.
Proof. rewrite <- (Nat.add_0_r (length l)), insert_app_r. done. Qed.

Lemma insert_snoc_length (l : list A) (x y : A) : <[length l := y]> (l ++ [x]) = l ++ [y].
Proof. apply insert_middle_length. Qed.
End ListLemmas.

#[export] Hint Rewrite @js_startsWith_app @js_substr_app @lookup_snoc_length
  @length_snoc : profiler_rw.
#[export] Hint Resolve js_split_no_sep : profiler.

(** ** Hoare triples over the state-and-exception monad

    [hoare P m Q]: run from a state satisfying [P], if [m] returns [a] in
    [s'] then [Q a s'] holds. A throw satisfies every triple; that the
    runs of interest do not throw is proved separately. *)

Definition hoare {S E A} (P : S -> Prop) (m : stm S E A) (Q : A -> S -> Prop) : Prop :=
  forall s a s', P s -> m s = Return (a, s') -> Q a s'.

Section Hoare.
Context {S E : Type}.

Lemma hoare_ret {A} (P : S -> Prop) (Q : A -> S -> Prop) (a : A) :
  (forall s, P s -> Q a s) -> hoare (E:=E) P (st_ret a) Q.
Proof. intros HQ s r s' HP [= <- <-]. auto. Qed.

Lemma hoare_bind {A B} P (m : stm S E A) Q (k : A -> stm S E B) R :
  hoare P m Q -> (forall a, hoare (Q a) (k a) R) -> hoare P (st_bind m k) R.
Proof.
  intros Hm Hk s b s' HP. unfold st_bind.
  destruct (m s) as [[a s1]|e] eqn:E1; [|discriminate].
  intros Hrun. eapply Hk; [eapply Hm|]; eauto.
Qed.

Lemma hoare_get {A} P (k : S -> stm S E A) Q :
  (forall s0, hoare (fun s => P s /\ s = s0) (k s0) Q) -> hoare P (st_bind st_get k) Q.
Proof. intros Hk s a s' HP Hrun. eapply Hk; eauto. Qed.

Lemma hoare_modify (P : S -> Prop) f (Q : unit -> S -> Prop) :
  (forall s, P s -> Q tt (f s)) -> hoare (E:=E) P (st_modify f) Q.
Proof. intros HQ s r s' HP [= <- <-]. auto. Qed.

Lemma hoare_throw {A} (P : S -> Prop) (Q : A -> S -> Prop) (e : E) :
  hoare P (st_throw (S:=S) (E:=E) e) Q.
Proof. by intros ???? . Qed.

Lemma hoare_pre {A} (P P' : S -> Prop) (m : stm S E A) Q :
  (forall s, P' s -> P s) -> hoare P m Q -> hoare P' m Q.
Proof. intros HP Hm s a s' H. eauto. Qed.

Lemma hoare_post {A} (P : S -> Prop) (m : stm S E A) (Q Q' : A -> S -> Prop) :
  (forall a s, Q a s -> Q' a s) -> hoare P m Q -> hoare P m Q'.
Proof. intros HQ Hm s a s' H Hr. eauto. Qed.

(** A state predicate kept by a computation. *)
Definition preserves {A} (I : S -> Prop) (m : stm S E A) : Prop :=
  hoare I m (fun _ => I).

Lemma preserves_bind {A B} I (m : stm S E A) (k : A -> stm S E B) :
  preserves I m -> (forall a, preserves I (k a)) -> preserves I (st_bind m k).
Proof. intros. by eapply hoare_bind. Qed.

(** The continuation runs from exactly the state it read. *)
Lemma preserves_get {A} I (k : S -> stm S E A) :
  (forall s0 a s', I s0 -> k s0 s0 = Return (a, s') -> I s') ->
  preserves I (st_bind st_get k).
Proof. intros Hk. apply hoare_get. intros s0 s a s' [HI ->]. eauto. Qed.

(** When the continuation keeps [I] from any state satisfying it. *)
Lemma preserves_get_any {A} I (k : S -> stm S E A) :
  (forall s0, I s0 -> preserves I (k s0)) -> preserves I (st_bind st_get k).
Proof. intros Hk. apply preserves_get. intros s0 a s' HI Hrun. by eapply (Hk s0). Qed.

(** Use a [preserves] fact on one run. *)
Lemma preserves_run {A} I (m : stm S E A) s a s' :
  preserves I m -> I s -> m s = Return (a, s') -> I s'.
Proof. intros Hm. apply Hm. Qed.

(** A triple from a predicate kept in between. *)
Lemma preserves_hoare {A} I (P : S -> Prop) (Q : A -> S -> Prop) (m : stm S E A) :
  (forall s, P s -> I s) -> (forall a s, I s -> Q a s) -> preserves I m -> hoare P m Q.
Proof. intros HP HQ Hm s a s' H Hr. eauto. Qed.

Lemma preserves_st_get I : preserves I (st_get (S:=S) (E:=E)).
Proof. by intros s a s' HI [= <- <-]. Qed.

(** Read a run of a bind back as the runs of its two parts. *)
Lemma st_bind_Return {A B} (m : stm S E A) (k : A -> stm S E B) s b s' :
  st_bind m k s = Return (b, s') ->
  exists a s1, m s = Return (a, s1) /\ k a s1 = Return (b, s').
Proof.
  unfold st_bind. destruct (m s) as [[a s1]|e]; [eauto | discriminate].
Qed.

Lemma preserves_ret {A} I (a : A) : preserves I (st_ret (S:=S) (E:=E) a).
Proof. by apply hoare_ret. Qed.

Lemma preserves_throw {A} I (e : E) : preserves (A:=A) I (st_throw (S:=S) (E:=E) e).
Proof. apply hoare_throw. Qed.
End Hoare.

#[export] Hint Resolve preserves_ret preserves_throw preserves_st_get : profiler.

(** Split a [preserves] goal along the binds and branches of a computation
    and close the pieces with the [profiler] hints. *)
Ltac preserves_tac :=
  repeat match goal with
  | |- preserves _ (st_bind st_get _) => apply preserves_get_any; intros ? ?
  | |- preserves _ (st_bind _ _) => apply preserves_bind; intros
  | |- preserves _ (if ?b then _ else _) => destruct b
  | |- preserves _ (match ?x with _ => _ end) => destruct x
  end; eauto with profiler.

(** ** Two-state properties

    [steps I R m]: every run of [m] from a state satisfying [I] relates
    its initial and final states by [R]. For a preorder [R] the property
    composes along binds whose first part keeps [I]. *)

Definition steps {S E A} (I : S -> Prop) (R : S -> S -> Prop) (m : stm S E A) : Prop :=
  forall s a s', I s -> m s = Return (a, s') -> R s s'.

Section Steps.
Context {S E : Type} (I : S -> Prop) (R : S -> S -> Prop) `{!PreOrder R}.

Lemma steps_ret {A} (a : A) : steps (E:=E) I R (st_ret a).
Proof. intros s b s' _ [= _ <-]. reflexivity. Qed.

Lemma steps_throw {A} (e : E) : steps (A:=A) I R (st_throw (S:=S) e).
Proof. by intros ????. Qed.

Lemma steps_modify f : (forall s, I s -> R s (f s)) -> steps (E:=E) I R (st_modify f).
Proof. intros Hf s a s' HI [= _ <-]. auto. Qed.

Lemma steps_bind {A B} (m : stm S E A) (k : A -> stm S E B) :
  preserves I m -> steps I R m -> (forall a, steps I R (k a)) -> steps I R (st_bind m k).
Proof.
  intros Hp Hm Hk s b s' HI (a & s1 & E1 & E2)%st_bind_Return.
  etransitivity; [by eapply Hm | eapply Hk; [eapply Hp|]; eauto].
Qed.

Lemma steps_get {A} (k : S -> stm S E A) :
  (forall s0, steps I R (k s0)) -> steps I R (st_bind st_get k).
Proof. intros Hk s a s' HI Hrun. by eapply (Hk s). Qed.
End Steps.

#[export] Hint Resolve steps_ret steps_throw : profiler.
#[export] Hint Extern 1 (PreOrder _) => typeclasses eauto : profiler.

(** Split a [steps] goal along the binds and branches of a computation;
    the [preserves] side conditions and the pieces are closed with the
    [profiler] hints. *)
Ltac steps_tac :=
  repeat match goal with
  | |- steps _ _ (st_bind st_get _) => apply steps_get; intros ?
  | |- steps _ _ (st_bind _ _) =>
      apply steps_bind; [typeclasses eauto | preserves_tac | | intros]
  | |- steps _ _ (if ?b then _ else _) => destruct b
  | |- steps _ _ (match ?x with _ => _ end) => destruct x
  end; eauto with profiler.

(** ** What a computation can throw

    [throws_only I P m]: run from a state satisfying [I], [m] throws only
    exceptions satisfying [P]. *)

Definition throws_only {S E A} (I : S -> Prop) (P : E -> Prop) (m : stm S E A) : Prop :=
  forall s e, I s -> m s = Throw e -> P e.

Section Throws.
Context {S E : Type} (I : S -> Prop) (P : E -> Prop).

Lemma throws_only_ret {A} (a : A) : throws_only (S:=S) I P (st_ret a).
Proof. by intros ????. Qed.

Lemma throws_only_modify f : throws_only (S:=S) (E:=E) I P (st_modify f).
Proof. by intros ????. Qed.

Lemma throws_only_throw {A} e : P e -> throws_only (A:=A) (S:=S) I P (st_throw e).
Proof. intros He s e' _ [= <-]. exact He. Qed.

Lemma throws_only_bind {A B} (m : stm S E A) (k : A -> stm S E B) :
  preserves I m -> throws_only I P m -> (forall a, throws_only I P (k a)) ->
  throws_only I P (st_bind m k).
Proof.
  intros Hp Hm Hk s e HI. unfold st_bind.
  destruct (m s) as [[a s1]|e1] eqn:E1; [|intros [= <-]; by eapply Hm].
  apply Hk. by eapply Hp.
Qed.

Lemma throws_only_get {A} (k : S -> stm S E A) :
  (forall s0, I s0 -> throws_only I P (k s0)) -> throws_only I P (st_bind st_get k).
Proof. intros Hk s e HI. by apply Hk. Qed.
End Throws.

#[export] Hint Resolve throws_only_ret throws_only_modify : profiler.

(** Split a [throws_only] goal along the binds and branches of a
    computation. *)
Ltac throws_tac :=
  repeat match goal with
  | |- throws_only _ _ (st_bind st_get _) => apply throws_only_get; intros ? ?
  | |- throws_only _ _ (st_bind _ _) => apply throws_only_bind; [preserves_tac | | intros]
  | |- throws_only _ _ (if ?b then _ else _) => destruct b
  | |- throws_only _ _ (match ?x with _ => _ end) => destruct x
  end; eauto with profiler.

(** [invc H]: invert a hypothesis, substitute, and drop it. *)
Ltac invc H := inversion H; subst; clear H.
