(* ===== verification/Types.v ===== *)
(** * The data the processor produces

    Priorities, work types, measures, events and the per-priority tables
    of [reactProfilerProcessor.js], shared by the processor, the tooltip
    and the context menu. *)

From S2P Require Import Prelude.
From Stdlib Require Import String.

Local Open Scope string_scope.

(** A priority: the three scheduling priorities, the default
    ['unscheduled'], and whatever other text follows
    ["--scheduler-start-"] in a marker name (the code stores
    [name.substr(18)] unchecked). *)
Inductive priority : Type :=
  | High
  | Normal
  | Low
  | Unscheduled
  | OtherPriority (s : string).

#[export] Instance priority_eq_dec : EqDecision priority.
Proof. solve_decision. Defined.

Definition string_of_priority (p : priority) : string :=
  match p with
  | High => "high"
  | Normal => "normal"
  | Low => "low"
  | Unscheduled => "unscheduled"
  | OtherPriority s => s
  end.

Definition priority_of_string (s : string) : priority :=
  if String.eqb s "high" then High
  else if String.eqb s "normal" then Normal
  else if String.eqb s "low" then Low
  else if String.eqb s "unscheduled" then Unscheduled
  else OtherPriority s.

(** The work types pushed by [markWorkStarted]. *)
Inductive work_type : Type :=
  | Render
  | RenderIdle
  | Commit
  | LayoutEffects
  | PassiveEffects.

#[export] Instance work_type_eq_dec : EqDecision work_type.
Proof. solve_decision. Defined.

Definition work_type_name (t : work_type) : string :=
  match t with
  | Render => "render"
  | RenderIdle => "render-idle"
  | Commit => "commit"
  | LayoutEffects => "layout-effects"
  | PassiveEffects => "passive-effects"
  end.

(** A measure, as pushed by [markWorkStarted]; [duration] is written once
    by [markWorkCompleted]. Timestamps are JavaScript numbers, modelled as
    integers (milliseconds in the tests and the spec's examples). *)
Record measure : Type := mkMeasure {
  ms_type : work_type;
  ms_batchUID : nat;
  ms_depth : nat;
  ms_priority : priority;
  ms_timestamp : Z;
  ms_duration : Z
}.

(** The events pushed for [--schedule-render], [--schedule-state-update-]
    and [--suspend-]; the component stack is [undefined] when the name
    holds no second ['-']-separated piece. *)
Inductive react_event : Type :=
  | ScheduleRender (prio : priority) (timestamp : Z)
  | ScheduleStateUpdate (prio : priority) (isCascading : bool) (timestamp : Z)
      (componentName : string) (componentStack : option string)
  | Suspend (prio : priority) (timestamp : Z)
      (componentName : string) (componentStack : option string).

(** The [timestamp] field every event has. *)
Definition event_timestamp (ev : react_event) : Z :=
  match ev with
  | ScheduleRender _ t | ScheduleStateUpdate _ _ t _ _ | Suspend _ t _ _ => t
  end.

(** The [type] field of an event object (lines 256-281). *)
Definition event_type_name (ev : react_event) : string :=
  match ev with
  | ScheduleRender _ _ => "schedule-render"
  | ScheduleStateUpdate _ _ _ _ _ => "schedule-state-update"
  | Suspend _ _ _ _ => "suspend"
  end.

(** The [componentName] and [componentStack] fields: [undefined] on a
    [schedule-render] event, which has neither. *)
Definition event_componentName (ev : react_event) : option string :=
  match ev with
  | ScheduleRender _ _ => None
  | ScheduleStateUpdate _ _ _ n _ | Suspend _ _ n _ => Some n
  end.

Definition event_componentStack (ev : react_event) : option string :=
  match ev with
  | ScheduleRender _ _ => None
  | ScheduleStateUpdate _ _ _ _ cs | Suspend _ _ _ cs => cs
  end.

(** The [priority] field every event has. *)
Definition event_priority (ev : react_event) : priority :=
  match ev with
  | ScheduleRender p _ | ScheduleStateUpdate p _ _ _ _ | Suspend p _ _ _ => p
  end.

(** One priority's slot of [reactProfilerData]. *)
Record data_group : Type := mkGroup {
  events : list react_event;
  measures : list measure
}.

Definition empty_group : data_group := mkGroup [] [].

(** A JavaScript object with the keys [high], [normal], [low] and
    [unscheduled] ([reactProfilerData] and [metadata]). *)
Record ptable (A : Type) : Type := mkTable {
  t_high : A;
  t_normal : A;
  t_low : A;
  t_unscheduled : A
}.
Arguments mkTable {A} _ _ _ _.
Arguments t_high {A} _.
Arguments t_normal {A} _.
Arguments t_low {A} _.
Arguments t_unscheduled {A} _.

(** [table[p]]: [undefined] for a key the object does not have. *)
Definition ptable_get {A} (p : priority) (t : ptable A) : option A :=
  match p with
  | High => Some (t_high t)
  | Normal => Some (t_normal t)
  | Low => Some (t_low t)
  | Unscheduled => Some (t_unscheduled t)
  | OtherPriority _ => None
  end.

(** Replace the slot of a key the object has. *)
Definition ptable_set {A} (p : priority) (x : A) (t : ptable A) : ptable A :=
  match p with
  | High => mkTable x (t_normal t) (t_low t) (t_unscheduled t)
  | Normal => mkTable (t_high t) x (t_low t) (t_unscheduled t)
  | Low => mkTable (t_high t) (t_normal t) x (t_unscheduled t)
  | Unscheduled => mkTable (t_high t) (t_normal t) (t_low t) x
  | OtherPriority _ => t
  end.

Definition ptable_const {A} (x : A) : ptable A := mkTable x x x x.

(** The table's entries in key order ([Object.entries]). *)
Definition ptable_entries {A} (t : ptable A) : list (priority * A) :=
  [(High, t_high t); (Normal, t_normal t); (Low, t_low t);
   (Unscheduled, t_unscheduled t)].

(** Whether a priority is one of the object's keys. *)
Definition known_priority (p : priority) : bool :=
  match p with OtherPriority _ => false | _ => true end.

Section TableLemmas.
Context {A : Type}.

Lemma ptable_get_set_eq p (x : A) t :
  known_priority p = true -> ptable_get p (ptable_set p x t) = Some x.
Proof. by destruct p. Qed.

Lemma ptable_get_set_ne p q (x : A) t :
  p <> q -> ptable_get q (ptable_set p x t) = ptable_get q t.
Proof. destruct p, q; simpl; congruence. Qed.

Lemma ptable_get_known p (t : ptable A) :
  known_priority p = true -> exists x, ptable_get p t = Some x.
Proof. destruct p; simpl; eauto; discriminate. Qed.

Lemma ptable_set_set p (x y : A) t :
  ptable_set p x (ptable_set p y t) = ptable_set p x t.
Proof. by destruct p. Qed.

Lemma ptable_set_get p (t : ptable A) x :
  ptable_get p t = Some x -> ptable_set p x t = t.
Proof. destruct p, t; simpl; congruence. Qed.
End TableLemmas.

(** A property of every slot of a table. *)
Definition ptable_all {A} (P : A -> Prop) (t : ptable A) : Prop :=
  forall q x, ptable_get q t = Some x -> P x.

Lemma ptable_all_set {A} (P : A -> Prop) p x t :
  ptable_all P t -> P x -> ptable_all P (ptable_set p x t).
Proof.
  intros Ht Hx q y. destruct (decide (p = q)) as [<-|Hne].
  - destruct p; simpl; intros [= <-]; exact Hx.
  - rewrite ptable_get_set_ne by done. apply Ht.
Qed.

Lemma ptable_all_const {A} (P : A -> Prop) x : P x -> ptable_all P (ptable_const x).
Proof. intros Hx [] y; simpl; by intros [= <-]. Qed.

#[export] Hint Rewrite @ptable_get_set_ne : profiler_rw.

Definition ptable_map {A B} (f : A -> B) (t : ptable A) : ptable B :=
  mkTable (f (t_high t)) (f (t_normal t)) (f (t_low t)) (f (t_unscheduled t)).

Lemma ptable_map_set_same {A B} (f : A -> B) p x t y :
  ptable_get p t = Some y -> f x = f y -> ptable_map f (ptable_set p x t) = ptable_map f t.
Proof.
  intros H Hf. destruct p; try discriminate; injection H as <-;
    destruct t; unfold ptable_map; simpl in *; by rewrite Hf.
Qed.
