(* ===== verification/Names.v ===== *)
(** * Marker names: dispatch and grammar

    The [if]/[else if] chain of [reactProfilerProcessor] on the marker
    name (lines 193-283) as [classify_name], the parse of [<name>-<stack>]
    suffixes (lines 262 and 275), and the names of the spec's input table
    (section 6) printed from the branch they select. [classify_name]
    recovers the branch and its suffix from every printed name. *)

From S2P Require Import Prelude Types Markers.
From Stdlib Require Import Ascii.

Local Open Scope string_scope.

(** ** Dispatch on the marker name (lines 193-283)

    The [if]/[else if] chain tests the name against fixed prefixes and
    names in this order; [classify_name] is that chain, returning which
    branch is taken and the suffix the branch reads with [substr]. *)

Inductive marker_kind : Type :=
  | KSchedulerStart (rest : string)
  | KSchedulerStop (rest : string)
  | KRenderStart
  | KRenderStop
  | KRenderYield
  | KRenderCancel
  | KCommitStart
  | KCommitStop
  | KLayoutEffectsStart
  | KPassiveEffectsStart
  | KLayoutEffectsStop
  | KPassiveEffectsStop
  | KScheduleRender
  | KScheduleStateUpdate (rest : string)
  | KSuspend (rest : string)
  | KOther.

Definition classify_name (name : string) : marker_kind :=
  if js_startsWith name "--scheduler-start-" then KSchedulerStart (js_substr 18 name)
  else if js_startsWith name "--scheduler-stop-" then KSchedulerStop (js_substr 17 name)
  else if String.eqb name "--render-start" then KRenderStart
  else if String.eqb name "--render-stop" then KRenderStop
  else if String.eqb name "--render-yield" then KRenderYield
  else if String.eqb name "--render-cancel" then KRenderCancel
  else if String.eqb name "--commit-start" then KCommitStart
  else if String.eqb name "--commit-stop" then KCommitStop
  else if String.eqb name "--layout-effects-start" then KLayoutEffectsStart
  else if String.eqb name "--passive-effects-start" then KPassiveEffectsStart
  else if String.eqb name "--layout-effects-stop" then KLayoutEffectsStop
  else if String.eqb name "--passive-effects-stop" then KPassiveEffectsStop
  else if js_startsWith name "--schedule-render" then KScheduleRender
  else if js_startsWith name "--schedule-state-update-"
    then KScheduleStateUpdate (js_substr 24 name)
  else if js_startsWith name "--suspend-" then KSuspend (js_substr 10 name)
  else KOther.

(** [const [componentName, componentStack] = rest.split('-')] *)
Definition component_parts (rest : string) : string * option string :=
  let parts := js_split "-"%char rest in
  (default "" (head parts), parts !! 1).

(** The name the instrumentation emits for each branch. *)
Definition marker_name (k : marker_kind) : string :=
  match k with
  | KSchedulerStart rest => "--scheduler-start-" +:+ rest
  | KSchedulerStop rest => "--scheduler-stop-" +:+ rest
  | KRenderStart => "--render-start"
  | KRenderStop => "--render-stop"
  | KRenderYield => "--render-yield"
  | KRenderCancel => "--render-cancel"
  | KCommitStart => "--commit-start"
  | KCommitStop => "--commit-stop"
  | KLayoutEffectsStart => "--layout-effects-start"
  | KPassiveEffectsStart => "--passive-effects-start"
  | KLayoutEffectsStop => "--layout-effects-stop"
  | KPassiveEffectsStop => "--passive-effects-stop"
  | KScheduleRender => "--schedule-render"
  | KScheduleStateUpdate rest => "--schedule-state-update-" +:+ rest
  | KSuspend rest => "--suspend-" +:+ rest
  | KOther => "--"
  end.

(** The text after a [--schedule-state-update-] or [--suspend-] prefix
    for a component name and an optional component stack. *)
Definition component_text (n : string) (cs : option string) : string :=
  match cs with
  | None => n
  | Some st => n +:+ String "-" st
  end.

(** The pieces hold no ['-']. *)
Definition component_ok (n : string) (cs : option string) : bool :=
  negb (str_has "-"%char n) && match cs with None => true | Some st => negb (str_has "-"%char st) end.

Lemma component_parts_text n cs :
  component_ok n cs = true -> component_parts (component_text n cs) = (n, cs).
Proof.
  unfold component_ok, component_parts. intros [Hn%negb_true_iff Hs]%andb_true_iff.
  destruct cs as [st|]; cbn.
  - apply negb_true_iff in Hs. by rewrite js_split_app, js_split_no_sep.
  - by rewrite js_split_no_sep.
Qed.

Lemma classify_suspend q : classify_name ("--suspend-" +:+ q) = KSuspend q.
Proof.
  unfold classify_name. rewrite ?js_startsWith_app. simpl. rewrite ?js_startsWith_app.
  reflexivity.
Qed.

Lemma classify_state_update q :
  classify_name ("--schedule-state-update-" +:+ q) = KScheduleStateUpdate q.
Proof.
  unfold classify_name. rewrite ?js_startsWith_app. simpl. rewrite ?js_startsWith_app.
  reflexivity.
Qed.

(** C23: Dispatch inverts the name grammar: the [if]/[else if] chain
    selects, for every printed name, the branch it was printed from, and
    [substr] recovers its suffix exactly. *)
Theorem classify_name_roundtrip (k : marker_kind) : classify_name (marker_name k) = k.
Proof.
  destruct k; try reflexivity; unfold classify_name; simpl marker_name;
    rewrite ?js_startsWith_app; simpl; rewrite ?js_startsWith_app; reflexivity.
Qed.

(** Every printed name passes the filter. *)
Lemma marker_name_relevant k t :
  Filter.is_relevant (mkMarker "UserTiming" (marker_name k) t) = true.
Proof. by destruct k. Qed.

(** C24: A [<name>-<stack>] suffix whose parts hold no ['-'] parses back
    into the name and the stack. *)
Theorem component_parts_roundtrip (n st : string) :
  str_has "-"%char n = false -> str_has "-"%char st = false ->
  component_parts (n +:+ String "-" st) = (n, Some st).
Proof.
  intros Hn Hst. apply (component_parts_text n (Some st)). unfold component_ok. by rewrite Hn, Hst.
Qed.

(** C25: [split('-')] cuts at every ['-']: a component stack that holds a
    ['-'] keeps only its first piece (the spec describes the name and the
    stack as delimiter-joined free text). *)
Theorem component_stack_truncated (n a b : string) :
  str_has "-"%char n = false -> str_has "-"%char a = false ->
  component_parts (n +:+ String "-" (a +:+ String "-" b)) = (n, Some a).
Proof.
  intros Hn Ha. unfold component_parts.
  by rewrite js_split_app, js_split_app.
Qed.

(** ** Witnesses *)

Lemma component_parts_roundtrip_witness :
  component_parts ("Foo" +:+ String "-" "in Bar") = ("Foo", Some "in Bar").
Proof. apply component_parts_roundtrip; reflexivity. Defined.

Lemma component_stack_truncated_witness :
  component_parts ("Foo" +:+ String "-" ("in Bar" +:+ String "-" "in-App")) =
  ("Foo", Some "in Bar").
Proof. apply component_stack_truncated; reflexivity. Defined.
