(* ===== verification/Processor.v ===== *)
(** * The marker processor: [reactProfilerProcessor]

    [src/src/components/stack-chart/reactProfilerProcessor.js]. The
    closure variables of the function ([reactProfilerData], [metadata],
    [currentPriority], [uidCounter]) are the record [pstate]; the
    [console.error] calls are appended to its [st_log]; the helpers
    [getLastType], [getDepth], [markWorkCompleted], [markWorkStarted] and
    [throwIfIncomplete] are computations of the state-and-exception monad
    of the prelude; the body of the [for] loop is [processEvent], the loop
    is [processEvents], and the final [forEach] is [reportIncomplete].

    Representation choices:
    - a [metadata.stack] array is a list whose head is the array's last
      element ([stack[stack.length - 1]]): [push] is a cons, [pop] takes
      the head;
    - [measures] is a list in array order, addressed by index with stdpp's
      lookup [!!] and in-place update [<[i := x]>];
    - [currentMetadata] and [currentProfilerDataGroup], recomputed at the
      top of every iteration from [currentPriority] (lines 180-189), are
      the functions [cur_meta_key], [cur_meta] and [cur_group] of the
      state: the branch that changes [currentPriority] uses neither after
      the change. *)

From S2P Require Import Prelude Types Markers Names.
From Stdlib Require Import Ascii.


Local Open Scope string_scope.
Local Open Scope profiler_scope.

(** ** State *)

(** A frame of a metadata stack (lines 140-145). Frames never carry a
    [stopTime] field, so the test [last.stopTime === undefined] of
    [throwIfIncomplete] always holds. *)
Record frame : Type := mkFrame {
  fr_depth : nat;
  fr_index : nat;
  fr_startTime : Z;
  fr_type : work_type
}.

(** [Metadata] (lines 17-21). *)
Record metadata : Type := mkMeta {
  nextRenderShouldGenerateNewBatchID : bool;
  batchUID : nat;
  stack : list frame
}.

Definition initial_meta : metadata := mkMeta true 0 [].

(** The [console.error] diagnostics, in the order they are issued. *)
Inductive diagnostic : Type :=
  | DUnexpectedPriority (p : priority)
  | DUnexpectedSchedulerStart (name : string) (p : priority)
  | DUnexpectedSchedulerStop (name : string) (p : priority)
  | DCompletedWhileEmpty (t : work_type)
  | DCompletedBefore (t last : work_type)
  | DMissingMeasure (t : work_type)
  | DIncomplete (p : priority) (stack : list frame).

(** What the processor throws: the [Error] of [throwIfIncomplete], and the
    [TypeError] of reading [.measures] or [.events] of an [undefined] data
    group. *)
Inductive js_error : Type :=
  | StartedBeforeCompleted (t last : work_type)
  | TypeErrorUndefinedGroup.

Record pstate : Type := mkState {
  st_data : ptable data_group;
  st_metadata : ptable metadata;
  st_priority : priority;
  st_uid : nat;
  st_log : list diagnostic
}.

Definition initial_state : pstate :=
  mkState (ptable_const empty_group) (ptable_const initial_meta) Unscheduled 0 [].

Abbreviation PM A := (stm pstate js_error A).

(** ** The current metadata and data group *)

(** [metadata[currentPriority] || metadata.unscheduled]: the key whose slot
    [currentMetadata] aliases. *)
Definition cur_meta_key (s : pstate) : priority :=
  if known_priority (st_priority s) then st_priority s else Unscheduled.

Definition cur_meta (s : pstate) : metadata :=
  match ptable_get (st_priority s) (st_metadata s) with
  | Some m => m
  | None => t_unscheduled (st_metadata s)
  end.

(** [currentPriority || 'unscheduled']: the priority is always a string,
    and the only falsy string is the empty one (stored by a bare
    [--scheduler-start-]). *)
Definition group_key (p : priority) : priority :=
  match p with
  | OtherPriority EmptyString => Unscheduled
  | _ => p
  end.

Definition cur_group_key (s : pstate) : priority := group_key (st_priority s).

(** [reactProfilerData[currentPriority || 'unscheduled']]: [undefined]
    for a non-empty string that is not a key. *)
Definition cur_group (s : pstate) : option data_group :=
  ptable_get (cur_group_key s) (st_data s).

(** ** Primitive updates *)

Definition log (d : diagnostic) : PM unit :=
  st_modify (fun s => mkState (st_data s) (st_metadata s) (st_priority s) (st_uid s)
                        (st_log s ++ [d])).

Definition set_priority (p : priority) : PM unit :=
  st_modify (fun s => mkState (st_data s) (st_metadata s) p (st_uid s) (st_log s)).

(** Mutate [currentMetadata] in place. *)
Definition update_meta (f : metadata -> metadata) : PM unit :=
  st_modify (fun s => mkState (st_data s)
                        (ptable_set (cur_meta_key s) (f (cur_meta s)) (st_metadata s))
                        (st_priority s) (st_uid s) (st_log s)).

(** Mutate [currentProfilerDataGroup] in place. *)
Definition set_cur_group (g : data_group) : PM unit :=
  st_modify (fun s => mkState (ptable_set (cur_group_key s) g (st_data s))
                        (st_metadata s) (st_priority s) (st_uid s) (st_log s)).

Definition set_stack (st : list frame) (m : metadata) : metadata :=
  mkMeta (nextRenderShouldGenerateNewBatchID m) (batchUID m) st.

Definition set_next (b : bool) (m : metadata) : metadata :=
  mkMeta b (batchUID m) (stack m).

Definition set_duration (d : Z) (ms : measure) : measure :=
  mkMeasure (ms_type ms) (ms_batchUID ms) (ms_depth ms) (ms_priority ms)
    (ms_timestamp ms) d.

(** ** The helpers of lines 86-168 *)

(** [getLastType] *)
Definition getLastType (m : metadata) : option work_type :=
  match stack m with
  | [] => None
  | f :: _ => Some (fr_type f)
  end.

(** [getDepth] *)
Definition getDepth (m : metadata) : nat :=
  match stack m with
  | [] => 0
  | f :: _ => if decide (fr_type f = RenderIdle) then fr_depth f else S (fr_depth f)
  end.

(** [markWorkCompleted]: pop the top frame if it has the expected type and
    write the measure's duration; log and change nothing otherwise. *)
Definition markWorkCompleted (t : work_type) (stopTime : Z) : PM unit :=
  s <- st_get ;;
  match stack (cur_meta s) with
  | [] => log (DCompletedWhileEmpty t)
  | last :: rest =>
      if decide (fr_type last = t) then
        update_meta (set_stack rest) ;;
        match cur_group s with
        | None => st_ret tt
        | Some g =>
            match measures g !! fr_index last with
            | None => log (DMissingMeasure t)
            | Some ms =>
                set_cur_group
                  (mkGroup (events g)
                     (<[fr_index last := set_duration (stopTime - fr_startTime last) ms]>
                        (measures g)))
            end
        end
      else log (DCompletedBefore t (fr_type last))
  end.

(** [markWorkStarted]: push a frame and its zero-duration measure. *)
Definition markWorkStarted (t : work_type) (startTime : Z) : PM unit :=
  s <- st_get ;;
  let m := cur_meta s in
  match cur_group s with
  | None => st_throw TypeErrorUndefinedGroup
  | Some g =>
      let index := length (measures g) in
      let depth := getDepth m in
      update_meta (set_stack (mkFrame depth index startTime t :: stack m)) ;;
      set_cur_group
        (mkGroup (events g)
           (measures g ++ [mkMeasure t (batchUID m) depth (st_priority s) startTime 0]))
  end.

(** [throwIfIncomplete]: only the top frame is examined. *)
Definition throwIfIncomplete (t : work_type) : PM unit :=
  s <- st_get ;;
  match stack (cur_meta s) with
  | last :: _ =>
      if decide (fr_type last = t)
      then st_throw (StartedBeforeCompleted t (fr_type last))
      else st_ret tt
  | [] => st_ret tt
  end.

(** [currentProfilerDataGroup.events.push(ev)] *)
Definition pushEvent (ev : react_event) : PM unit :=
  s <- st_get ;;
  match cur_group s with
  | None => st_throw TypeErrorUndefinedGroup
  | Some g => set_cur_group (mkGroup (events g ++ [ev]) (measures g))
  end.

Definition set_uid (n : nat) : PM unit :=
  st_modify (fun s => mkState (st_data s) (st_metadata s) (st_priority s) n (st_log s)).

(** [!!currentMetadata.stack.find(({ type }) => type === 'commit')] *)
Definition has_open_commit (m : metadata) : bool :=
  existsb (fun f => bool_decide (fr_type f = Commit)) (stack m).

(** The branches of the chain. *)
Definition handleMarker (k : marker_kind) (name : string) (startTime : Z) : PM unit :=
  s <- st_get ;;
  let m := cur_meta s in
  match k with
  | KSchedulerStart rest =>
      if negb (String.eqb (string_of_priority (st_priority s)) "unscheduled")
      then log (DUnexpectedSchedulerStart name (st_priority s))
      else set_priority (priority_of_string rest)
  | KSchedulerStop rest =>
      if String.eqb (string_of_priority (st_priority s)) "unscheduled"
         || negb (String.eqb (string_of_priority (st_priority s)) rest)
      then log (DUnexpectedSchedulerStop name (st_priority s))
      else set_priority Unscheduled
  | KRenderStart =>
      (if nextRenderShouldGenerateNewBatchID m
       then update_meta (fun m => mkMeta false (st_uid s) (stack m)) ;;
            set_uid (S (st_uid s))
       else st_ret tt) ;;
      throwIfIncomplete Render ;;
      s' <- st_get ;;
      (if decide (getLastType (cur_meta s') = Some RenderIdle) then st_ret tt
       else markWorkStarted RenderIdle startTime) ;;
      markWorkStarted Render startTime
  | KRenderStop => markWorkCompleted Render startTime
  | KRenderYield => markWorkCompleted Render startTime
  | KRenderCancel =>
      update_meta (set_next true) ;;
      markWorkCompleted Render startTime ;;
      markWorkCompleted RenderIdle startTime
  | KCommitStart =>
      update_meta (set_next true) ;;
      markWorkStarted Commit startTime
  | KCommitStop =>
      markWorkCompleted Commit startTime ;;
      markWorkCompleted RenderIdle startTime
  | KLayoutEffectsStart =>
      throwIfIncomplete LayoutEffects ;; markWorkStarted LayoutEffects startTime
  | KPassiveEffectsStart =>
      throwIfIncomplete PassiveEffects ;; markWorkStarted PassiveEffects startTime
  | KLayoutEffectsStop => markWorkCompleted LayoutEffects startTime
  | KPassiveEffectsStop => markWorkCompleted PassiveEffects startTime
  | KScheduleRender => pushEvent (ScheduleRender (st_priority s) startTime)
  | KScheduleStateUpdate rest =>
      let '(cname, cstack) := component_parts rest in
      pushEvent (ScheduleStateUpdate (st_priority s) (has_open_commit m) startTime
                   cname cstack)
  | KSuspend rest =>
      let '(cname, cstack) := component_parts rest in
      pushEvent (Suspend (st_priority s) startTime cname cstack)
  | KOther => st_ret tt
  end.

(** One iteration of the [for] loop (lines 171-283). The test
    [!currentMetadata] of line 181 never holds ([metadata.unscheduled] is
    the fallback) and is not modelled. *)
Definition processEvent (e : marker) : PM unit :=
  if Filter.is_relevant e then
    s <- st_get ;;
    (match cur_group s with
     | None => log (DUnexpectedPriority (st_priority s))
     | Some _ => st_ret tt
     end) ;;
    handleMarker (classify_name (mk_name e)) (mk_name e) (mk_startTime e)
  else st_ret tt.

(** The [for] loop. *)
Fixpoint processEvents (l : list marker) : PM unit :=
  match l with
  | [] => st_ret tt
  | e :: l' => processEvent e ;; processEvents l'
  end.

(** The final [forEach] over [Object.entries(metadata)] (lines 286-294);
    the logged stack is printed in array order. *)
Fixpoint logIncomplete (entries : list (priority * metadata)) : PM unit :=
  match entries with
  | [] => st_ret tt
  | (p, m) :: rest =>
      (match stack m with
       | [] => st_ret tt
       | _ => log (DIncomplete p (rev (stack m)))
       end) ;;
      logIncomplete rest
  end.

Definition reportIncomplete : PM unit :=
  s <- st_get ;; logIncomplete (ptable_entries (st_metadata s)).

(** [reactProfilerProcessor]: [None] for no relevant marker, otherwise the
    data of every priority with the diagnostics logged on the way, or the
    exception that aborted the pass. *)
Definition reactProfilerProcessor `{Sort.MarkerSort} (payload : list (option marker))
    : outcome js_error (option (ptable data_group) * list diagnostic) :=
  match Sort.msort (Filter.filter_markers payload) with
  | [] => Return (None, [])
  | ms =>
      match (processEvents ms ;; reportIncomplete) initial_state with
      | Return (_, s) => Return (Some (st_data s), st_log s)
      | Throw e => Throw e
      end
  end.

(** ** The current data group's key *)

Lemma group_key_known p : known_priority p = true -> group_key p = p.
Proof. by destruct p. Qed.

Lemma cur_group_None s : cur_group s = None -> known_priority (group_key (st_priority s)) = false.
Proof. unfold cur_group, cur_group_key, group_key. by destruct (st_priority s) as [| | | |[|c q]]. Qed.

(** ** The null result *)

Lemma filter_markers_nil payload :
  Filter.filter_markers payload = [] <->
  Forall (fun o => forall m, o = Some m -> Filter.is_relevant m = false) payload.
Proof.
  unfold Filter.filter_markers.
  induction payload as [|[m|] payload IH]; simpl.
  - split; [constructor | done].
  - rewrite filter_cons. case_decide as Hr.
    + split; [discriminate|]. intros Hf. invc Hf.
      match goal with H : forall m', Some m = Some m' -> _ |- _ =>
        specialize (H m eq_refl) end. congruence.
    + rewrite IH. split; intros Hf; [constructor; [intros ? [= <-]; by destruct (Filter.is_relevant m)|done] | by invc Hf].
  - rewrite IH. split; intros Hf; [constructor; [discriminate|done] | by invc Hf].
Qed.

(** C11: The processor returns null, and logs nothing, exactly when the
    payload holds no [UserTiming] marker named ["--..."]; otherwise it
    returns a dataset or throws. *)
Theorem processor_null_iff `{Sort.MarkerSort} (payload : list (option marker)) :
  reactProfilerProcessor payload = Return (None, []) <->
  Forall (fun o => forall m, o = Some m -> Filter.is_relevant m = false) payload.
Proof.
  rewrite <- filter_markers_nil. unfold reactProfilerProcessor.
  pose proof (Sort.msort_perm (Filter.filter_markers payload)) as Hp.
  destruct (Sort.msort (Filter.filter_markers payload)) as [|m ms].
  - split; [intros _ | done]. by apply Permutation_nil.
  - split.
    + destruct ((processEvents (m :: ms) ;; reportIncomplete) initial_state)
        as [[? ?]|?]; discriminate.
    + intros Hf. rewrite Hf in Hp. symmetry in Hp. by apply Permutation_nil_cons in Hp.
Qed.
