(* ===== verification/ProcessorInvariant.v ===== *)
(** * The well-formedness invariant of the processor state

    Every frame of a priority's stack addresses an existing measure of the
    same priority's [measures] that still has duration 0 and the frame's
    type, depth and start time; indices strictly decrease from the top of
    the stack down (so no two frames share a measure); and each frame's
    depth is what [getDepth] computed from the frames below it. Every
    handler keeps the invariant, so the branch
    ["Could not find matching measure"] of [markWorkCompleted] is dead
    code, and on a state that satisfies it a completion of the top
    frame's type writes exactly that frame's duration. *)

From S2P Require Import Prelude Types Markers Names Processor.

Local Open Scope profiler_scope.

(** ** The invariant *)

(** [getDepth] of a metadata whose stack is [st]. *)
Definition depth_of (st : list frame) : nat :=
  match st with
  | [] => 0
  | f :: _ => if decide (fr_type f = RenderIdle) then fr_depth f else S (fr_depth f)
  end.

Definition frame_ok (ms : list measure) (f : frame) : Prop :=
  exists m, ms !! fr_index f = Some m /\ ms_type m = fr_type f /\
            ms_depth m = fr_depth f /\ ms_timestamp m = fr_startTime f /\
            ms_duration m = 0%Z.

Fixpoint stack_ok (ms : list measure) (st : list frame) : Prop :=
  match st with
  | [] => True
  | f :: rest =>
      frame_ok ms f /\ fr_depth f = depth_of rest /\
      Forall (fun f' => fr_index f' < fr_index f) rest /\ stack_ok ms rest
  end.

Definition ctx_ok (m : metadata) (g : data_group) : Prop :=
  stack_ok (measures g) (stack m).

Definition wf (s : pstate) : Prop :=
  forall p m g, ptable_get p (st_metadata s) = Some m ->
                ptable_get p (st_data s) = Some g -> ctx_ok m g.

(** No [DMissingMeasure] was logged. *)
Definition no_missing (s : pstate) : Prop :=
  forall t, DMissingMeasure t ∉ st_log s.

Definition good (s : pstate) : Prop := wf s /\ no_missing s.

(** ** Stack lemmas *)

Lemma getDepth_depth_of m : getDepth m = depth_of (stack m).
Proof. done. Qed.

Lemma frame_ok_lt ms f : frame_ok ms f -> fr_index f < length ms.
Proof. intros (m & Hl & _). by eapply lookup_lt_Some. Qed.

Lemma stack_ok_indices ms st :
  stack_ok ms st -> Forall (fun f => fr_index f < length ms) st.
Proof.
  induction st as [|f st IH]; simpl; [done|]. intros (Hf & _ & _ & Hst).
  constructor; [by apply frame_ok_lt | auto].
Qed.

Lemma frame_ok_snoc ms x f : frame_ok ms f -> frame_ok (ms ++ [x]) f.
Proof.
  intros (m & Hl & H). exists m. split; [|done].
  rewrite lookup_snoc_lt; [done|]. by eapply lookup_lt_Some.
Qed.

Lemma stack_ok_snoc ms x st : stack_ok ms st -> stack_ok (ms ++ [x]) st.
Proof.
  induction st as [|f st IH]; simpl; [done|]. intros (? & ? & ? & ?).
  auto using frame_ok_snoc.
Qed.

(** [markWorkStarted] on a well-formed stack. *)
Lemma stack_ok_push ms st t b p ts :
  stack_ok ms st ->
  stack_ok (ms ++ [mkMeasure t b (depth_of st) p ts 0])
           (mkFrame (depth_of st) (length ms) ts t :: st).
Proof.
  intros Hst. simpl. split_and!; [| done | | by apply stack_ok_snoc].
  - exists (mkMeasure t b (depth_of st) p ts 0). simpl.
    by rewrite lookup_snoc_length.
  - apply stack_ok_indices in Hst. done.
Qed.

Lemma frame_ok_insert_ne ms i x f :
  fr_index f <> i -> frame_ok ms f -> frame_ok (<[i := x]> ms) f.
Proof. intros Hne (m & Hl & H). exists m. by rewrite list_lookup_insert_ne. Qed.

Lemma stack_ok_insert_below ms i x st :
  Forall (fun f' => fr_index f' < i) st -> stack_ok ms st ->
  stack_ok (<[i := x]> ms) st.
Proof.
  induction st as [|f st IH]; simpl; [done|].
  intros Hall (Hok & Hd & Hlt & Hst). invc Hall.
  split_and!; auto. apply frame_ok_insert_ne; [lia | done].
Qed.

(** [markWorkCompleted]: popping the top frame, with or without writing
    its measure. *)
Lemma stack_ok_pop ms f rest : stack_ok ms (f :: rest) -> stack_ok ms rest.
Proof. by intros (_ & _ & _ & H). Qed.

Lemma stack_ok_pop_write ms f rest x :
  stack_ok ms (f :: rest) -> stack_ok (<[fr_index f := x]> ms) rest.
Proof. intros (_ & _ & Hlt & H). by apply stack_ok_insert_below. Qed.

(** ** The current context *)

(** A current data group exists exactly under a key of the tables, the
    key [currentMetadata] aliases too. *)
Lemma cur_group_key_known s g : cur_group s = Some g -> known_priority (cur_group_key s) = true.
Proof.
  unfold cur_group, cur_group_key, group_key.
  destruct (st_priority s) as [| | | |[|c q]]; done || discriminate.
Qed.

Lemma cur_meta_key_group s g : cur_group s = Some g -> cur_meta_key s = cur_group_key s.
Proof.
  unfold cur_group, cur_group_key, cur_meta_key, group_key.
  destruct (st_priority s) as [| | | |[|c q]]; done || discriminate.
Qed.

Lemma cur_meta_key_of_known s :
  known_priority (st_priority s) = true -> cur_meta_key s = st_priority s.
Proof. unfold cur_meta_key. by intros ->. Qed.

Lemma cur_meta_key_is_known s : known_priority (cur_meta_key s) = true.
Proof. unfold cur_meta_key. by destruct (st_priority s). Qed.

Lemma cur_meta_get s : ptable_get (cur_meta_key s) (st_metadata s) = Some (cur_meta s).
Proof. unfold cur_meta_key, cur_meta. by destruct (st_priority s). Qed.

Lemma cur_meta_get_known s :
  known_priority (st_priority s) = true ->
  ptable_get (st_priority s) (st_metadata s) = Some (cur_meta s).
Proof. intros Hk. rewrite <- (cur_meta_key_of_known s Hk). apply cur_meta_get. Qed.

Lemma cur_meta_get_group s g :
  cur_group s = Some g -> ptable_get (cur_group_key s) (st_metadata s) = Some (cur_meta s).
Proof. intros Hg. rewrite <- (cur_meta_key_group s g Hg). apply cur_meta_get. Qed.

(** ** Updating one priority's slots *)

Section Updates.
Context (s : pstate) (Hwf : wf s) (k : priority) (Hk : known_priority k = true).
Context (pr : priority) (u : nat) (l : list diagnostic).

Lemma wf_set_meta m' :
  (forall g, ptable_get k (st_data s) = Some g -> ctx_ok m' g) ->
  wf (mkState (st_data s) (ptable_set k m' (st_metadata s)) pr u l).
Proof.
  intros Hnew p m g; simpl. destruct (decide (p = k)) as [->|Hne].
  - rewrite ptable_get_set_eq by done. intros [= <-]. apply Hnew.
  - rewrite ptable_get_set_ne by congruence. apply Hwf.
Qed.

Lemma wf_set_data g' :
  (forall m, ptable_get k (st_metadata s) = Some m -> ctx_ok m g') ->
  wf (mkState (ptable_set k g' (st_data s)) (st_metadata s) pr u l).
Proof.
  intros Hnew p m g; simpl. destruct (decide (p = k)) as [->|Hne].
  - rewrite ptable_get_set_eq by done. intros Hm [= <-]. by apply Hnew.
  - rewrite ptable_get_set_ne by congruence. apply Hwf.
Qed.

Lemma wf_set_both m' g' :
  ctx_ok m' g' ->
  wf (mkState (ptable_set k g' (st_data s)) (ptable_set k m' (st_metadata s)) pr u l).
Proof.
  intros Hnew p m g; simpl. destruct (decide (p = k)) as [->|Hne].
  - rewrite !ptable_get_set_eq by done. by intros [= <-] [= <-].
  - rewrite !ptable_get_set_ne by congruence. apply Hwf.
Qed.
End Updates.

(** ** Every helper keeps the invariant *)

(** Unfold the monad in a hypothesis [Hrun : m s = Return (a, s')] whose
    computation no longer branches, and substitute the final state. *)
Ltac run_in Hrun :=
  cbv [st_bind st_modify st_get st_ret st_throw log set_priority set_uid
       update_meta set_cur_group] in Hrun; simpl in Hrun;
  injection Hrun as <- <-.

Lemma log_good d : (forall t, d <> DMissingMeasure t) -> preserves good (log d).
Proof.
  intros Hd. apply hoare_modify. intros s [Hwf Hnm]. split; [exact Hwf|].
  intros t. simpl. rewrite elem_of_app, list_elem_of_singleton.
  intros [H|H]; [exact (Hnm t H) | exact (Hd t (eq_sym H))].
Qed.

Lemma set_priority_good p : preserves good (set_priority p).
Proof. apply hoare_modify. intros s [Hwf Hnm]. split; [exact Hwf | exact Hnm]. Qed.

Lemma set_uid_good n : preserves good (set_uid n).
Proof. apply hoare_modify. intros s [Hwf Hnm]. split; [exact Hwf | exact Hnm]. Qed.

Lemma update_meta_good f :
  (forall m, stack (f m) = stack m) -> preserves good (update_meta f).
Proof.
  intros Hf. apply hoare_modify. intros s [Hwf Hnm]. split; [|exact Hnm].
  apply wf_set_meta; [done | apply cur_meta_key_is_known |].
  intros g Hg. unfold ctx_ok. rewrite Hf. eapply Hwf; [apply cur_meta_get | done].
Qed.

Lemma throwIfIncomplete_good t : preserves good (throwIfIncomplete t).
Proof. unfold throwIfIncomplete. preserves_tac. Qed.

Lemma pushEvent_good ev : preserves good (pushEvent ev).
Proof.
  unfold pushEvent. apply preserves_get. intros s0 a s' [Hwf Hnm] Hrun.
  destruct (cur_group s0) as [g|] eqn:Hcg; [|discriminate]. run_in Hrun.
  split; [|exact Hnm]. apply wf_set_data; [done | by eapply cur_group_key_known |]. intros m Hm.
  change (ctx_ok m g). eapply Hwf; [exact Hm | exact Hcg].
Qed.

Lemma markWorkStarted_good t ts : preserves good (markWorkStarted t ts).
Proof.
  unfold markWorkStarted. apply preserves_get. intros s0 a s' [Hwf Hnm] Hrun.
  destruct (cur_group s0) as [g|] eqn:Hcg; [|discriminate].
  pose proof (cur_group_key_known _ _ Hcg) as Hk. run_in Hrun.
  rewrite (cur_meta_key_group _ _ Hcg). split; [|exact Hnm].
  apply wf_set_both; [done | done |]. unfold ctx_ok; simpl.
  rewrite getDepth_depth_of. apply stack_ok_push.
  eapply Hwf; [apply (cur_meta_get_group _ _ Hcg) | exact Hcg].
Qed.

Lemma markWorkCompleted_good t ts : preserves good (markWorkCompleted t ts).
Proof.
  unfold markWorkCompleted. apply preserves_get. intros s0 a s' [Hwf Hnm] Hrun.
  assert (Hcur : forall g, ptable_get (cur_meta_key s0) (st_data s0) = Some g ->
                 ctx_ok (cur_meta s0) g) by (intros g; apply Hwf, cur_meta_get).
  destruct (stack (cur_meta s0)) as [|f rest] eqn:Hst.
  { refine (log_good _ _ s0 a s' _ Hrun); [intros ? [=] | split; done]. }
  case_decide; [|refine (log_good _ _ s0 a s' _ Hrun); [intros ? [=] | split; done]].
  destruct (cur_group s0) as [g|] eqn:Hcg.
  - pose proof (cur_group_key_known _ _ Hcg) as Hk.
    assert (Hok : stack_ok (measures g) (f :: rest)).
    { rewrite <- Hst. apply Hcur. by rewrite (cur_meta_key_group _ _ Hcg). }
    destruct (measures g !! fr_index f) as [ms|] eqn:Hl.
    + run_in Hrun. rewrite (cur_meta_key_group _ _ Hcg). split; [|exact Hnm].
      apply wf_set_both; [done | done |]. by eapply stack_ok_pop_write.
    + exfalso. destruct Hok as ((m & Hm & _) & _). congruence.
  - run_in Hrun. split; [|exact Hnm].
    apply wf_set_meta; [done | apply cur_meta_key_is_known |].
    intros g Hg. apply (stack_ok_pop _ f). cbn [stack set_stack]. rewrite <- Hst. by apply Hcur.
Qed.

Definition is_missing (d : diagnostic) : bool :=
  match d with DMissingMeasure _ => true | _ => false end.

Lemma log_good' d : is_missing d = false -> preserves good (log d).
Proof. intros Hd. apply log_good. intros t ->. discriminate. Qed.

#[export] Hint Resolve log_good' set_priority_good set_uid_good update_meta_good
  throwIfIncomplete_good pushEvent_good markWorkStarted_good markWorkCompleted_good
  : profiler.

(** ** The handlers, the loop and the final report keep the invariant *)

Lemma handleMarker_good k name ts : preserves good (handleMarker k name ts).
Proof. unfold handleMarker. preserves_tac. Qed.

Lemma processEvent_good e : preserves good (processEvent e).
Proof. unfold processEvent. preserves_tac. apply handleMarker_good. Qed.

(** A state predicate every iteration keeps is kept by the loop. *)
Lemma processEvents_preserves I :
  (forall e, preserves I (processEvent e)) -> forall l, preserves I (processEvents l).
Proof. intros He l. induction l; simpl; preserves_tac. Qed.

Lemma processEvents_good l : preserves good (processEvents l).
Proof. apply processEvents_preserves, processEvent_good. Qed.

(** The final report only logs [DIncomplete] diagnostics: it keeps every
    state predicate such a log keeps. *)
Lemma reportIncomplete_preserves I :
  (forall p st, preserves I (log (DIncomplete p st))) -> preserves I reportIncomplete.
Proof.
  intros Hl. unfold reportIncomplete. preserves_tac.
  induction (ptable_entries (st_metadata _)) as [|[p m] es IH]; simpl; preserves_tac.
Qed.

Lemma reportIncomplete_good : preserves good reportIncomplete.
Proof. apply reportIncomplete_preserves. eauto with profiler. Qed.

Lemma initial_good : good initial_state.
Proof.
  split; [|intros t; apply not_elem_of_nil]. intros p m g Hm Hg.
  destruct p; simpl in *; try discriminate;
    injection Hm as <-; injection Hg as <-; done.
Qed.

(** ** Results *)

Section Results.
Context `{Sort.MarkerSort}.

(** A pass that returns a dataset: the loop over the sorted markers, then
    the final report, from the initial state. *)
Lemma processor_run payload d logs :
  reactProfilerProcessor payload = Return (Some d, logs) ->
  exists s1 s,
    processEvents (Sort.msort (Filter.filter_markers payload)) initial_state = Return (tt, s1) /\
    reportIncomplete s1 = Return (tt, s) /\ st_data s = d /\ st_log s = logs.
Proof.
  unfold reactProfilerProcessor.
  destruct (Sort.msort _) as [|m ms]; [discriminate|].
  destruct ((processEvents (m :: ms) ;; reportIncomplete) initial_state)
    as [[[] s]|e] eqn:E; [|discriminate].
  intros [= <- <-]. apply st_bind_Return in E as ([] & s1 & H1 & H2).
  by exists s1, s.
Qed.

(** A state predicate that holds initially and that every iteration and
    the final report keep holds of the state a returning pass ends in. *)
Lemma processor_run_keeps (I : pstate -> Prop) payload d logs :
  I initial_state -> (forall e, preserves I (processEvent e)) -> preserves I reportIncomplete ->
  reactProfilerProcessor payload = Return (Some d, logs) ->
  exists s, I s /\ st_data s = d /\ st_log s = logs.
Proof.
  intros H0 He Hr Hrun. destruct (processor_run payload d logs Hrun) as (s1 & s & H1 & H2 & Hd & Hl).
  exists s. split; [|done]. apply (Hr s1 tt s); [|exact H2].
  exact (processEvents_preserves I He _ initial_state tt s1 H0 H1).
Qed.

Lemma processor_run_good payload d logs :
  reactProfilerProcessor payload = Return (Some d, logs) ->
  exists s, good s /\ st_data s = d /\ st_log s = logs.
Proof.
  apply processor_run_keeps; [exact initial_good | apply processEvent_good | apply reportIncomplete_good].
Qed.
End Results.

(** C2: Every handler keeps the invariant: processing one marker from a
    well-formed state that has logged no missing measure yields such a
    state again (when the marker does not abort the pass). *)
Theorem processEvent_keeps_invariant (e : marker) (s s' : pstate) :
  good s -> processEvent e s = Return (tt, s') -> good s'.
Proof. intros Hg Hrun. exact (processEvent_good e s tt s' Hg Hrun). Qed.

(** C3: The branch "Could not find matching measure" of
    [markWorkCompleted] is dead code: whatever the payload, a pass that
    returns a dataset logs no diagnostic of that kind. *)
Theorem processor_never_misses_measure `{Sort.MarkerSort} (payload : list (option marker))
    (d : ptable data_group) (logs : list diagnostic) :
  reactProfilerProcessor payload = Return (Some d, logs) ->
  Forall (fun e => is_missing e = false) logs.
Proof.
  intros Hrun. destruct (processor_run_good payload d logs Hrun) as (s & [_ Hnm] & _ & <-).
  apply Forall_forall. intros [] Hin; try reflexivity. exfalso.
  apply (Hnm t). by apply list_elem_of_In.
Qed.

(** C9: [markWorkCompleted t stopTime] on a well-formed state whose top
    frame has type [t] pops the frame, writes [stopTime - startTime] into
    exactly the measure the frame addresses, and logs nothing. *)
Theorem markWorkCompleted_sets_duration (t : work_type) (stopTime : Z) (s : pstate)
    (g : data_group) (f : frame) (rest : list frame) :
  good s -> cur_group s = Some g -> stack (cur_meta s) = f :: rest -> fr_type f = t ->
  exists ms s',
    measures g !! fr_index f = Some ms /\
    markWorkCompleted t stopTime s = Return (tt, s') /\
    cur_group s' = Some (mkGroup (events g)
      (<[fr_index f := set_duration (stopTime - fr_startTime f) ms]> (measures g))) /\
    stack (cur_meta s') = rest /\ st_log s' = st_log s.
Proof.
  intros [Hwf _] Hcg Hst Ht. pose proof (cur_group_key_known _ _ Hcg) as Hk.
  assert (Hok : stack_ok (measures g) (f :: rest)).
  { rewrite <- Hst. eapply Hwf; [apply (cur_meta_get_group _ _ Hcg) | exact Hcg]. }
  destruct Hok as ((ms & Hms & _) & _).
  eexists ms, _. split; [exact Hms|]. split.
  { unfold markWorkCompleted, st_bind, st_get. rewrite Hst, Hcg, Hms.
    rewrite decide_True by done. reflexivity. }
  pose proof (cur_meta_key_group _ _ Hcg) as Hkey. revert Hk Hkey.
  unfold cur_group, cur_meta, cur_meta_key, cur_group_key, group_key; cbn.
  destruct (st_priority s) as [| | | |[|c q]]; intros Hk Hkey; try discriminate;
    cbn; split_and!; done.
Qed.

(** ** Witnesses *)

Local Open Scope string_scope.

(** A render whose stop arrives as a yield, then an unmatched commit stop
    (logged twice). *)
Definition invariant_witness_payload : list (option marker) :=
  [Some (mkMarker "UserTiming" "--render-start" 1);
   Some (mkMarker "UserTiming" "--render-yield" 3);
   Some (mkMarker "UserTiming" "--commit-stop" 4)].

(** The dataset and log of that payload, and the state after one render
    start. *)
Definition invariant_witness_result :=
  Eval vm_compute in @reactProfilerProcessor SortFacts.v8_sort invariant_witness_payload.

Definition invariant_witness_data : ptable data_group :=
  Eval vm_compute in
    match invariant_witness_result with
    | Return (Some d, _) => d
    | _ => ptable_const empty_group
    end.

Definition invariant_witness_logs : list diagnostic :=
  Eval vm_compute in
    match invariant_witness_result with
    | Return (_, logs) => logs
    | Throw _ => []
    end.

Definition invariant_witness_state : pstate :=
  Eval vm_compute in
    match processEvent (mkMarker "UserTiming" "--render-start" 1) initial_state with
    | Return (_, s) => s
    | Throw _ => initial_state
    end.

Lemma processor_never_misses_measure_witness :
  @reactProfilerProcessor SortFacts.v8_sort invariant_witness_payload =
    Return (Some invariant_witness_data, invariant_witness_logs) /\
  invariant_witness_logs <> [] /\
  Forall (fun e => is_missing e = false) invariant_witness_logs.
Proof.
  split; [vm_compute; reflexivity|]. split; [vm_compute; discriminate|].
  apply (@processor_never_misses_measure SortFacts.v8_sort invariant_witness_payload
           invariant_witness_data).
  vm_compute. reflexivity.
Defined.

Lemma processEvent_keeps_invariant_witness :
  processEvent (mkMarker "UserTiming" "--render-start" 1) initial_state =
    Return (tt, invariant_witness_state) /\ good invariant_witness_state.
Proof.
  split; [vm_compute; reflexivity|].
  apply (processEvent_keeps_invariant (mkMarker "UserTiming" "--render-start" 1) initial_state).
  - exact initial_good.
  - vm_compute. reflexivity.
Defined.

Definition invariant_witness_group : data_group :=
  Eval vm_compute in t_unscheduled (st_data invariant_witness_state).

Lemma markWorkCompleted_sets_duration_witness :
  exists s', markWorkCompleted Render 5 invariant_witness_state = Return (tt, s').
Proof.
  destruct (markWorkCompleted_sets_duration Render 5 invariant_witness_state
              invariant_witness_group (mkFrame 0 1 1 Render) [mkFrame 0 0 1 RenderIdle])
    as (ms & s' & _ & Hrun & _).
  - apply (processEvent_good (mkMarker "UserTiming" "--render-start" 1) initial_state tt).
    + exact initial_good.
    + vm_compute. reflexivity.
  - vm_compute. reflexivity.
  - vm_compute. reflexivity.
  - reflexivity.
  - exists s'. exact Hrun.
Defined.
