(* ===== verification/Growth.v ===== *)
(** * What the processor never takes back

    The spec (section 3) says a measure's duration "starts at 0 and is the
    only field mutated after creation", and events and diagnostics are
    ordered output. [grows s s'] states this of two states: every
    priority's events and the diagnostics only get appended to; no
    measure is removed, moved, or changed in a field other than its
    duration; and a duration only changes while it is still 0. Every
    helper relates its initial and final states by [grows] (the write of
    [markWorkCompleted] from a state satisfying the invariant [good]), so
    the whole loop does. *)

From S2P Require Import Prelude Types Markers Names Processor ProcessorInvariant.

Local Open Scope profiler_scope.

(** ** The relation *)

(** [y] is [x] with possibly another duration, and the duration changed
    only if it was still 0. *)
Definition measure_grows (x y : measure) : Prop :=
  y = set_duration (ms_duration y) x /\ (ms_duration x = ms_duration y \/ ms_duration x = 0%Z).

Definition measures_grow (ms ms' : list measure) : Prop :=
  forall i x, ms !! i = Some x -> exists y, ms' !! i = Some y /\ measure_grows x y.

Definition group_grows (g g' : data_group) : Prop :=
  events g `prefix_of` events g' /\ measures_grow (measures g) (measures g').

Definition data_grows (d d' : ptable data_group) : Prop :=
  forall q g, ptable_get q d = Some g -> exists g', ptable_get q d' = Some g' /\ group_grows g g'.

Definition grows (s s' : pstate) : Prop :=
  data_grows (st_data s) (st_data s') /\ st_log s `prefix_of` st_log s'.

(** ** It is a preorder *)

Lemma set_duration_twice d d' x : set_duration d (set_duration d' x) = set_duration d x.
Proof. done. Qed.

#[export] Instance measure_grows_preorder : PreOrder measure_grows.
Proof.
  split.
  - intros [t u d p ts du]. split; [done | by left].
  - intros x y z [Hy Dy] [Hz Dz]. split.
    + rewrite Hz, Hy at 1. rewrite set_duration_twice. done.
    + destruct Dy as [Dy|Dy]; [|by right]. rewrite Dy. destruct Dz; [left | right]; done.
Qed.

#[export] Instance measures_grow_preorder : PreOrder measures_grow.
Proof.
  split.
  - intros ms i x Hx. exists x. split; [done | reflexivity].
  - intros a b c Hab Hbc i x Hx. destruct (Hab i x Hx) as (y & Hy & Hxy).
    destruct (Hbc i y Hy) as (z & Hz & Hyz). exists z. split; [done | by etransitivity].
Qed.

#[export] Instance group_grows_preorder : PreOrder group_grows.
Proof.
  split.
  - intros g. split; reflexivity.
  - intros a b c [Eab Mab] [Ebc Mbc]. split; by etransitivity.
Qed.

#[export] Instance data_grows_preorder : PreOrder data_grows.
Proof.
  split.
  - intros d q g Hg. exists g. split; [done | reflexivity].
  - intros a b c Hab Hbc q g Hg. destruct (Hab q g Hg) as (g1 & H1 & G1).
    destruct (Hbc q g1 H1) as (g2 & H2 & G2). exists g2. split; [done | by etransitivity].
Qed.

#[export] Instance grows_preorder : PreOrder grows.
Proof.
  split.
  - intros s. split; reflexivity.
  - intros a b c [Dab Lab] [Dbc Lbc]. split; by etransitivity.
Qed.

(** ** The ways the processor writes its output *)

Lemma measures_grow_snoc ms x : measures_grow ms (ms ++ [x]).
Proof.
  intros i y Hy. exists y. split; [|reflexivity].
  rewrite lookup_app_l; [done|]. by eapply lookup_lt_Some.
Qed.

Lemma measures_grow_write ms i x d :
  ms !! i = Some x -> ms_duration x = 0%Z ->
  measures_grow ms (<[i := set_duration d x]> ms).
Proof.
  intros Hx H0 j y Hy. destruct (decide (i = j)) as [<-|Hne].
  - rewrite Hx in Hy. injection Hy as <-. exists (set_duration d x).
    rewrite list_lookup_insert_eq by (by eapply lookup_lt_Some). split; [done|].
    split; [done | by right].
  - exists y. rewrite list_lookup_insert_ne by done. split; [done | reflexivity].
Qed.

Lemma data_grows_set d p g g' :
  ptable_get p d = Some g -> group_grows g g' -> data_grows d (ptable_set p g' d).
Proof.
  intros Hg Hgg q h Hh. destruct (decide (p = q)) as [<-|Hne].
  - rewrite Hg in Hh. injection Hh as <-. exists g'.
    split; [apply ptable_get_set_eq; by destruct p | done].
  - exists h. rewrite ptable_get_set_ne by done. split; [done | reflexivity].
Qed.

(** ** Every helper only grows the output *)

Lemma grows_same_data s s' :
  st_data s' = st_data s -> st_log s' = st_log s -> grows s s'.
Proof. intros Hd Hl. unfold grows. rewrite Hd, Hl. split; reflexivity. Qed.

Lemma log_grows d : steps good grows (log d).
Proof. apply steps_modify. intros s _. split; [reflexivity | by apply prefix_app_r]. Qed.

Lemma set_priority_grows p : steps good grows (set_priority p).
Proof. apply steps_modify. intros s _. by apply grows_same_data. Qed.

Lemma set_uid_grows n : steps good grows (set_uid n).
Proof. apply steps_modify. intros s _. by apply grows_same_data. Qed.

Lemma update_meta_grows f : steps good grows (update_meta f).
Proof. apply steps_modify. intros s _. by apply grows_same_data. Qed.

(** Replacing the current data group by one that grows it. *)
Lemma set_cur_group_grows s g g' :
  cur_group s = Some g -> group_grows g g' ->
  grows s (mkState (ptable_set (cur_group_key s) g' (st_data s))
             (st_metadata s) (st_priority s) (st_uid s) (st_log s)).
Proof. intros Hg Hgg. split; [by eapply data_grows_set | reflexivity]. Qed.

Lemma pushEvent_grows ev : steps good grows (pushEvent ev).
Proof.
  intros s a s' _ Hrun. unfold pushEvent, st_bind, st_get in Hrun.
  destruct (cur_group s) as [g|] eqn:Hcg; [|discriminate]. run_in Hrun.
  apply (set_cur_group_grows s g); [done|]. split; [by apply prefix_app_r | reflexivity].
Qed.

Lemma markWorkStarted_grows t ts : steps good grows (markWorkStarted t ts).
Proof.
  intros s a s' _ Hrun. unfold markWorkStarted, st_bind, st_get in Hrun.
  destruct (cur_group s) as [g|] eqn:Hcg; [|discriminate]. run_in Hrun.
  apply (set_cur_group_grows s g); [done|]. split; [reflexivity | apply measures_grow_snoc].
Qed.

(** The duration written is that of the measure the top frame addresses,
    still 0 by the invariant. *)
Lemma markWorkCompleted_grows t ts : steps good grows (markWorkCompleted t ts).
Proof.
  intros s a s' Hg Hrun. destruct Hg as [Hwf Hnm].
  unfold markWorkCompleted, st_bind at 1, st_get in Hrun.
  destruct (stack (cur_meta s)) as [|f rest] eqn:Hst; [exact (log_grows _ s a s' (conj Hwf Hnm) Hrun)|].
  case_decide; [|exact (log_grows _ s a s' (conj Hwf Hnm) Hrun)]. unfold st_bind in Hrun.
  destruct (cur_group s) as [g|] eqn:Hcg; [|run_in Hrun; by apply grows_same_data].
  destruct (measures g !! fr_index f) as [ms|] eqn:Hl.
  - assert (Hok : stack_ok (measures g) (f :: rest)).
    { rewrite <- Hst. eapply Hwf; [apply (cur_meta_get_group _ _ Hcg) | done]. }
    destruct Hok as ((m & Hm & _ & _ & _ & H0) & _). rewrite Hl in Hm. injection Hm as <-.
    run_in Hrun. apply (set_cur_group_grows s g); [done|].
    split; [reflexivity | by apply measures_grow_write].
  - run_in Hrun. split; [reflexivity | by apply prefix_app_r].
Qed.

#[export] Hint Resolve log_grows set_priority_grows set_uid_grows update_meta_grows
  pushEvent_grows markWorkStarted_grows markWorkCompleted_grows : profiler.

Lemma throwIfIncomplete_grows t : steps good grows (throwIfIncomplete t).
Proof. unfold throwIfIncomplete. steps_tac. Qed.

#[export] Hint Resolve throwIfIncomplete_grows : profiler.

Lemma handleMarker_grows k name ts : steps good grows (handleMarker k name ts).
Proof. unfold handleMarker. steps_tac. Qed.

#[export] Hint Resolve handleMarker_grows : profiler.

Lemma processEvent_grows e : steps good grows (processEvent e).
Proof. unfold processEvent. steps_tac. Qed.

#[export] Hint Resolve processEvent_grows processEvent_good : profiler.

(** C4: The loop never takes back what it has produced: from any state
    satisfying the invariant, processing any markers keeps every event,
    measure and diagnostic at its place, changes no field of a measure but
    its duration, and changes a duration only while it is still 0, so a
    completed measure is final (spec, section 3: the duration "is the only
    field mutated after creation"). *)
Theorem processEvents_only_grow (l : list marker) (s s' : pstate) :
  good s -> processEvents l s = Return (tt, s') -> grows s s'.
Proof.
  revert s. induction l as [|e l IH]; intros s Hg Hrun; cbn [processEvents] in Hrun.
  - injection Hrun as <-. reflexivity.
  - apply st_bind_Return in Hrun as ([] & s1 & H1 & H2).
    transitivity s1; [exact (processEvent_grows e s tt s1 Hg H1)|].
    apply IH; [exact (processEvent_good e s tt s1 Hg H1) | exact H2].
Qed.

(** ** Witness *)

Local Open Scope string_scope.

(** A render that starts at 1 and stops at 3: its measure is pushed with
    duration 0, then completed. *)
Definition growth_witness_markers : list marker :=
  [mkMarker "UserTiming" "--render-start" 1; mkMarker "UserTiming" "--render-stop" 3].

Definition growth_witness_state : pstate :=
  Eval vm_compute in
    match processEvents growth_witness_markers initial_state with
    | Return (_, s) => s
    | Throw _ => initial_state
    end.

Lemma processEvents_only_grow_witness :
  processEvents growth_witness_markers initial_state = Return (tt, growth_witness_state) /\
  grows initial_state growth_witness_state.
Proof.
  split; [vm_compute; reflexivity|].
  apply (processEvents_only_grow growth_witness_markers initial_state growth_witness_state).
  - exact initial_good.
  - vm_compute. reflexivity.
Defined.
