(* ===== verification/Timing.v ===== *)
(** * Durations are never negative; the output is in time order

    [markWorkCompleted] writes [stopTime - last.startTime] (line 101). The
    loop sees the markers in the order of the sort of line 33, so a stop is
    never processed before a frame with a later start time: every frame on
    a stack started no later than the marker being processed. For the same
    reason every measure and event is pushed with a timestamp no earlier
    than those pushed before it. [timed T s] states both of a state for the
    time [T] of the current marker: frames started at or before [T];
    durations at least 0; in every data group the timestamps of the
    measures and of the events non-decreasing and at most [T]. Every
    helper called with the marker's time keeps [timed T], and the sort's
    contract ([Sort.msort_sorted]) makes the times of the loop
    non-decreasing, so whatever sort implementation runs the processor
    never returns a negative duration and returns each priority's measures
    and events in time order (spec, section 3). *)

From S2P Require Import Prelude Types Markers Names Processor ProcessorInvariant.

Local Open Scope profiler_scope.

Definition durations_ok (g : data_group) : Prop :=
  Forall (fun x => (0 <= ms_duration x)%Z) (measures g).

(** A list of times sorted and not later than [T]. *)
Definition in_order (T : Z) (l : list Z) : Prop :=
  Sorted Z.le l /\ Forall (fun t => (t <= T)%Z) l.

Definition group_timed (T : Z) (g : data_group) : Prop :=
  durations_ok g /\ in_order T (map ms_timestamp (measures g)) /\
  in_order T (map event_timestamp (events g)).

(** The measures and the events of a group in time order. *)
Definition chronological (g : data_group) : Prop :=
  Sorted Z.le (map ms_timestamp (measures g)) /\ Sorted Z.le (map event_timestamp (events g)).

Definition frames_before (T : Z) (m : metadata) : Prop :=
  Forall (fun f => (fr_startTime f <= T)%Z) (stack m).

Definition timed (T : Z) (s : pstate) : Prop :=
  ptable_all (group_timed T) (st_data s) /\ ptable_all (frames_before T) (st_metadata s).

(** ** Shared facts *)

Lemma Forall_le_mono (T T' : Z) {A} (f : A -> Z) l :
  (T <= T')%Z -> Forall (fun x => (f x <= T)%Z) l -> Forall (fun x => (f x <= T')%Z) l.
Proof. intros HT Hl. refine (Forall_impl _ _ Hl). intros x. lia. Qed.

Lemma in_order_mono T T' l : (T <= T')%Z -> in_order T l -> in_order T' l.
Proof. intros HT [Hs Hl]. split; [exact Hs | exact (Forall_le_mono T T' id l HT Hl)]. Qed.

(** Pushing the time [T] keeps a list in order. *)
Lemma in_order_snoc T l : in_order T l -> in_order T (l ++ [T]).
Proof.
  intros [Hs Hl]. split.
  - induction Hs as [|a l Hs IH Hhd]; simpl; [repeat constructor|].
    inversion Hl as [|? ? Ha Hl']; subst. constructor; [exact (IH Hl')|].
    destruct Hhd as [|b l' Hab]; simpl; constructor; [exact Ha | exact Hab].
  - apply Forall_app. split; [exact Hl | constructor; [lia | constructor]].
Qed.

Lemma map_timestamp_write ms i x d :
  ms !! i = Some x -> map ms_timestamp (<[i := set_duration d x]> ms) = map ms_timestamp ms.
Proof.
  intros Hx. rewrite list_fmap_insert. cbn [ms_timestamp set_duration].
  apply list_insert_id. rewrite list_lookup_fmap, Hx. done.
Qed.

Lemma group_timed_mono T T' g : (T <= T')%Z -> group_timed T g -> group_timed T' g.
Proof. intros HT (Hd & Hm & He). split_and!; [exact Hd | by eapply in_order_mono..]. Qed.

Lemma timed_mono T T' s : (T <= T')%Z -> timed T s -> timed T' s.
Proof.
  intros HT [Hd Hm]. split; intros q x Hq.
  - exact (group_timed_mono T T' x HT (Hd q x Hq)).
  - exact (Forall_le_mono T T' fr_startTime _ HT (Hm q x Hq)).
Qed.

Lemma cur_meta_before T s : timed T s -> frames_before T (cur_meta s).
Proof. intros [_ Hm]. exact (Hm _ _ (cur_meta_get s)). Qed.

Lemma cur_group_timed T s g : timed T s -> cur_group s = Some g -> group_timed T g.
Proof. intros [Hd _] Hg. exact (Hd _ _ Hg). Qed.

Lemma initial_timed T : timed T initial_state.
Proof.
  split; apply ptable_all_const; [|constructor].
  split_and!; [constructor | split; constructor..].
Qed.

(** Split [timed] of a state whose tables were updated slot by slot. *)
Ltac timed_split :=
  split; cbn [st_data st_metadata]; repeat apply ptable_all_set.

(** ** Every helper called with the marker's time keeps [timed] *)

Section Helpers.
Context (T : Z).

Lemma log_timed d : preserves (timed T) (log d).
Proof. by apply hoare_modify. Qed.

Lemma set_priority_timed p : preserves (timed T) (set_priority p).
Proof. by apply hoare_modify. Qed.

Lemma set_uid_timed n : preserves (timed T) (set_uid n).
Proof. by apply hoare_modify. Qed.

Lemma update_meta_timed f :
  (forall m, stack (f m) = stack m) -> preserves (timed T) (update_meta f).
Proof.
  intros Hf. apply hoare_modify. intros s HT. pose proof (cur_meta_before _ _ HT).
  destruct HT as [Hd Hm]. timed_split; [exact Hd | exact Hm |].
  unfold frames_before. by rewrite Hf.
Qed.

Lemma throwIfIncomplete_timed t : preserves (timed T) (throwIfIncomplete t).
Proof. unfold throwIfIncomplete. preserves_tac. Qed.

(** An event pushed at time [T]. *)
Lemma pushEvent_timed ev : event_timestamp ev = T -> preserves (timed T) (pushEvent ev).
Proof.
  intros Hev. unfold pushEvent. apply preserves_get. intros s0 a s' HT Hrun.
  destruct (cur_group s0) as [g|] eqn:Hcg; [|discriminate].
  pose proof (cur_group_timed _ _ _ HT Hcg) as (Hg & Hms & Hes). destruct HT as [Hd Hm].
  run_in Hrun. timed_split; try done. split_and!; [exact Hg | exact Hms |].
  cbn [events]. rewrite map_app. simpl. rewrite Hev. by apply in_order_snoc.
Qed.

(** The new frame starts at [T] and its measure, stamped [T], has
    duration 0. *)
Lemma markWorkStarted_timed t : preserves (timed T) (markWorkStarted t T).
Proof.
  unfold markWorkStarted. apply preserves_get. intros s0 a s' HT Hrun.
  destruct (cur_group s0) as [g|] eqn:Hcg; [|discriminate].
  pose proof (cur_group_timed _ _ _ HT Hcg) as (Hg & Hms & Hes).
  pose proof (cur_meta_before _ _ HT) as Hb. destruct HT as [Hd Hm].
  run_in Hrun. timed_split; try done.
  - split_and!; [|cbn [measures]; rewrite map_app; by apply in_order_snoc | exact Hes].
    unfold durations_ok; simpl. apply Forall_app. split; [exact Hg | constructor; [simpl; lia | constructor]].
  - unfold frames_before; simpl. constructor; [simpl; lia | exact Hb].
Qed.

(** The duration written is [T] minus the start of a frame of the stack,
    which is at most [T]; the timestamps stay as they are. *)
Lemma markWorkCompleted_timed t : preserves (timed T) (markWorkCompleted t T).
Proof.
  unfold markWorkCompleted. apply preserves_get. intros s0 a s' HT Hrun.
  destruct (stack (cur_meta s0)) as [|f rest] eqn:Hst; [exact (log_timed _ s0 a s' HT Hrun)|].
  case_decide; [|exact (log_timed _ s0 a s' HT Hrun)].
  pose proof (cur_meta_before _ _ HT) as Hb. unfold frames_before in Hb.
  rewrite Hst in Hb. inversion Hb as [|? ? Hf Hrest].
  destruct (cur_group s0) as [g|] eqn:Hcg;
    [pose proof (cur_group_timed _ _ _ HT Hcg) as (Hg & Hms & Hes);
     destruct (measures g !! fr_index f) as [ms|] eqn:Hl|];
    destruct HT as [Hd Hm]; run_in Hrun; timed_split; try done.
  split_and!; [|cbn [measures]; by rewrite (map_timestamp_write _ _ ms) | exact Hes].
  unfold durations_ok; simpl. apply Forall_insert; [exact Hg | simpl; lia].
Qed.
End Helpers.

#[export] Hint Resolve log_timed set_priority_timed set_uid_timed update_meta_timed
  throwIfIncomplete_timed pushEvent_timed markWorkStarted_timed markWorkCompleted_timed
  : profiler.

Lemma handleMarker_timed k name ts : preserves (timed ts) (handleMarker k name ts).
Proof. unfold handleMarker. preserves_tac. Qed.

#[export] Hint Resolve handleMarker_timed : profiler.

Lemma processEvent_timed e : preserves (timed (mk_startTime e)) (processEvent e).
Proof. unfold processEvent. preserves_tac. Qed.


(** ** The loop over markers in time order *)

Lemma processEvents_timed l : forall T s s',
  StronglySorted Sort.time_le l -> Forall (fun e => (T <= mk_startTime e)%Z) l ->
  timed T s -> processEvents l s = Return (tt, s') -> exists T', timed T' s'.
Proof.
  induction l as [|e l IH]; intros T s s' Hs HT Hti Hrun; cbn [processEvents] in Hrun.
  - injection Hrun as <-. by exists T.
  - apply st_bind_Return in Hrun as ([] & s1 & H1 & H2).
    apply StronglySorted_inv in Hs as [Hs He]. inversion HT as [|? ? HTe _].
    apply (IH (mk_startTime e) s1 s'); [exact Hs | exact He | | exact H2].
    exact (processEvent_timed e s tt s1 (timed_mono _ _ _ HTe Hti) H1).
Qed.

Lemma time_le_trans : Transitive Sort.time_le.
Proof. unfold Sort.time_le. intros a b c. lia. Qed.

Lemma reportIncomplete_timed T : preserves (timed T) reportIncomplete.
Proof. apply reportIncomplete_preserves. eauto with profiler. Qed.

(** The markers the loop receives start no earlier than the first. *)
Lemma sorted_from_head e l :
  Sorted Sort.time_le (e :: l) ->
  StronglySorted Sort.time_le (e :: l) /\
  Forall (fun x => (mk_startTime e <= mk_startTime x)%Z) (e :: l).
Proof.
  intros Hs. apply Sorted_StronglySorted in Hs; [|exact time_le_trans].
  split; [exact Hs|]. constructor; [lia|]. by apply StronglySorted_inv in Hs as [_ He].
Qed.

(** The result of a whole run satisfies [group_timed] for some time. *)
Lemma processor_output_timed `{Sort.MarkerSort} (payload : list (option marker))
    (d : ptable data_group) (logs : list diagnostic) :
  reactProfilerProcessor payload = Return (Some d, logs) ->
  exists T, ptable_all (group_timed T) d.
Proof.
  intros Hrun. destruct (processor_run payload d logs Hrun) as (s1 & s & H1 & H2 & <- & _).
  pose proof (Sort.msort_sorted (Filter.filter_markers payload)) as Hs.
  destruct (Sort.msort (Filter.filter_markers payload)) as [|e l].
  - exists 0%Z. cbn in H1. injection H1 as <-.
    exact (proj1 (reportIncomplete_timed 0 initial_state tt s (initial_timed 0) H2)).
  - destruct (sorted_from_head e l Hs) as [Hss Hfa].
    destruct (processEvents_timed _ _ _ _ Hss Hfa (initial_timed _) H1) as [T HT].
    exists T. exact (proj1 (reportIncomplete_timed T s1 tt s HT H2)).
Qed.

(** C5: The processor never returns a negative duration: whatever the
    payload and whatever sort implementation runs (only its contract is
    used), every measure of every priority in the returned data has a
    duration of at least 0. The sort of line 33 is what makes this hold: a
    stop marker is processed after every start marker with a later time. *)
Theorem processor_durations_nonneg `{Sort.MarkerSort} (payload : list (option marker))
    (d : ptable data_group) (logs : list diagnostic) :
  reactProfilerProcessor payload = Return (Some d, logs) ->
  forall p g, ptable_get p d = Some g -> durations_ok g.
Proof.
  intros Hrun p g Hp. destruct (processor_output_timed payload d logs Hrun) as [T HT].
  exact (proj1 (HT p g Hp)).
Qed.

(** C6: The output is in time order (spec, section 3: insertion order "is
    processing order, which equals time order after the initial sort"):
    whatever the payload and the sort implementation, in every priority of
    the returned data the measures' timestamps and the events' timestamps
    are non-decreasing. *)
Theorem processor_output_chronological `{Sort.MarkerSort} (payload : list (option marker))
    (d : ptable data_group) (logs : list diagnostic) :
  reactProfilerProcessor payload = Return (Some d, logs) ->
  forall p g, ptable_get p d = Some g -> chronological g.
Proof.
  intros Hrun p g Hp. destruct (processor_output_timed payload d logs Hrun) as [T HT].
  destruct (HT p g Hp) as (_ & [Hm _] & [He _]). by split.
Qed.

(** ** Witness *)

Local Open Scope string_scope.

(** A render whose start comes after its stop in the payload. In array
    order its duration would be [1 - 4 = -3]; the sort processes the stop
    first (logged, nothing open) and leaves the render open with duration
    0. The two events are listed out of order too. *)
Definition durations_payload : list (option marker) :=
  [Some (mkMarker "UserTiming" "--render-start" 4); None;
   Some (mkMarker "UserTiming" "--render-stop" 1);
   Some (mkMarker "UserTiming" "--schedule-render" 5);
   Some (mkMarker "UserTiming" "--schedule-render" 3)].

Definition durations_data : ptable data_group :=
  Eval vm_compute in
    match @reactProfilerProcessor SortFacts.v8_sort durations_payload with
    | Return (Some d, _) => d
    | _ => ptable_const empty_group
    end.

Definition durations_logs : list diagnostic :=
  Eval vm_compute in
    match @reactProfilerProcessor SortFacts.v8_sort durations_payload with
    | Return (_, l) => l
    | _ => []
    end.

Lemma processor_durations_nonneg_witness :
  @reactProfilerProcessor SortFacts.v8_sort durations_payload =
    Return (Some durations_data, durations_logs) /\
  map ms_duration (measures (t_unscheduled durations_data)) = [0%Z; 0%Z] /\
  durations_ok (t_unscheduled durations_data).
Proof.
  split; [vm_compute; reflexivity|]. split; [vm_compute; reflexivity|].
  apply (@processor_durations_nonneg SortFacts.v8_sort durations_payload durations_data
           durations_logs) with (p := Unscheduled).
  - vm_compute. reflexivity.
  - reflexivity.
Defined.

Lemma processor_output_chronological_witness :
  @reactProfilerProcessor SortFacts.v8_sort durations_payload =
    Return (Some durations_data, durations_logs) /\
  map ms_timestamp (measures (t_unscheduled durations_data)) = [4%Z; 4%Z] /\
  map event_timestamp (events (t_unscheduled durations_data)) = [3%Z; 5%Z] /\
  chronological (t_unscheduled durations_data).
Proof.
  split; [vm_compute; reflexivity|]. split; [vm_compute; reflexivity|].
  split; [vm_compute; reflexivity|].
  apply (@processor_output_chronological SortFacts.v8_sort durations_payload durations_data
           durations_logs) with (p := Unscheduled).
  - vm_compute. reflexivity.
  - reflexivity.
Defined.
