(* ===== verification/Dataset.v ===== *)
(** * The returned dataset: keys and batch ids

    Two properties of what [reactProfilerProcessor] returns, each from a
    state predicate the loop keeps:
    - every measure and event stored under a key carries a [priority]
      field whose data-group key ([currentPriority || 'unscheduled']) is
      that key: the output is well-typed as a priority-partitioned
      dataset, the empty priority of a bare [--scheduler-start-] being
      stored under [unscheduled];
    - every batch id of the output is at most the number of
      [--render-start] markers of the payload, since only that branch
      advances the shared counter (lines 215-218). *)

From S2P Require Import Prelude Types Markers Names Processor ProcessorInvariant.

Local Open Scope profiler_scope.

(** ** Keys *)

Definition group_keyed (p : priority) (g : data_group) : Prop :=
  Forall (fun x => group_key (ms_priority x) = p) (measures g) /\
  Forall (fun ev => group_key (event_priority ev) = p) (events g).

Definition keyed (s : pstate) : Prop :=
  forall p g, ptable_get p (st_data s) = Some g -> group_keyed p g.

(** [keyed] with the current priority fixed. *)
Definition keyed_at (p : priority) (s : pstate) : Prop := keyed s /\ st_priority s = p.

(** Writing a group that is keyed by the current data-group key. *)
Lemma keyed_set_cur s g :
  keyed s -> group_keyed (cur_group_key s) g ->
  keyed (mkState (ptable_set (cur_group_key s) g (st_data s))
           (st_metadata s) (st_priority s) (st_uid s) (st_log s)).
Proof.
  intros Hk Hg q h. cbn [st_data]. destruct (decide (cur_group_key s = q)) as [<-|Hne].
  - destruct (cur_group_key s); try discriminate; cbn; by intros [= <-].
  - rewrite ptable_get_set_ne by done. apply Hk.
Qed.

Section At.
Context (p : priority).

Lemma modify_keyed_at f :
  (forall s, st_data (f s) = st_data s /\ st_priority (f s) = st_priority s) ->
  preserves (keyed_at p) (st_modify (E:=js_error) f).
Proof.
  intros Hf. apply hoare_modify. intros s [Hk Hp]. destruct (Hf s) as [Hd Hq].
  split; [|by rewrite Hq]. intros q g. rewrite Hd. apply Hk.
Qed.

Lemma log_keyed_at d : preserves (keyed_at p) (log d).
Proof. by apply modify_keyed_at. Qed.

Lemma update_meta_keyed_at f : preserves (keyed_at p) (update_meta f).
Proof. by apply modify_keyed_at. Qed.

Lemma set_uid_keyed_at n : preserves (keyed_at p) (set_uid n).
Proof. by apply modify_keyed_at. Qed.

#[local] Hint Resolve log_keyed_at update_meta_keyed_at set_uid_keyed_at : profiler.

Lemma throwIfIncomplete_keyed_at t : preserves (keyed_at p) (throwIfIncomplete t).
Proof. unfold throwIfIncomplete. preserves_tac. Qed.

(** An event tagged with the current priority. *)
Lemma pushEvent_keyed_at ev :
  event_priority ev = p -> preserves (keyed_at p) (pushEvent ev).
Proof.
  intros Hev. unfold pushEvent. apply preserves_get. intros s0 a s' [Hk Hp] Hrun.
  destruct (cur_group s0) as [g|] eqn:Hcg; [|discriminate].
  destruct (Hk _ _ Hcg) as [Hm He]. run_in Hrun. split; [|done].
  apply keyed_set_cur; [done|]. split; [exact Hm|]. cbn [events].
  apply Forall_app. split; [exact He|]. constructor; [|constructor].
  rewrite Hev, <- Hp. reflexivity.
Qed.

Lemma markWorkStarted_keyed_at t ts : preserves (keyed_at p) (markWorkStarted t ts).
Proof.
  unfold markWorkStarted. apply preserves_get. intros s0 a s' [Hk Hp] Hrun.
  destruct (cur_group s0) as [g|] eqn:Hcg; [|discriminate].
  destruct (Hk _ _ Hcg) as [Hm He]. run_in Hrun. split; [|done].
  apply (keyed_set_cur (mkState _ _ _ _ _)); [intros q h; apply Hk|].
  split; [|exact He]. cbn [measures]. apply Forall_app.
  split; [exact Hm|]. by repeat constructor.
Qed.

Lemma markWorkCompleted_keyed_at t ts : preserves (keyed_at p) (markWorkCompleted t ts).
Proof.
  unfold markWorkCompleted. apply preserves_get. intros s0 a s' [Hk Hp] Hrun.
  destruct (stack (cur_meta s0)) as [|f rest]; [exact (log_keyed_at _ s0 a s' (conj Hk Hp) Hrun)|].
  case_decide; [|exact (log_keyed_at _ s0 a s' (conj Hk Hp) Hrun)].
  destruct (cur_group s0) as [g|] eqn:Hcg;
    [destruct (measures g !! fr_index f) as [ms|] eqn:Hl|]; run_in Hrun;
    try (split; [intros q h; apply Hk | done]).
  destruct (Hk _ _ Hcg) as [Hm He]. split; [|done].
  apply (keyed_set_cur (mkState _ _ _ _ _)); [intros q h; apply Hk|].
  split; [|exact He]. cbn [measures]. apply Forall_insert; [exact Hm|].
  exact (Forall_lookup_1 _ _ _ _ Hm Hl).
Qed.
End At.

#[export] Hint Resolve log_keyed_at update_meta_keyed_at set_uid_keyed_at
  throwIfIncomplete_keyed_at pushEvent_keyed_at markWorkStarted_keyed_at
  markWorkCompleted_keyed_at : profiler.

Lemma modify_keyed f :
  (forall s, st_data (f s) = st_data s) -> preserves keyed (st_modify (E:=js_error) f).
Proof. intros Hf. apply hoare_modify. intros s Hk q g. rewrite Hf. apply Hk. Qed.

Lemma log_keyed d : preserves keyed (log d).
Proof. by apply modify_keyed. Qed.

Lemma set_priority_keyed q : preserves keyed (set_priority q).
Proof. by apply modify_keyed. Qed.

#[export] Hint Resolve log_keyed set_priority_keyed : profiler.

(** The events a branch pushes are tagged with the priority it read. *)
Lemma handleMarker_keyed k name ts : preserves keyed (handleMarker k name ts).
Proof.
  unfold handleMarker. apply preserves_get. intros s0 a s' Hk Hrun.
  destruct k; try (eapply preserves_run; [|exact Hk|exact Hrun]; preserves_tac; fail);
    refine (proj1 (preserves_run (keyed_at (st_priority s0)) _ s0 a s' _ (conj Hk eq_refl) Hrun));
    preserves_tac.
Qed.

Lemma processEvent_keyed e : preserves keyed (processEvent e).
Proof. unfold processEvent. preserves_tac. apply handleMarker_keyed. Qed.

Lemma reportIncomplete_keyed : preserves keyed reportIncomplete.
Proof. apply reportIncomplete_preserves. eauto with profiler. Qed.

Lemma initial_keyed : keyed initial_state.
Proof. intros [] g; cbn; try discriminate; intros [= <-]; split; constructor. Qed.

(** ** Batch ids *)

(** Every batch id of a metadata or a measure is below the counter, or
    is the default 0 while nothing has been minted. *)
Definition ids_ok (s : pstate) : Prop :=
  ptable_all (fun m => batchUID m < Nat.max 1 (st_uid s)) (st_metadata s) /\
  ptable_all (fun g => Forall (fun x => ms_batchUID x < Nat.max 1 (st_uid s)) (measures g))
    (st_data s).

(** [ids_ok] with the counter fixed. *)
Definition ids_at (u : nat) (s : pstate) : Prop := ids_ok s /\ st_uid s = u.

Lemma cur_meta_id s : ids_ok s -> batchUID (cur_meta s) < Nat.max 1 (st_uid s).
Proof. intros [Hm _]. exact (Hm _ _ (cur_meta_get s)). Qed.

(** Split [ids_ok] of a state whose tables were updated slot by slot. *)
Ltac ids_split :=
  split; [split|]; cbn [st_data st_metadata st_uid]; try apply ptable_all_set.

Section Ids.
Context (u : nat).

Lemma log_ids d : preserves (ids_at u) (log d).
Proof. by apply hoare_modify. Qed.

Lemma set_priority_ids q : preserves (ids_at u) (set_priority q).
Proof. by apply hoare_modify. Qed.

Lemma update_meta_ids f :
  (forall m, batchUID (f m) = batchUID m) -> preserves (ids_at u) (update_meta f).
Proof.
  intros Hf. apply hoare_modify. intros s [[Hm Hd] Hu]. pose proof (cur_meta_id s (conj Hm Hd)).
  ids_split; [exact Hm | by rewrite Hf | exact Hd | exact Hu].
Qed.

Lemma throwIfIncomplete_ids t : preserves (ids_at u) (throwIfIncomplete t).
Proof. unfold throwIfIncomplete. preserves_tac. Qed.

Lemma pushEvent_ids ev : preserves (ids_at u) (pushEvent ev).
Proof.
  unfold pushEvent. apply preserves_get. intros s0 a s' [[Hm Hd] Hu] Hrun.
  destruct (cur_group s0) as [g|] eqn:Hcg; [|discriminate]. run_in Hrun.
  ids_split; [exact Hm | exact Hd | exact (Hd _ _ Hcg) | exact Hu].
Qed.

(** The new measure takes the context's batch id. *)
Lemma markWorkStarted_ids t ts : preserves (ids_at u) (markWorkStarted t ts).
Proof.
  unfold markWorkStarted. apply preserves_get. intros s0 a s' [[Hm Hd] Hu] Hrun.
  destruct (cur_group s0) as [g|] eqn:Hcg; [|discriminate].
  pose proof (cur_meta_id s0 (conj Hm Hd)). run_in Hrun.
  ids_split; [exact Hm | done | exact Hd | | exact Hu].
  cbn [measures]. apply Forall_app. split; [exact (Hd _ _ Hcg) | by repeat constructor].
Qed.

Lemma markWorkCompleted_ids t ts : preserves (ids_at u) (markWorkCompleted t ts).
Proof.
  unfold markWorkCompleted. apply preserves_get. intros s0 a s' [[Hm Hd] Hu] Hrun.
  pose proof (cur_meta_id s0 (conj Hm Hd)).
  destruct (stack (cur_meta s0)) as [|f rest]; [exact (log_ids _ s0 a s' (conj (conj Hm Hd) Hu) Hrun)|].
  case_decide; [|exact (log_ids _ s0 a s' (conj (conj Hm Hd) Hu) Hrun)].
  destruct (cur_group s0) as [g|] eqn:Hcg;
    [destruct (measures g !! fr_index f) as [ms|] eqn:Hl|]; run_in Hrun;
    ids_split; try done.
  pose proof (Hd _ _ Hcg) as Hg. cbn [measures]. apply Forall_insert; [exact Hg|].
  exact (Forall_lookup_1 _ _ _ _ Hg Hl).
Qed.
End Ids.

#[export] Hint Resolve log_ids set_priority_ids update_meta_ids throwIfIncomplete_ids
  pushEvent_ids markWorkStarted_ids markWorkCompleted_ids : profiler.

(** Minting: the context takes the counter's value, and the counter
    advances. *)
Lemma mint_ids u :
  hoare (ids_at u)
    (update_meta (fun m => mkMeta false u (stack m)) ;; set_uid (S u))
    (fun _ => ids_at (S u)).
Proof.
  intros s a s' [[Hm Hd] Hu] Hrun. run_in Hrun.
  ids_split; [| cbn; lia | | done].
  - intros q m Hq. specialize (Hm q m Hq). simpl in Hm. lia.
  - intros q g Hq. refine (Forall_impl _ _ (Hd q g Hq)). intros x. lia.
Qed.

(** Whether a marker is a relevant [--render-start]. *)
Definition starts_render (e : marker) : bool :=
  Filter.is_relevant e && match classify_name (mk_name e) with KRenderStart => true | _ => false end.

Definition render_starts (l : list marker) : nat := length (List.filter starts_render l).

Lemma handleMarker_ids u k name ts :
  hoare (ids_at u) (handleMarker k name ts)
    (fun _ s => ids_ok s /\ st_uid s <= u + match k with KRenderStart => 1 | _ => 0 end).
Proof.
  unfold handleMarker. apply hoare_get. intros s0.
  destruct k; try (apply (preserves_hoare (ids_at u));
    [intros s [Hs _]; exact Hs | intros _ s [Hs Hu]; split; [exact Hs | lia] | preserves_tac]; fail).
  intros s a s' [[Hs Hu] ->] Hrun. apply st_bind_Return in Hrun as ([] & s1 & H1 & H2).
  assert (exists v, ids_at v s1 /\ v <= S u) as (v & Hv & Hle).
  { destruct (nextRenderShouldGenerateNewBatchID (cur_meta s0)).
    - exists (S u). split; [|lia]. rewrite Hu in H1. exact (mint_ids u s0 tt s1 (conj Hs Hu) H1).
    - injection H1 as <-. exists u. split; [split|]; [done | done | lia]. }
  assert (Hrest : preserves (ids_at v) (throwIfIncomplete Render ;;
      s'0 <- st_get ;;
      (if decide (getLastType (cur_meta s'0) = Some RenderIdle) then st_ret tt
       else markWorkStarted RenderIdle ts) ;;
      markWorkStarted Render ts)) by preserves_tac.
  destruct (Hrest s1 a s' Hv H2) as [Hs' Hu']. split; [exact Hs' | lia].
Qed.

Lemma processEvent_ids u e :
  hoare (ids_at u) (processEvent e)
    (fun _ s => ids_ok s /\ st_uid s <= u + if starts_render e then 1 else 0).
Proof.
  unfold processEvent, starts_render. destruct (Filter.is_relevant e); cbn [andb].
  - apply hoare_get. intros s0. apply hoare_bind with (Q := fun _ => ids_at u).
    + apply (preserves_hoare (ids_at u)); [by intros s [Hs _] | done | preserves_tac].
    + intros _. eapply hoare_post; [|apply handleMarker_ids].
      intros _ s [Hs Hu]. split; [exact Hs|]. by destruct (classify_name (mk_name e)).
  - apply hoare_ret. intros s [Hs Hu]. split; [exact Hs | lia].
Qed.

Lemma processEvents_ids l : forall u s s',
  ids_at u s -> processEvents l s = Return (tt, s') -> ids_ok s' /\ st_uid s' <= u + render_starts l.
Proof.
  unfold render_starts.
  induction l as [|e l IH]; intros u s s' Hs Hrun; cbn [processEvents List.filter] in *.
  - injection Hrun as <-. destruct Hs as [Hs Hu]. split; [exact Hs | simpl; lia].
  - apply st_bind_Return in Hrun as ([] & s1 & H1 & H2).
    destruct (processEvent_ids u e s tt s1 Hs H1) as [Hs1 Hu1].
    destruct (IH (st_uid s1) s1 s' (conj Hs1 eq_refl) H2) as [Hs' Hu'].
    split; [exact Hs'|]. destruct (starts_render e); simpl; lia.
Qed.


Lemma render_starts_perm l l' : l ≡ₚ l' -> render_starts l = render_starts l'.
Proof.
  unfold render_starts. induction 1; cbn [List.filter]; try lia.
  - by destruct (starts_render x); simpl; rewrite IHPermutation.
  - by destruct (starts_render x), (starts_render y).
Qed.

Lemma initial_ids : ids_at 0 initial_state.
Proof. split; [split; apply ptable_all_const; [cbn; lia | constructor] | done]. Qed.

(** ** Results *)

(** C7: The returned dataset is well-typed as a priority partition:
    whatever the payload and the sort implementation, every measure and
    every event stored under a key [p] carries a [priority] field whose
    data-group key ([priority || 'unscheduled']) is [p]. The field and
    the key differ only for the empty priority of a bare
    [--scheduler-start-], stored under [unscheduled]. *)
Theorem processor_output_keyed `{Sort.MarkerSort} (payload : list (option marker))
    (d : ptable data_group) (logs : list diagnostic) :
  reactProfilerProcessor payload = Return (Some d, logs) ->
  forall p g, ptable_get p d = Some g -> group_keyed p g.
Proof.
  intros Hrun p g Hp.
  destruct (processor_run_keeps keyed payload d logs initial_keyed processEvent_keyed
              reportIncomplete_keyed Hrun) as (s & Hk & <- & _).
  exact (Hk p g Hp).
Qed.

(** A returning pass ends in a state whose ids are below its counter,
    and the counter is at most the number of [--render-start] markers. *)
Lemma processor_run_ids `{Sort.MarkerSort} (payload : list (option marker))
    (d : ptable data_group) (logs : list diagnostic) :
  reactProfilerProcessor payload = Return (Some d, logs) ->
  exists s, ids_ok s /\ st_uid s <= render_starts (Filter.filter_markers payload) /\ st_data s = d.
Proof.
  intros Hrun. destruct (processor_run payload d logs Hrun) as (s1 & s & H1 & H2 & <- & _).
  rewrite <- (render_starts_perm _ _ (Sort.msort_perm (Filter.filter_markers payload))).
  destruct (processEvents_ids _ 0 initial_state s1 initial_ids H1) as [Hs1 Hu1].
  assert (Hr : preserves (ids_at (st_uid s1)) reportIncomplete).
  { apply reportIncomplete_preserves. eauto with profiler. }
  destruct (Hr s1 tt s (conj Hs1 eq_refl) H2) as [Hs Hu]. exists s. split_and!; [done | lia | done].
Qed.

(** C8: Batch ids are bounded by the render passes: whatever the payload
    and the sort implementation, every measure of the returned dataset
    has a batch id below the number of [--render-start] markers of the
    payload (or 0 when there is none): only that branch advances the
    shared counter, and it hands out the counter's value before
    incrementing it ([uidCounter++]). *)
Theorem processor_batch_ids_bounded `{Sort.MarkerSort} (payload : list (option marker))
    (d : ptable data_group) (logs : list diagnostic) :
  reactProfilerProcessor payload = Return (Some d, logs) ->
  forall p g, ptable_get p d = Some g ->
  Forall (fun x => ms_batchUID x < Nat.max 1 (render_starts (Filter.filter_markers payload)))
    (measures g).
Proof.
  intros Hrun p g Hp. destruct (processor_run_ids payload d logs Hrun) as (s & [_ Hd] & Hu & <-).
  refine (Forall_impl _ _ (Hd p g Hp)). intros x. simpl. lia.
Qed.

(** ** Witnesses *)

Local Open Scope string_scope.

(** A render inside the scope of the empty priority. *)
Definition keyed_payload : list (option marker) :=
  [Some (mkMarker "UserTiming" "--scheduler-start-" 1);
   Some (mkMarker "UserTiming" "--render-start" 2);
   Some (mkMarker "UserTiming" "--schedule-render" 3);
   Some (mkMarker "UserTiming" "--render-stop" 4)].

Definition keyed_result :=
  Eval vm_compute in @reactProfilerProcessor SortFacts.v8_sort keyed_payload.

Definition keyed_data : ptable data_group :=
  Eval vm_compute in match keyed_result with Return (Some d, _) => d | _ => ptable_const empty_group end.

Definition keyed_logs : list diagnostic :=
  Eval vm_compute in match keyed_result with Return (_, l) => l | _ => [] end.

Lemma processor_output_keyed_witness :
  @reactProfilerProcessor SortFacts.v8_sort keyed_payload = Return (Some keyed_data, keyed_logs) /\
  map ms_priority (measures (t_unscheduled keyed_data)) = [OtherPriority ""; OtherPriority ""] /\
  group_keyed Unscheduled (t_unscheduled keyed_data).
Proof.
  split; [vm_compute; reflexivity|]. split; [vm_compute; reflexivity|].
  apply (@processor_output_keyed SortFacts.v8_sort keyed_payload keyed_data keyed_logs)
    with (p := Unscheduled).
  - vm_compute. reflexivity.
  - reflexivity.
Defined.

(** Two render passes, the first cancelled. *)
Definition ids_payload : list (option marker) :=
  [Some (mkMarker "UserTiming" "--render-start" 1);
   Some (mkMarker "UserTiming" "--render-cancel" 2);
   Some (mkMarker "UserTiming" "--render-start" 3);
   Some (mkMarker "UserTiming" "--render-stop" 4);
   Some (mkMarker "UserTiming" "--commit-start" 5);
   Some (mkMarker "UserTiming" "--commit-stop" 6)].

Definition ids_result :=
  Eval vm_compute in @reactProfilerProcessor SortFacts.v8_sort ids_payload.

Definition ids_data : ptable data_group :=
  Eval vm_compute in match ids_result with Return (Some d, _) => d | _ => ptable_const empty_group end.

Definition ids_logs : list diagnostic :=
  Eval vm_compute in match ids_result with Return (_, l) => l | _ => [] end.

Lemma processor_batch_ids_bounded_witness :
  @reactProfilerProcessor SortFacts.v8_sort ids_payload = Return (Some ids_data, ids_logs) /\
  render_starts (Filter.filter_markers ids_payload) = 2 /\
  map ms_batchUID (measures (t_unscheduled ids_data)) = [0; 0; 1; 1; 1] /\
  Forall (fun x => ms_batchUID x < Nat.max 1 (render_starts (Filter.filter_markers ids_payload)))
    (measures (t_unscheduled ids_data)).
Proof.
  split; [vm_compute; reflexivity|]. split; [vm_compute; reflexivity|].
  split; [vm_compute; reflexivity|].
  apply (@processor_batch_ids_bounded SortFacts.v8_sort ids_payload ids_data ids_logs)
    with (p := Unscheduled).
  - vm_compute. reflexivity.
  - reflexivity.
Defined.
