(* ===== verification/Errors.v ===== *)
(** * The fatal errors of the processor

    The spec (section 7) makes exactly one malformation fatal: starting a
    work type while the same type is open. In the code two things throw:
    the [Error] of [throwIfIncomplete], always about a type started on top
    of itself, and the [TypeError] of reading [.measures] or [.events] of
    the [undefined] data group of a priority that is a non-empty string
    other than the four keys (the empty string falls back to
    [unscheduled]). This file shows that nothing else throws, and
    that with scheduler markers naming known priorities only the first
    kind remains. *)

From S2P Require Import Prelude Types Markers Names Processor.

Local Open Scope profiler_scope.

(** What may be thrown while the current priority is [p]. *)
Definition fatal_ok (p : priority) (e : js_error) : Prop :=
  match e with
  | StartedBeforeCompleted t last => t = last
  | TypeErrorUndefinedGroup => known_priority (group_key p) = false
  end.

Definition at_priority (p : priority) (s : pstate) : Prop := st_priority s = p.

Definition known_state (s : pstate) : Prop := known_priority (st_priority s) = true.

(** A [--scheduler-start-] marker whose suffix is a key of the tables;
    every other marker. *)
Definition names_known_priority (m : marker) : bool :=
  match classify_name (mk_name m) with
  | KSchedulerStart q => known_priority (priority_of_string q)
  | _ => true
  end.

(** ** Only [set_priority] changes the priority *)

Section Priority.
Context (p : priority).

Lemma modify_at_priority f :
  (forall s, st_priority (f s) = st_priority s) ->
  preserves (at_priority p) (st_modify (E:=js_error) f).
Proof. intros Hf. apply hoare_modify. intros s Hs. unfold at_priority. by rewrite Hf. Qed.

Lemma log_at_priority d : preserves (at_priority p) (log d).
Proof. by apply modify_at_priority. Qed.

Lemma update_meta_at_priority f : preserves (at_priority p) (update_meta f).
Proof. by apply modify_at_priority. Qed.

Lemma set_uid_at_priority n : preserves (at_priority p) (set_uid n).
Proof. by apply modify_at_priority. Qed.

Lemma set_cur_group_at_priority g : preserves (at_priority p) (set_cur_group g).
Proof. by apply modify_at_priority. Qed.

#[local] Hint Resolve log_at_priority update_meta_at_priority set_uid_at_priority
  set_cur_group_at_priority : profiler.

Lemma markWorkStarted_at_priority t ts : preserves (at_priority p) (markWorkStarted t ts).
Proof. unfold markWorkStarted. preserves_tac. Qed.

Lemma markWorkCompleted_at_priority t ts : preserves (at_priority p) (markWorkCompleted t ts).
Proof. unfold markWorkCompleted. preserves_tac. Qed.

Lemma throwIfIncomplete_at_priority t : preserves (at_priority p) (throwIfIncomplete t).
Proof. unfold throwIfIncomplete. preserves_tac. Qed.

Lemma pushEvent_at_priority ev : preserves (at_priority p) (pushEvent ev).
Proof. unfold pushEvent. preserves_tac. Qed.
End Priority.

#[export] Hint Resolve log_at_priority update_meta_at_priority set_uid_at_priority
  set_cur_group_at_priority markWorkStarted_at_priority markWorkCompleted_at_priority
  throwIfIncomplete_at_priority pushEvent_at_priority : profiler.


(** ** What each helper throws *)

Section Throws.
Context (p : priority).

Lemma throwIfIncomplete_throws t : throws_only (at_priority p) (fatal_ok p) (throwIfIncomplete t).
Proof.
  unfold throwIfIncomplete. throws_tac. apply throws_only_throw. cbn. congruence.
Qed.

Lemma markWorkStarted_throws t ts : throws_only (at_priority p) (fatal_ok p) (markWorkStarted t ts).
Proof.
  unfold markWorkStarted. apply throws_only_get. intros s0 H0.
  destruct (cur_group s0) eqn:Hg; [throws_tac|].
  apply throws_only_throw. cbn. rewrite <- H0. by apply cur_group_None.
Qed.

Lemma pushEvent_throws ev : throws_only (at_priority p) (fatal_ok p) (pushEvent ev).
Proof.
  unfold pushEvent. apply throws_only_get. intros s0 H0.
  destruct (cur_group s0) eqn:Hg; [throws_tac|].
  apply throws_only_throw. cbn. rewrite <- H0. by apply cur_group_None.
Qed.

Lemma markWorkCompleted_throws t ts : throws_only (at_priority p) (fatal_ok p) (markWorkCompleted t ts).
Proof. unfold markWorkCompleted. throws_tac. Qed.
End Throws.

#[export] Hint Resolve throwIfIncomplete_throws markWorkStarted_throws pushEvent_throws
  markWorkCompleted_throws : profiler.

Lemma handleMarker_throws p k name ts :
  throws_only (at_priority p) (fatal_ok p) (handleMarker k name ts).
Proof. unfold handleMarker. throws_tac. Qed.

#[export] Hint Resolve handleMarker_throws : profiler.

Lemma processEvent_throws p e : throws_only (at_priority p) (fatal_ok p) (processEvent e).
Proof. unfold processEvent. throws_tac. Qed.

(** ** Known priorities stay known *)

Lemma preserves_known {A} (m : PM A) :
  (forall p, preserves (at_priority p) m) -> preserves known_state m.
Proof.
  intros Hm s a s' Hk Hrun. unfold known_state.
  by rewrite (Hm (st_priority s) s a s' eq_refl Hrun).
Qed.

Lemma set_priority_known q : known_priority q = true -> preserves known_state (set_priority q).
Proof. intros Hq. by apply hoare_modify. Qed.

#[export] Hint Extern 2 (preserves known_state _) =>
  apply preserves_known; intro; eauto with profiler : profiler.

(** The suffix a [--scheduler-start-] branch stores is a key. *)
Definition kind_ok (k : marker_kind) : Prop :=
  match k with
  | KSchedulerStart q => known_priority (priority_of_string q) = true
  | _ => True
  end.

Lemma handleMarker_known k name ts : kind_ok k -> preserves known_state (handleMarker k name ts).
Proof.
  intros Hk. unfold handleMarker. apply preserves_get_any. intros s0 _.
  destruct k; cbn in Hk; preserves_tac; by apply set_priority_known.
Qed.

Lemma processEvent_known e :
  names_known_priority e = true -> preserves known_state (processEvent e).
Proof.
  intros He. unfold processEvent. preserves_tac. apply handleMarker_known.
  unfold names_known_priority in He. by destruct (classify_name (mk_name e)).
Qed.

(** The final report only logs. *)
Lemma logIncomplete_never_throws es : throws_only (fun _ => True) (fun _ => False) (logIncomplete es).
Proof.
  induction es as [|[p m] es IH]; cbn [logIncomplete]; [apply throws_only_ret|].
  apply throws_only_bind; [|destruct (stack m); eauto with profiler | done].
  destruct (stack m); [apply preserves_ret | by apply hoare_modify].
Qed.

Lemma processEvents_fatal l s err :
  known_state s -> forallb names_known_priority l = true ->
  processEvents l s = Throw err -> exists t, err = StartedBeforeCompleted t t.
Proof.
  revert s. induction l as [|e l IH]; intros s Hk Hl; [discriminate|].
  apply andb_true_iff in Hl as [He Hl]. cbn [processEvents]. unfold st_bind.
  destruct (processEvent e s) as [[[] s1]|err'] eqn:E1.
  - apply IH; [|done]. exact (processEvent_known e He s tt s1 Hk E1).
  - intros [= <-]. pose proof (processEvent_throws (st_priority s) e s err' eq_refl E1) as Hf.
    destruct err' as [t last|]; cbn in Hf; [by exists t; subst|].
    unfold known_state in Hk. rewrite group_key_known in Hf by exact Hk. congruence.
Qed.

Lemma reportIncomplete_never_throws s err : reportIncomplete s <> Throw err.
Proof.
  intros Hr. unfold reportIncomplete, st_bind, st_get in Hr.
  exact (logIncomplete_never_throws _ s err I Hr).
Qed.

(** C12: The only fatal error the spec allows is the only one left once
    the scheduler markers name known priorities: if every
    [--scheduler-start-] marker of the payload names one of the four keys,
    whatever sort runs, the processor throws at most the [Error] of a work
    type started on top of an open frame of the same type; the [TypeError]
    of an undefined data group cannot occur. *)
Theorem processor_fatal_only_reentrant `{Sort.MarkerSort} (payload : list (option marker))
    (err : js_error) :
  forallb names_known_priority (Filter.filter_markers payload) = true ->
  reactProfilerProcessor payload = Throw err ->
  exists t, err = StartedBeforeCompleted t t.
Proof.
  intros Hl. unfold reactProfilerProcessor.
  assert (Hs : forallb names_known_priority (Sort.msort (Filter.filter_markers payload)) = true).
  { apply forallb_forall. intros x Hx. apply (proj1 (forallb_forall _ _) Hl).
    exact (Permutation_in _ (Sort.msort_perm _) Hx). }
  destruct (Sort.msort (Filter.filter_markers payload)) as [|m ms]; [discriminate|].
  unfold st_bind. destruct (processEvents (m :: ms) initial_state) as [[[] s]|e] eqn:E1.
  - destruct (reportIncomplete s) as [[[] s']|e] eqn:E2; [discriminate|].
    by apply reportIncomplete_never_throws in E2.
  - intros [= <-]. apply (processEvents_fatal (m :: ms) initial_state); [reflexivity | exact Hs | exact E1].
Qed.

(** ** Witness *)

Local Open Scope string_scope.

(** Two render starts without a stop between them. *)
Definition reentrant_payload : list (option marker) :=
  [Some (mkMarker "UserTiming" "--render-start" 1); Some (mkMarker "UserTiming" "--render-start" 2)].

Lemma processor_fatal_only_reentrant_witness :
  @reactProfilerProcessor SortFacts.v8_sort reentrant_payload =
    Throw (StartedBeforeCompleted Render Render) /\
  exists t, StartedBeforeCompleted Render Render = StartedBeforeCompleted t t.
Proof.
  split; [vm_compute; reflexivity|].
  apply (@processor_fatal_only_reentrant SortFacts.v8_sort reentrant_payload).
  - vm_compute. reflexivity.
  - vm_compute. reflexivity.
Defined.
