(* ===== verification/ProcessorFacts.v ===== *)
(** * Functional behaviour of the processor's handlers

    What each branch of [reactProfilerProcessor] does to the state: a
    mismatched completion, the guards of the scheduler markers, the fatal
    re-entrant start and what it does not catch, the crash on an unknown
    priority, and the cascading-update test. *)

From S2P Require Import Prelude Types Markers Names Processor ProcessorInvariant.
From Stdlib Require Import Ascii.

Local Open Scope string_scope.
Local Open Scope profiler_scope.

(** A [UserTiming] marker. *)
Definition user_timing (name : string) (t : Z) : marker := mkMarker "UserTiming" name t.

(** The state after [log d]. *)
Definition with_log (s : pstate) (d : diagnostic) : pstate :=
  mkState (st_data s) (st_metadata s) (st_priority s) (st_uid s) (st_log s ++ [d]).

(** ** Completing a frame *)

(** C14: On a type mismatch [markWorkCompleted] only logs: the stack is not
    popped and no duration is written (the spec says the popped frame is
    completed anyway). *)
Theorem markWorkCompleted_mismatch_no_pop (t : work_type) (stopTime : Z) (s : pstate)
    (f : frame) (rest : list frame) :
  stack (cur_meta s) = f :: rest -> fr_type f <> t ->
  markWorkCompleted t stopTime s = Return (tt, with_log s (DCompletedBefore t (fr_type f))).
Proof.
  intros Hst Hne. unfold markWorkCompleted, st_bind, st_get. rewrite Hst.
  by rewrite decide_False.
Qed.

(** ** Unfolding one marker *)

(** The state after the test of [currentProfilerDataGroup] (line 187). *)
Definition pre_event (s : pstate) : pstate :=
  match cur_group s with
  | None => with_log s (DUnexpectedPriority (st_priority s))
  | Some _ => s
  end.

Lemma processEvent_unfold e s :
  Filter.is_relevant e = true ->
  processEvent e s =
  handleMarker (classify_name (mk_name e)) (mk_name e) (mk_startTime e) (pre_event s).
Proof.
  intros Hr. unfold processEvent. rewrite Hr. unfold st_bind, st_get, pre_event.
  by destruct (cur_group s).
Qed.

Lemma pre_event_Some s g : cur_group s = Some g -> pre_event s = s.
Proof. unfold pre_event. by intros ->. Qed.

Lemma cur_group_Some s :
  known_priority (st_priority s) = true -> exists g, cur_group s = Some g.
Proof.
  intros Hk. unfold cur_group, cur_group_key. rewrite group_key_known by done.
  destruct (st_priority s); simpl; eauto; discriminate.
Qed.

Lemma pre_event_known s :
  known_priority (st_priority s) = true -> pre_event s = s.
Proof. intros Hk. destruct (cur_group_Some s Hk) as [g Hg]. exact (pre_event_Some s g Hg). Qed.

Lemma cur_meta_pre_event s : cur_meta (pre_event s) = cur_meta s.
Proof. unfold pre_event. by destruct (cur_group s). Qed.

Lemma cur_group_pre_event s : cur_group (pre_event s) = cur_group s.
Proof. unfold pre_event. by destruct (cur_group s) eqn:E. Qed.

(** The batch-id block of the [--render-start] branch (lines 215-218). *)
Definition mint (s : pstate) : pstate :=
  if nextRenderShouldGenerateNewBatchID (cur_meta s) then
    mkState (st_data s)
      (ptable_set (cur_meta_key s) (mkMeta false (st_uid s) (stack (cur_meta s)))
         (st_metadata s))
      (st_priority s) (S (st_uid s)) (st_log s)
  else s.

Lemma handleMarker_render_start name ts s :
  handleMarker KRenderStart name ts s =
  (throwIfIncomplete Render ;;
   s' <- st_get ;;
   (if decide (getLastType (cur_meta s') = Some RenderIdle) then st_ret tt
    else markWorkStarted RenderIdle ts) ;;
   markWorkStarted Render ts) (mint s).
Proof.
  unfold handleMarker, mint, st_bind, st_get.
  by destruct (nextRenderShouldGenerateNewBatchID (cur_meta s)).
Qed.

Lemma cur_meta_mint s : stack (cur_meta (mint s)) = stack (cur_meta s).
Proof.
  unfold mint. destruct (nextRenderShouldGenerateNewBatchID _); [|done].
  unfold cur_meta, cur_meta_key. by destruct (st_priority s).
Qed.

Lemma st_priority_mint s : st_priority (mint s) = st_priority s.
Proof. unfold mint. by destruct (nextRenderShouldGenerateNewBatchID _). Qed.

Lemma markWorkStarted_returns t ts s :
  known_priority (st_priority s) = true ->
  exists s', markWorkStarted t ts s = Return (tt, s') /\ st_priority s' = st_priority s.
Proof.
  intros Hk. destruct (cur_group_Some s Hk) as [g Hg].
  unfold markWorkStarted, st_bind, st_get. rewrite Hg. by eexists.
Qed.

Lemma classify_render_start : classify_name "--render-start" = KRenderStart.
Proof. reflexivity. Qed.

Lemma classify_scheduler_start q :
  classify_name ("--scheduler-start-" +:+ q) = KSchedulerStart q.
Proof. unfold classify_name. by rewrite js_startsWith_app. Qed.

(** ** The fatal start and what it does not catch *)

(** C10: A [--render-start] while the top frame of the current context is
    an open [render] aborts the whole pass with the [Error] of
    [throwIfIncomplete], whatever the batch state and priority. *)
Theorem render_start_rejects_open_render (s : pstate) (ts : Z) (f : frame)
    (rest : list frame) :
  stack (cur_meta s) = f :: rest -> fr_type f = Render ->
  processEvent (user_timing "--render-start" ts) s =
  Throw (StartedBeforeCompleted Render Render).
Proof.
  intros Hst Ht. rewrite processEvent_unfold by reflexivity. simpl mk_name.
  rewrite classify_render_start, handleMarker_render_start.
  unfold throwIfIncomplete, st_bind at 1 2, st_get.
  rewrite cur_meta_mint, cur_meta_pre_event, Hst, decide_True by done.
  by rewrite Ht.
Qed.

(** C15: [throwIfIncomplete] examines only the top frame: a [--render-start]
    in a context whose top frame is not a [render] returns normally even
    when a [render] frame is open further down (the spec says starting a
    work type already open in the context aborts the pass). *)
Theorem render_start_misses_buried_render (s : pstate) (ts : Z) (f : frame)
    (rest : list frame) :
  known_priority (st_priority s) = true ->
  stack (cur_meta s) = f :: rest -> fr_type f <> Render ->
  Exists (fun f' => fr_type f' = Render) rest ->
  exists s', processEvent (user_timing "--render-start" ts) s = Return (tt, s').
Proof.
  intros Hk Hst Ht _. rewrite processEvent_unfold by reflexivity. simpl mk_name.
  simpl mk_startTime. rewrite classify_render_start, handleMarker_render_start, pre_event_known by done.
  unfold throwIfIncomplete, st_bind at 1 2 3, st_get.
  rewrite cur_meta_mint, Hst, decide_False by done. unfold st_ret.
  assert (Hk' : known_priority (st_priority (mint s)) = true)
    by by rewrite st_priority_mint.
  unfold st_bind. case_decide.
  - destruct (markWorkStarted_returns Render ts _ Hk') as (s' & -> & _). eauto.
  - destruct (markWorkStarted_returns RenderIdle ts _ Hk') as (s1 & -> & Hp).
    rewrite <- Hp in Hk'.
    destruct (markWorkStarted_returns Render ts _ Hk') as (s' & -> & _). eauto.
Qed.

(** ** Scheduler scopes *)

Lemma known_not_unscheduled p :
  known_priority p = true -> p <> Unscheduled ->
  String.eqb (string_of_priority p) "unscheduled" = false.
Proof. by destruct p. Qed.

(** C17: A [--scheduler-start-*] while a priority is already active is a
    guarded no-op: the priority, the data and every stack stay as they
    were, and exactly one diagnostic is logged. *)
Theorem scheduler_start_while_active (s : pstate) (q : string) (ts : Z) :
  known_priority (st_priority s) = true -> st_priority s <> Unscheduled ->
  processEvent (user_timing ("--scheduler-start-" +:+ q) ts) s =
  Return (tt, with_log s
                (DUnexpectedSchedulerStart ("--scheduler-start-" +:+ q) (st_priority s))).
Proof.
  intros Hk Hne. rewrite processEvent_unfold by reflexivity. simpl mk_name.
  rewrite classify_scheduler_start, pre_event_known by done.
  unfold handleMarker, st_bind, st_get. by rewrite known_not_unscheduled.
Qed.

(** C18: [--scheduler-stop-p] for the active priority [p] returns to
    [unscheduled] and changes nothing else. *)
Theorem scheduler_stop_resets (s : pstate) (ts : Z) :
  known_priority (st_priority s) = true -> st_priority s <> Unscheduled ->
  processEvent (user_timing ("--scheduler-stop-" +:+ string_of_priority (st_priority s)) ts) s =
  Return (tt, mkState (st_data s) (st_metadata s) Unscheduled (st_uid s) (st_log s)).
Proof.
  intros Hk Hne. rewrite processEvent_unfold by reflexivity. simpl mk_name.
  assert (Hc : forall q, classify_name ("--scheduler-stop-" +:+ q) = KSchedulerStop q).
  { intros q. unfold classify_name. by rewrite js_startsWith_app. }
  rewrite Hc, pre_event_known by done.
  unfold handleMarker, st_bind, st_get. rewrite known_not_unscheduled by done.
  by rewrite String.eqb_refl.
Qed.

(** C16: The code stores any text after ["--scheduler-start-"] as the
    priority. For a non-empty text that is not one of the four keys, the
    next work marker reads [.measures] of the [undefined] data group and
    the pass dies with a [TypeError], whatever the sort implementation
    (the empty text is falsy and falls back to [unscheduled]). *)
Theorem unknown_priority_crashes `{Sort.MarkerSort} (q : string) (t0 t1 : Z) :
  priority_of_string q = OtherPriority q -> q <> "" -> (t0 < t1)%Z ->
  reactProfilerProcessor
    [Some (user_timing ("--scheduler-start-" +:+ q) t0);
     Some (user_timing "--render-start" t1)] = Throw TypeErrorUndefinedGroup.
Proof.
  intros Hq Hne Ht. unfold reactProfilerProcessor.
  assert (Hf : Filter.filter_markers
                 [Some (user_timing ("--scheduler-start-" +:+ q) t0);
                  Some (user_timing "--render-start" t1)] =
               [user_timing ("--scheduler-start-" +:+ q) t0;
                user_timing "--render-start" t1]) by reflexivity.
  rewrite Hf, SortFacts.msort_strict.
  2: { repeat constructor. unfold SortFacts.time_lt. simpl. lia. }
  cbn [processEvents]. unfold st_bind at 1 2.
  rewrite processEvent_unfold by reflexivity. simpl mk_name.
  rewrite classify_scheduler_start.
  unfold handleMarker at 1, st_bind at 1, st_get, pre_event, cur_group. simpl.
  rewrite Hq. unfold st_bind at 1. rewrite processEvent_unfold by reflexivity.
  unfold pre_event, cur_group. simpl.
  destruct q as [|c q']; [done|]. reflexivity.
Qed.

(** ** Events *)

Lemma has_open_commit_spec m :
  has_open_commit m = true <-> Exists (fun f => fr_type f = Commit) (stack m).
Proof.
  unfold has_open_commit. rewrite existsb_exists, Exists_exists.
  split; intros (f & Hin & Hf); exists f; split; try done;
    [by apply bool_decide_eq_true in Hf | by apply bool_decide_eq_true].
Qed.

(** The run of a [--schedule-state-update-] marker on a context with a
    data group. *)
Lemma state_update_run (s : pstate) (g : data_group) (rest : string) (ts : Z) :
  cur_group s = Some g ->
  processEvent (user_timing ("--schedule-state-update-" +:+ rest) ts) s =
  Return (tt, mkState
    (ptable_set (cur_group_key s)
       (mkGroup (events g ++ [ScheduleStateUpdate (st_priority s) (has_open_commit (cur_meta s)) ts
                                (fst (component_parts rest))
                                (snd (component_parts rest))])
          (measures g)) (st_data s))
    (st_metadata s) (st_priority s) (st_uid s) (st_log s)).
Proof.
  intros Hg. rewrite processEvent_unfold by reflexivity. simpl mk_name.
  rewrite classify_state_update, (pre_event_Some s g Hg).
  unfold handleMarker, st_bind, st_get. destruct (component_parts rest) as [n st].
  unfold pushEvent, st_bind, st_get. rewrite Hg. reflexivity.
Qed.

(** C19: A [--schedule-state-update-<name>-<stack>] marker appends one
    event to the current priority's events, tagged with that priority, and
    its [isCascading] flag is true exactly when a [commit] frame is open
    anywhere in the current context's stack. *)
Theorem schedule_state_update_event (s : pstate) (g : data_group) (rest : string)
    (ts : Z) :
  cur_group s = Some g ->
  exists c,
    processEvent (user_timing ("--schedule-state-update-" +:+ rest) ts) s =
    Return (tt, mkState
      (ptable_set (cur_group_key s)
         (mkGroup (events g ++ [ScheduleStateUpdate (st_priority s) c ts
                                  (fst (component_parts rest))
                                  (snd (component_parts rest))])
            (measures g)) (st_data s))
      (st_metadata s) (st_priority s) (st_uid s) (st_log s)) /\
    (c = true <-> Exists (fun f => fr_type f = Commit) (stack (cur_meta s))).
Proof.
  intros Hg. exists (has_open_commit (cur_meta s)).
  split; [exact (state_update_run s g rest ts Hg) | apply has_open_commit_spec].
Qed.

(** ** Witnesses *)

(** The state after a [--render-start] at time 1 from the initial state:
    an unscheduled idle span and render are open. *)
Definition facts_state : pstate :=
  Eval vm_compute in
    match processEvent (user_timing "--render-start" 1) initial_state with
    | Return (_, s) => s
    | Throw _ => initial_state
    end.

Definition facts_frame : frame := mkFrame 0 1 1 Render.
Definition facts_rest : list frame := [mkFrame 0 0 1 RenderIdle].

Lemma markWorkCompleted_mismatch_no_pop_witness :
  markWorkCompleted Commit 5 facts_state =
  Return (tt, with_log facts_state (DCompletedBefore Commit Render)).
Proof.
  apply (markWorkCompleted_mismatch_no_pop Commit 5 facts_state facts_frame facts_rest).
  - vm_compute. reflexivity.
  - discriminate.
Defined.

Lemma render_start_rejects_open_render_witness :
  processEvent (user_timing "--render-start" 2) facts_state =
  Throw (StartedBeforeCompleted Render Render).
Proof.
  apply (render_start_rejects_open_render facts_state 2 facts_frame facts_rest).
  - vm_compute. reflexivity.
  - reflexivity.
Defined.

(** Layout effects opened inside the open render of [facts_state]. *)
Definition buried_state : pstate :=
  Eval vm_compute in
    match processEvent (user_timing "--layout-effects-start" 2) facts_state with
    | Return (_, s) => s
    | Throw _ => facts_state
    end.

Lemma render_start_misses_buried_render_witness :
  exists s', processEvent (user_timing "--render-start" 3) buried_state = Return (tt, s').
Proof.
  apply (render_start_misses_buried_render buried_state 3 (mkFrame 1 2 2 LayoutEffects)
           [facts_frame; mkFrame 0 0 1 RenderIdle]).
  - reflexivity.
  - vm_compute. reflexivity.
  - discriminate.
  - left. reflexivity.
Defined.

Lemma unknown_priority_crashes_witness :
  @reactProfilerProcessor SortFacts.v8_sort
    [Some (user_timing ("--scheduler-start-" +:+ "foo") 0);
     Some (user_timing "--render-start" 1)] = Throw TypeErrorUndefinedGroup.
Proof.
  apply (@unknown_priority_crashes SortFacts.v8_sort "foo" 0 1); [reflexivity | discriminate | lia].
Defined.

(** The initial state inside a [normal] scheduling scope. *)
Definition normal_state : pstate :=
  mkState (ptable_const empty_group) (ptable_const initial_meta) Normal 0 [].

Lemma scheduler_start_while_active_witness :
  processEvent (user_timing ("--scheduler-start-" +:+ "high") 1) normal_state =
  Return (tt, with_log normal_state
                (DUnexpectedSchedulerStart ("--scheduler-start-" +:+ "high") Normal)).
Proof.
  apply (scheduler_start_while_active normal_state "high" 1); [reflexivity | discriminate].
Defined.

Lemma scheduler_stop_resets_witness :
  processEvent (user_timing ("--scheduler-stop-" +:+ "normal") 1) normal_state =
  Return (tt, mkState (ptable_const empty_group) (ptable_const initial_meta) Unscheduled 0 []).
Proof.
  apply (scheduler_stop_resets normal_state 1); [reflexivity | discriminate].
Defined.

Lemma schedule_state_update_event_witness :
  exists s', processEvent (user_timing ("--schedule-state-update-" +:+ "Foo-in Bar") 3)
               initial_state = Return (tt, s').
Proof.
  destruct (schedule_state_update_event initial_state empty_group "Foo-in Bar" 3)
    as (c & Hrun & _).
  - reflexivity.
  - eexists. exact Hrun.
Defined.
