(* ===== verification/Batch.v ===== *)
(** * Batch ids

    Each metadata carries [nextRenderShouldGenerateNewBatchID] and
    [batchUID]; a [--render-start] whose context has the flag set takes the
    next value of the shared [uidCounter] (lines 215-218), and only
    [--render-cancel] and [--commit-start] set the flag again (lines 229
    and 233). Every measure pushed records the context's [batchUID] at that
    moment (line 149). *)

From S2P Require Import Prelude Types Markers Names Processor ProcessorInvariant Dataset ProcessorFacts.

Local Open Scope string_scope.
Local Open Scope profiler_scope.

(** The batch part of a metadata, and of every priority's metadata. *)
Definition batch_state (m : metadata) : bool * nat :=
  (nextRenderShouldGenerateNewBatchID m, batchUID m).

Definition batch_view (s : pstate) : ptable (bool * nat) :=
  ptable_map batch_state (st_metadata s).

Section Frame.
Context (B : ptable (bool * nat)).
Let I (s : pstate) : Prop := batch_view s = B.

Lemma log_batch d : preserves I (log d).
Proof. apply hoare_modify. by intros s. Qed.

Lemma set_priority_batch p : preserves I (set_priority p).
Proof. apply hoare_modify. by intros s. Qed.

Lemma set_uid_batch n : preserves I (set_uid n).
Proof. apply hoare_modify. by intros s. Qed.

Lemma set_cur_group_batch g : preserves I (set_cur_group g).
Proof. apply hoare_modify. by intros s. Qed.

Lemma update_meta_batch f :
  (forall m, batch_state (f m) = batch_state m) -> preserves I (update_meta f).
Proof.
  intros Hf. apply hoare_modify. intros s HI. unfold I, batch_view in *. simpl.
  rewrite <- HI. apply ptable_map_set_same with (y := cur_meta s);
    [apply cur_meta_get | apply Hf].
Qed.

Local Hint Resolve log_batch set_priority_batch set_uid_batch set_cur_group_batch
  update_meta_batch : profiler.

Lemma markWorkStarted_batch t ts : preserves I (markWorkStarted t ts).
Proof. unfold markWorkStarted. preserves_tac. Qed.

Lemma markWorkCompleted_batch t ts : preserves I (markWorkCompleted t ts).
Proof. unfold markWorkCompleted. preserves_tac. Qed.

Lemma pushEvent_batch ev : preserves I (pushEvent ev).
Proof. unfold pushEvent. preserves_tac. Qed.

Lemma throwIfIncomplete_batch t : preserves I (throwIfIncomplete t).
Proof. unfold throwIfIncomplete. preserves_tac. Qed.

Local Hint Resolve markWorkStarted_batch markWorkCompleted_batch pushEvent_batch
  throwIfIncomplete_batch : profiler.

(** The branches other than render-start, render-cancel and commit-start
    leave the batch state alone. *)
Lemma handleMarker_batch k name ts :
  k <> KRenderStart -> k <> KRenderCancel -> k <> KCommitStart ->
  preserves I (handleMarker k name ts).
Proof.
  intros H1 H2 H3. unfold handleMarker. apply preserves_get_any. intros s0 _.
  destruct k; try congruence; preserves_tac.
Qed.

Lemma processEvent_batch e :
  classify_name (mk_name e) ∉ [KRenderStart; KRenderCancel; KCommitStart] ->
  preserves I (processEvent e).
Proof.
  intros Hk. rewrite !elem_of_cons, elem_of_nil in Hk.
  unfold processEvent. preserves_tac. apply handleMarker_batch; naive_solver.
Qed.
End Frame.

(** C20: Only [--render-start], [--render-cancel] and [--commit-start] can
    change a context's new-batch flag or batch id; in particular
    [--commit-stop] does not (the spec names [--commit-stop], not
    [--commit-start], as what starts a new batch). *)
Theorem batch_state_only_changed_by (e : marker) (s s' : pstate) :
  processEvent e s = Return (tt, s') ->
  classify_name (mk_name e) ∉ [KRenderStart; KRenderCancel; KCommitStart] ->
  batch_view s' = batch_view s.
Proof.
  intros Hrun Hk. exact (processEvent_batch (batch_view s) e Hk s tt s' eq_refl Hrun).
Qed.

(** ** Minting *)

(** C21: A [--render-start] on an empty context whose flag is set takes the
    counter's value as the context's batch id, advances the counter, clears
    the flag, and pushes an idle span and a render at depth 0, both tagged
    with the new id. *)
Theorem render_start_mints (s : pstate) (g : data_group) (ts : Z) :
  cur_group s = Some g ->
  nextRenderShouldGenerateNewBatchID (cur_meta s) = true -> stack (cur_meta s) = [] ->
  exists s',
    processEvent (user_timing "--render-start" ts) s = Return (tt, s') /\
    st_uid s' = S (st_uid s) /\ batch_state (cur_meta s') = (false, st_uid s) /\
    cur_group s' = Some (mkGroup (events g)
      (measures g ++ [mkMeasure RenderIdle (st_uid s) 0 (st_priority s) ts 0;
                      mkMeasure Render (st_uid s) 0 (st_priority s) ts 0])) /\
    stack (cur_meta s') = [mkFrame 0 (S (length (measures g))) ts Render;
                           mkFrame 0 (length (measures g)) ts RenderIdle].
Proof.
  intros Hg Hfl Hst.
  rewrite processEvent_unfold, (pre_event_Some s g Hg) by done. simpl mk_name.
  rewrite classify_render_start, handleMarker_render_start.
  destruct s as [d m p u l]; unfold cur_group, cur_group_key, group_key, cur_meta in *; simpl in *.
  destruct p as [| | | |[|c q]]; try discriminate; injection Hg as <-;
    [destruct m as [[fl b st] ? ? ?] | destruct m as [? [fl b st] ? ?]
    | destruct m as [? ? [fl b st] ?] | destruct m as [? ? ? [fl b st]]
    | destruct m as [? ? ? [fl b st]]];
    simpl in Hfl, Hst; subst; cbn; rewrite decide_False by discriminate; cbn;
    eexists; (split; [reflexivity|]);
    simpl; rewrite ?length_app; simpl; split_and!; try done;
    first [by rewrite <- app_assoc | repeat f_equal; lia].
Qed.

(** ** Batch ids are not fresh *)



(** ** Witnesses *)

Lemma batch_state_only_changed_by_witness :
  exists s', processEvent (user_timing "--render-stop" 5) facts_state = Return (tt, s') /\
             batch_view s' = batch_view facts_state.
Proof.
  eexists. split; [vm_compute; reflexivity|].
  apply (batch_state_only_changed_by (user_timing "--render-stop" 5) facts_state).
  - vm_compute. reflexivity.
  - replace (classify_name (mk_name (user_timing "--render-stop" 5))) with KRenderStop
      by reflexivity.
    rewrite !elem_of_cons, elem_of_nil. intuition discriminate.
Defined.

Lemma render_start_mints_witness :
  exists s', processEvent (user_timing "--render-start" 1) initial_state = Return (tt, s').
Proof.
  destruct (render_start_mints initial_state empty_group 1) as (s' & Hrun & _).
  - reflexivity.
  - reflexivity.
  - reflexivity.
  - exists s'. exact Hrun.
Defined.



