(* ===== verification/Tooltip.v ===== *)
(** * The tooltips

    [src/src/components/tooltip/React.js]: [formatComponentStack], the
    memoized [getTotalDuration], the label switches, and the components
    [TooltipReactEvent] and [TooltipReactWork], each as a record of the
    values its JSX shows (the markup itself is not modelled). All are
    pure functions of their arguments. The memoization ([memoize-immutable] with [limit: 1]) caches the last
    result and does not change what is returned. *)

From S2P Require Import Prelude Types.
From Stdlib Require Import Ascii.

Local Open Scope string_scope.

(** ** [formatComponentStack] (lines 13-21) *)

Definition newline : ascii := ascii_of_nat 10.

(** The whitespace [String.prototype.trim] removes, in ASCII. *)
Definition is_js_space (c : ascii) : bool :=
  match nat_of_ascii c with
  | 9 | 10 | 11 | 12 | 13 | 32 => true
  | _ => false
  end.

Fixpoint trim_start (s : string) : string :=
  match s with
  | EmptyString => EmptyString
  | String c s' => if is_js_space c then trim_start s' else s
  end.

Fixpoint str_rev (s : string) : string :=
  match s with
  | EmptyString => EmptyString
  | String c s' => str_rev s' +:+ String c EmptyString
  end.

(** [line.trim()] *)
Definition js_trim (s : string) : string := str_rev (trim_start (str_rev (trim_start s))).

(** [lines.join('\n')] *)
Definition join_lines (l : list string) : string := String.concat (String newline "") l.

Definition formatComponentStack (componentStack : string) : string :=
  let lines := tail (map js_trim (js_split newline componentStack)) in
  if Nat.ltb 5 (length lines)
  then join_lines (take 5 lines) +:+ String newline "..."
  else join_lines lines.

(** ** [getTotalDuration] (lines 23-54) *)

(** A JavaScript number: finite, or [Infinity]. *)
Inductive jsnum : Type :=
  | JFin (z : Z)
  | JInf.

(** The first loop: from the first item of the batch on, with its
    timestamp. *)
Fixpoint first_loop (b : nat) (work : list measure) : option (Z * list measure) :=
  match work with
  | [] => None
  | item :: rest =>
      if Nat.eqb (ms_batchUID item) b then Some (ms_timestamp item, work)
      else first_loop b rest
  end.

(** The second loop: [stopTime] takes every item's timestamp, up to and
    including the first item of another batch. *)
Fixpoint second_loop (b : nat) (work : list measure) (stopTime : jsnum) : jsnum :=
  match work with
  | [] => stopTime
  | item :: rest =>
      if Nat.eqb (ms_batchUID item) b then second_loop b rest (JFin (ms_timestamp item))
      else JFin (ms_timestamp item)
  end.

(** [stopTime - startTime] with [startTime = 0] and [stopTime = Infinity]
    when no item matches. *)
Definition total_duration (b : nat) (work : list measure) : jsnum :=
  match first_loop b work with
  | None => JInf
  | Some (startTime, from) =>
      match second_loop b from JInf with
      | JFin stop => JFin (stop - startTime)
      | JInf => JInf
      end
  end.

(** The fields of a data group the tooltip can read as a list of
    measures: the processor's groups hold [events] and [measures]. *)
Definition group_field (g : data_group) (field : string) : option (list measure) :=
  if String.eqb field "measures" then Some (measures g) else None.

Inductive tooltip_error : Type :=
  | TypeErrorReadWork
  | TypeErrorWorkLength.

(** [reactProfilerData[priority].work], then the loops. *)
Definition getTotalDuration (data : measure) (priority : priority)
    (reactProfilerData : ptable data_group) : outcome tooltip_error jsnum :=
  match ptable_get priority reactProfilerData with
  | None => Throw TypeErrorReadWork
  | Some g =>
      match group_field g "work" with
      | None => Throw TypeErrorWorkLength
      | Some work => Return (total_duration (ms_batchUID data) work)
      end
  end.

(** ** Labels (lines 59-72 and 110-129) *)

Definition event_label (type : string) : option string :=
  if String.eqb type "schedule-render" then Some "render scheduled"
  else if String.eqb type "schedule-state-update" then Some "state update scheduled"
  else if String.eqb type "suspend" then Some "suspended"
  else None.

Definition work_label (type : string) : option string :=
  if String.eqb type "commit-work" then Some "commit"
  else if String.eqb type "render-idle" then Some "idle"
  else if String.eqb type "render-work" then Some "render"
  else if String.eqb type "layout-effects" then Some "layout effects"
  else if String.eqb type "passive-effects" then Some "passive effects"
  else None.

(** ** The components (lines 56-150)

    What each component renders, as a record of the values its JSX
    shows: the text of the header lines, and the numbers handed to
    [formatMilliseconds] (a formatting helper of another module, not
    modelled). The [color] prop only styles the name. *)

(** JavaScript truthiness of a string field: [undefined] and [''] are
    falsy. *)
Definition js_truthy (o : option string) : option string :=
  match o with
  | Some s => if String.eqb s "" then None else Some s
  | None => None
  end.

Record event_tooltip : Type := mkEventTooltip {
  et_componentName : option string;
  et_title : option string;
  et_timestamp : Z;
  et_componentStack : option string
}.

(** [TooltipReactEvent]: the name when truthy, the label, the time since
    [zeroAt], and the formatted stack when truthy. *)
Definition TooltipReactEvent (data : react_event) (zeroAt : Z) : event_tooltip :=
  mkEventTooltip (js_truthy (event_componentName data))
    (event_label (event_type_name data))
    (event_timestamp data - zeroAt)
    (option_map formatComponentStack (js_truthy (event_componentStack data))).

Record work_tooltip : Type := mkWorkTooltip {
  wt_duration : Z;
  wt_title : option string;
  wt_timestamp : Z;
  wt_batchDuration : jsnum
}.

(** [TooltipReactWork]: rendering evaluates [getTotalDuration], whose
    exception aborts the render. *)
Definition TooltipReactWork (data : measure) (priority : priority)
    (reactProfilerData : ptable data_group) (zeroAt : Z) : outcome tooltip_error work_tooltip :=
  match getTotalDuration data priority reactProfilerData with
  | Throw e => Throw e
  | Return total =>
      Return (mkWorkTooltip (ms_duration data) (work_label (work_type_name (ms_type data)))
                (ms_timestamp data - zeroAt) total)
  end.

(** ** String lemmas *)

Lemma str_has_app c a b : str_has c (a +:+ b) = str_has c a || str_has c b.
Proof. induction a as [|d a IH]; simpl; [done|]. by destruct (ascii_dec c d). Qed.

Lemma str_has_rev c s : str_has c (str_rev s) = str_has c s.
Proof.
  induction s as [|d s IH]; simpl; [done|]. rewrite str_has_app, IH. simpl.
  destruct (ascii_dec c d); [apply orb_true_r | apply orb_false_r].
Qed.

Lemma str_has_trim_start c s : str_has c s = false -> str_has c (trim_start s) = false.
Proof.
  induction s as [|d s IH]; simpl; [done|].
  destruct (ascii_dec c d); [discriminate|]. intros Hs.
  destruct (is_js_space d); [by apply IH | simpl; by destruct (ascii_dec c d)].
Qed.

Lemma str_has_trim c s : str_has c s = false -> str_has c (js_trim s) = false.
Proof.
  intros Hs. unfold js_trim. rewrite str_has_rev. apply str_has_trim_start.
  rewrite str_has_rev. by apply str_has_trim_start.
Qed.

Lemma js_split_pieces sep s : Forall (fun w => str_has sep w = false) (js_split sep s).
Proof.
  induction s as [|c s IH]; simpl; [by repeat constructor|].
  destruct (ascii_dec c sep) as [->|Hne]; [by constructor|].
  destruct (js_split sep s) as [|w ws]; repeat constructor;
    simpl; destruct (ascii_dec sep c); try congruence; [by invc IH | by invc IH].
Qed.

Section SplitJoin.
Context (sep : ascii).

Lemma concat_cons2 (d x y : string) l :
  String.concat d (x :: y :: l) = x +:+ d +:+ String.concat d (y :: l).
Proof. done. Qed.

Lemma js_split_join_app l b :
  l <> [] -> Forall (fun w => str_has sep w = false) l ->
  js_split sep (String.concat (String sep "") l +:+ String sep b) = (l ++ js_split sep b)%list.
Proof.
  induction l as [|x l IH]; [done|]. intros _ Hl. invc Hl.
  destruct l as [|y l]; [simpl; by rewrite js_split_app|].
  rewrite concat_cons2, !str_app_assoc, str_app_cons, str_app_nil.
  rewrite js_split_app by done. by rewrite IH.
Qed.

Lemma js_split_join l :
  l <> [] -> Forall (fun w => str_has sep w = false) l ->
  js_split sep (String.concat (String sep "") l) = l.
Proof.
  induction l as [|x l IH]; [done|]. intros _ Hl. invc Hl.
  destruct l as [|y l]; [simpl; by apply js_split_no_sep|].
  rewrite concat_cons2, str_app_cons, str_app_nil.
  rewrite js_split_app by done. by rewrite IH.
Qed.
End SplitJoin.

(** ** Results *)

(** C29: The tooltip shows the component stack from its second line on,
    each line trimmed, at most five of them, and a final ["..."] line when
    more remain. *)
Theorem formatComponentStack_lines (s : string) :
  tail (map js_trim (js_split newline s)) <> [] ->
  js_split newline (formatComponentStack s) =
  (take 5 (tail (map js_trim (js_split newline s))) ++
   (if Nat.ltb 5 (length (tail (map js_trim (js_split newline s)))) then ["..."] else []))%list.
Proof.
  unfold formatComponentStack. set (l := tail _). intros Hne.
  assert (Hl : Forall (fun w => str_has newline w = false) l).
  { subst l. pose proof (js_split_pieces newline s) as Hp.
    destruct (js_split newline s) as [|w ws]; simpl; [done|].
    invc Hp. clear Hne. match goal with H : Forall _ ws |- _ => induction H end;
      simpl; constructor; auto using str_has_trim. }
  destruct (Nat.ltb_spec 5 (length l)).
  - unfold join_lines. rewrite js_split_join_app.
    + by rewrite js_split_no_sep.
    + destruct l; [done|]. discriminate.
    + by apply Forall_take.
  - unfold join_lines. rewrite js_split_join by done.
    rewrite take_ge by lia. by rewrite app_nil_r.
Qed.

Lemma first_loop_skip b pre l :
  Forall (fun m => ms_batchUID m <> b) pre -> first_loop b (pre ++ l)%list = first_loop b l.
Proof.
  induction pre as [|m pre IH]; intros Hpre; simpl; [done|]. invc Hpre.
  destruct (Nat.eqb_spec (ms_batchUID m) b); [congruence | auto].
Qed.

Lemma second_loop_run b run next post acc :
  Forall (fun m => ms_batchUID m = b) run -> ms_batchUID next <> b ->
  second_loop b (run ++ next :: post)%list acc = JFin (ms_timestamp next).
Proof.
  revert acc. induction run as [|m run IH]; intros acc Hrun Hnext; simpl.
  - by destruct (Nat.eqb_spec (ms_batchUID next) b).
  - invc Hrun. rewrite Nat.eqb_refl. auto.
Qed.

(** C30: On a list of measures, the batch duration the tooltip computes
    ends at the first measure after the batch, not at the batch's last
    measure (the spec says last match minus first match). *)
Theorem total_duration_ends_at_next_batch (b : nat) (pre run post : list measure)
    (first next : measure) :
  Forall (fun m => ms_batchUID m <> b) pre -> ms_batchUID first = b ->
  Forall (fun m => ms_batchUID m = b) run -> ms_batchUID next <> b ->
  total_duration b (pre ++ first :: run ++ next :: post)%list =
  JFin (ms_timestamp next - ms_timestamp first).
Proof.
  intros Hpre Hf Hrun Hnext. unfold total_duration.
  rewrite first_loop_skip by done. cbn [first_loop second_loop].
  rewrite Hf, Nat.eqb_refl. cbn [second_loop]. rewrite Hf, Nat.eqb_refl.
  by rewrite second_loop_run.
Qed.

(** C31: [getTotalDuration] reads [reactProfilerData[priority].work], but
    the processor's data groups hold [measures] and [events]: on any
    dataset, for any measure and priority, the tooltip's batch duration
    throws a [TypeError], so [TooltipReactWork] never renders. *)
Theorem getTotalDuration_always_throws (data : measure) (p : priority)
    (d : ptable data_group) (zeroAt : Z) :
  exists e, getTotalDuration data p d = Throw e /\ TooltipReactWork data p d zeroAt = Throw e.
Proof.
  unfold TooltipReactWork, getTotalDuration. destruct (ptable_get p d); eauto.
Qed.

(** C32: The work labels are keyed by ['commit-work'] and ['render-work'],
    names the processor never produces: its [render] and [commit] measures
    get no label, the other three work types do. *)
Theorem work_label_misses_render_commit (t : work_type) :
  work_label (work_type_name t) = None <-> t = Render \/ t = Commit.
Proof. destruct t; vm_compute; intuition congruence. Qed.

(** ** Witnesses *)

Definition nl_str : string := String newline "".

Definition witness_stack : string :=
  "The above error occurred in:" +:+ nl_str +:+ "  in A" +:+ nl_str +:+ "  in B" +:+ nl_str +:+
  "  in C" +:+ nl_str +:+ "  in D" +:+ nl_str +:+ "  in E" +:+ nl_str +:+ "  in F".

Lemma formatComponentStack_lines_witness :
  js_split newline (formatComponentStack witness_stack) =
  ["in A"; "in B"; "in C"; "in D"; "in E"; "..."].
Proof.
  rewrite (formatComponentStack_lines witness_stack).
  - vm_compute. reflexivity.
  - vm_compute. discriminate.
Defined.

Lemma total_duration_ends_at_next_batch_witness :
  total_duration 1
    ([mkMeasure Commit 0 0 High 1 0] ++
     mkMeasure RenderIdle 1 0 High 2 0 :: [mkMeasure Render 1 0 High 4 0] ++
     mkMeasure RenderIdle 2 0 High 7 0 :: []) = JFin (7 - 2).
Proof.
  apply total_duration_ends_at_next_batch.
  - repeat constructor. discriminate.
  - reflexivity.
  - repeat constructor.
  - discriminate.
Defined.
