(* ===== verification/ContextMenu.v ===== *)
(** * The context menu

    [src/src/components/shared/ReactContextMenu.js]: the items offered for
    the right-clicked measure or event ([renderContextMenuContents]), and
    the show/hide protocol of [_onShow] and [_onHide], whose deferred reset
    of the store's visibility goes through [setTimeout].

    The protocol is a state machine: the component's [_hidingTimeout], the
    store's visibility, the queue of timers scheduled and neither fired
    nor cleared (a [setTimeout] without delay fires after the current
    task, in scheduling order), and the id the next [setTimeout] returns.
    Its steps are the two handlers and the firing of the oldest timer.
    The copy actions hand a field of the event to the clipboard and do not
    change this state; the zoom and summary actions only log. [render]
    returns null without data, so the no-data branch of
    [renderContextMenuContents] is never reached through it;
    [mapStateToProps] reads the right-clicked measure or event. *)

From S2P Require Import Prelude Types.

Local Open Scope string_scope.

(** ** Menu contents (lines 106-164) *)

(** The selected item: [data.event.type] and the fields the copy actions
    read. *)
Record menu_data : Type := mkMenuData {
  md_type : string;
  md_componentName : option string;
  md_componentStack : option string
}.

Inductive menu_item : Type :=
  | ZoomToBatch
  | CopySummary
  | CopyComponentName
  | CopyComponentStack.

(** What [renderContextMenuContents] returns: an empty [<div />], the
    menu items, or the string ['hi'] of the default branch. *)
Inductive menu_contents : Type :=
  | MenuEmptyDiv
  | MenuItems (items : list menu_item)
  | MenuText (s : string).

Inductive menu_log : Type :=
  | LogNoData
  | WarnUnexpectedType (ty : string).

(** The default branch reads [event.type] where [event] is not a binding
    of the module: it is the browser's global [window.event], modelled as
    the type of the event being dispatched, if any. Reading [.type] of
    [undefined] throws. *)
Definition renderContextMenuContents (window_event : option string)
    (data : option menu_data) : outcome unit (menu_contents * list menu_log) :=
  match data with
  | None => Return (MenuEmptyDiv, [LogNoData])
  | Some d =>
      let ty := md_type d in
      if String.eqb ty "commit-work" || String.eqb ty "render-idle" ||
         String.eqb ty "render-work" || String.eqb ty "layout-effects" ||
         String.eqb ty "passive-effects"
      then Return (MenuItems [ZoomToBatch; CopySummary], [])
      else if String.eqb ty "schedule-render" || String.eqb ty "schedule-state-update" ||
              String.eqb ty "suspend"
      then Return (MenuItems [CopyComponentName; CopyComponentStack], [])
      else match window_event with
           | None => Throw tt
           | Some ety => Return (MenuText "hi", [WarnUnexpectedType ety])
           end
  end.

(** ** The selected item, the actions, and [render] (lines 88-104, 166-193) *)

(** [getRightClickedReactData] (a selector of another module) yields the
    right-clicked measure or event; [data.event] is that object. *)
Inductive clicked : Type :=
  | ClickedMeasure (m : measure)
  | ClickedEvent (ev : react_event).

(** The fields of [data.event] the menu reads: a measure has a [type] and
    no component fields; an event has the fields the processor gave it. *)
Definition clicked_data (c : clicked) : menu_data :=
  match c with
  | ClickedMeasure m => mkMenuData (work_type_name (ms_type m)) None None
  | ClickedEvent ev =>
      mkMenuData (event_type_name ev) (event_componentName ev) (event_componentStack ev)
  end.

(** [mapStateToProps]: the [data] prop, null when nothing is
    right-clicked. *)
Definition mapStateToProps (selected : option clicked) : option menu_data :=
  option_map clicked_data selected.

(** What an item's [onClick] does: [copy(x)] hands a field to the
    clipboard library ([undefined] when the field is absent); the zoom
    and summary handlers only [console.log] (they are marked TODO). *)
Inductive menu_effect : Type :=
  | CopyToClipboard (text : option string)
  | ConsoleLog (msg : string).

Definition menu_action (i : menu_item) (d : menu_data) : menu_effect :=
  match i with
  | ZoomToBatch => ConsoleLog "_zoomToBatch()"
  | CopySummary => ConsoleLog "_copySummary()"
  | CopyComponentName => CopyToClipboard (md_componentName d)
  | CopyComponentStack => CopyToClipboard (md_componentStack d)
  end.

(** What [render] returns: null, or the [ContextMenu] with the id
    ["ReactContextMenu"] (its [onShow]/[onHide] are the handlers of the
    protocol below) around the menu contents. *)
Inductive menu_render : Type :=
  | RenderNull
  | RenderContextMenu (id : string) (contents : menu_contents).

Definition render (window_event : option string) (data : option menu_data)
    : outcome unit (menu_render * list menu_log) :=
  match data with
  | None => Return (RenderNull, [])
  | Some d =>
      match renderContextMenuContents window_event (Some d) with
      | Return (c, logs) => Return (RenderContextMenu "ReactContextMenu" c, logs)
      | Throw e => Throw e
      end
  end.

(** ** The show/hide protocol (lines 50-86) *)

Record menu_state : Type := mkMenu {
  hidingTimeout : option nat;
  visible : bool;
  pending : list nat;
  next_timer : nat
}.

Definition menu_initial : menu_state := mkMenu None false [] 0.

(** [clearTimeout(id)]: [clearTimeout(null)] does nothing. *)
Definition clearTimeout (id : option nat) (q : list nat) : list nat :=
  match id with
  | None => q
  | Some i => filter (fun j => j <> i) q
  end.

(** [_onShow]: clear the handle's timer (the handle itself is kept) and
    show. *)
Definition onShow (s : menu_state) : menu_state :=
  mkMenu (hidingTimeout s) true (clearTimeout (hidingTimeout s) (pending s)) (next_timer s).

(** [_onHide]: schedule the reset and keep its handle, overwriting the
    previous one. *)
Definition onHide (s : menu_state) : menu_state :=
  mkMenu (Some (next_timer s)) (visible s) (pending s ++ [next_timer s]) (S (next_timer s)).

(** The callback of the oldest pending timer: null the handle and hide. *)
Definition fireTimer (s : menu_state) : menu_state :=
  match pending s with
  | [] => s
  | _ :: rest => mkMenu None false rest (next_timer s)
  end.

Inductive menu_event : Type := Show | Hide | Fire.

Definition menu_apply (e : menu_event) (s : menu_state) : menu_state :=
  match e with
  | Show => onShow s
  | Hide => onHide s
  | Fire => fireTimer s
  end.

Definition run_menu (es : list menu_event) (s : menu_state) : menu_state :=
  fold_left (fun s e => menu_apply e s) es s.

Inductive menu_step : menu_state -> menu_state -> Prop :=
  | step_show s : menu_step s (onShow s)
  | step_hide s : menu_step s (onHide s)
  | step_fire s i rest : pending s = i :: rest -> menu_step s (fireTimer s).

Inductive reachable : menu_state -> Prop :=
  | reach_init : reachable menu_initial
  | reach_step s s' : reachable s -> menu_step s s' -> reachable s'.

(** ** Results *)

(** C33: The processor's [render] and [commit] measures fall through to
    the default branch of the menu (it expects ['render-work'] and
    ['commit-work']): no zoom or summary item is offered for them, and
    outside an event dispatch the menu throws. *)
Theorem menu_has_no_items_for_render_commit (window_event : option string)
    (d : menu_data) (t : work_type) :
  md_type d = work_type_name t -> t = Render \/ t = Commit ->
  forall items logs,
    renderContextMenuContents window_event (Some d) <> Return (MenuItems items, logs).
Proof.
  intros Hty Ht items logs. unfold renderContextMenuContents. rewrite Hty.
  destruct Ht as [->| ->]; vm_compute; destruct window_event; discriminate.
Qed.

(** The timers of a state: no id twice, all ids and the handle below the
    next id. *)
Definition timers_ok (s : menu_state) : Prop :=
  NoDup (pending s) /\ Forall (fun i => i < next_timer s) (pending s) /\
  (forall i, hidingTimeout s = Some i -> i < next_timer s).

Lemma clearTimeout_sub id q : forall j, In j (clearTimeout id q) -> In j q.
Proof.
  destruct id as [i|]; simpl; [|done]. intros j Hj.
  apply list_elem_of_In, list_elem_of_filter in Hj. apply list_elem_of_In. by destruct Hj.
Qed.

Lemma clearTimeout_NoDup id q : NoDup q -> NoDup (clearTimeout id q).
Proof. destruct id; simpl; [apply list.NoDup_filter | done]. Qed.

Lemma menu_step_timers_ok s s' : timers_ok s -> menu_step s s' -> timers_ok s'.
Proof.
  intros (Hnd & Hlt & Hh) Hstep. destruct Hstep as [s|s|s i rest Hp]; simpl.
  - split_and!; [by apply clearTimeout_NoDup | | done].
    apply Forall_forall. intros j Hj%clearTimeout_sub. by eapply Forall_forall in Hlt.
  - split_and!.
    + apply list.NoDup_app. split_and!; [done | | apply NoDup_singleton].
      intros x Hx ->%list_elem_of_singleton. apply list_elem_of_In in Hx.
      eapply Forall_forall in Hlt; [|exact Hx].
      simpl in Hlt. lia.
    + apply Forall_app. split; [|constructor; [simpl; lia | done]].
      eapply Forall_impl; [|exact Hlt]. intros a Ha. simpl in *. lia.
    + intros j [= <-]. simpl. lia.
  - unfold fireTimer. rewrite Hp. simpl. rewrite Hp in Hnd, Hlt.
    invc Hnd. invc Hlt. split_and!; [done | done | discriminate].
Qed.

(** In every reachable state of the protocol the pending timers are
    distinct and the handle and every pending id were returned by an
    earlier [setTimeout]. *)
Lemma reachable_timers (s : menu_state) : reachable s -> timers_ok s.
Proof.
  induction 1 as [|s s' _ IH Hstep].
  - split_and!; [constructor | constructor | discriminate].
  - by eapply menu_step_timers_ok.
Qed.

Lemma filter_keep_all (n : nat) q :
  Forall (fun i => i < n) q -> filter (fun j => j <> n) q = q.
Proof.
  induction q as [|x q IH]; intros Hq; simpl; [done|]. invc Hq.
  rewrite filter_cons, decide_True by lia. by rewrite IH.
Qed.

(** C35: The case the comment of [_onShow] describes: in any reachable
    state, a hide immediately followed by a show cancels the reset the
    hide scheduled, leaves every earlier timer alone, and shows the
    menu. *)
Theorem hide_then_show_cancels (s : menu_state) :
  reachable s ->
  pending (onShow (onHide s)) = pending s /\ visible (onShow (onHide s)) = true.
Proof.
  intros Hr. destruct (reachable_timers s Hr) as (_ & Hlt & _).
  split; [|done]. simpl. rewrite list.filter_app, filter_keep_all by done.
  rewrite filter_cons, decide_False by congruence. apply app_nil_r.
Qed.

(** [render] never reaches the no-data branch of
    [renderContextMenuContents]: it returns null before calling it. *)
Lemma render_never_logs_no_data (window_event : option string) (data : option menu_data)
    (r : menu_render) (logs : list menu_log) :
  render window_event data = Return (r, logs) -> LogNoData ∉ logs.
Proof.
  destruct data as [d|]; cbn; [|intros [= _ <-]; apply not_elem_of_nil].
  unfold renderContextMenuContents.
  destruct (_ || _); cbn; [intros [= _ <-]; apply not_elem_of_nil|].
  destruct (_ || _); cbn; [intros [= _ <-]; apply not_elem_of_nil|].
  destruct window_event; [|discriminate]. intros [= _ <-].
  rewrite list_elem_of_singleton. discriminate.
Qed.

(** C37: The batch-level actions the spec promises for work measures only
    log: right-clicking a render-idle, layout-effects or passive-effects
    measure renders the menu with "Zoom to batch" and "Copy summary" and
    no warning, and both items only [console.log] their handler's name;
    neither zooms nor copies. *)
Theorem work_menu_only_logs (window_event : option string) (m : measure) :
  ms_type m <> Render -> ms_type m <> Commit ->
  render window_event (mapStateToProps (Some (ClickedMeasure m))) =
    Return (RenderContextMenu "ReactContextMenu" (MenuItems [ZoomToBatch; CopySummary]), []) /\
  map (fun i => menu_action i (clicked_data (ClickedMeasure m))) [ZoomToBatch; CopySummary] =
    [ConsoleLog "_zoomToBatch()"; ConsoleLog "_copySummary()"].
Proof. intros H1 H2. split; [|done]. cbn. destruct (ms_type m); try congruence; reflexivity. Qed.

(** After a hide, until the next show, the menu is hidden or a timer is
    pending. *)
Definition hide_pending (s : menu_state) : Prop := visible s = false \/ pending s <> [].

Lemma hide_pending_step e s : e <> Show -> hide_pending s -> hide_pending (menu_apply e s).
Proof.
  intros He Hs. destruct e; [by destruct He | | ]; cbn.
  - right. unfold onHide. cbn. by destruct (pending s).
  - unfold fireTimer. destruct (pending s) eqn:Hp; [done | by left].
Qed.

Lemma hide_pending_run es s :
  Forall (fun e => e <> Show) es -> hide_pending s -> hide_pending (run_menu es s).
Proof.
  intros Hes. revert s. induction Hes as [|e es He _ IH]; intros s Hs; [done|].
  apply IH. by apply hide_pending_step.
Qed.

Lemma fire_all n s :
  length (pending s) = n -> pending (run_menu (repeat Fire n) s) = [] /\
  (n <> 0 -> visible (run_menu (repeat Fire n) s) = false).
Proof.
  revert s. induction n as [|n IH]; intros s Hn; cbn.
  - split; [by destruct (pending s) | done].
  - unfold fireTimer. destruct (pending s) as [|i rest] eqn:Hp; [discriminate|].
    cbn in Hn. destruct (IH (mkMenu None false rest (next_timer s))) as [H1 H2]; [cbn; lia|].
    split; [done|]. intros _. destruct n; [done | by apply H2].
Qed.

(** C34: A hide is never lost: from any state, after [_onHide] and any
    events that are not [_onShow], firing the timers still pending leaves
    the menu hidden with no timer left. *)
Theorem hide_is_never_lost (s : menu_state) (es : list menu_event) :
  Forall (fun e => e <> Show) es ->
  visible (run_menu (repeat Fire (length (pending (run_menu (Hide :: es) s))))
             (run_menu (Hide :: es) s)) = false /\
  pending (run_menu (repeat Fire (length (pending (run_menu (Hide :: es) s))))
             (run_menu (Hide :: es) s)) = [].
Proof.
  intros Hes. set (s1 := run_menu (Hide :: es) s).
  assert (Hj : hide_pending s1).
  { apply (hide_pending_run es (onHide s)); [done|]. right. unfold onHide. cbn.
    by destruct (pending s). }
  destruct (fire_all (length (pending s1)) s1 eq_refl) as [Hp Hv].
  split; [|done]. destruct Hj as [Hj|Hj].
  - destruct (length (pending s1)) eqn:Hl; [done|]. by apply Hv.
  - apply Hv. intros Hl. apply Hj. by apply length_zero_iff_nil.
Qed.

(** C36: [_onHide] overwrites [_hidingTimeout] without clearing the timer
    it held. From any reachable state, after two hides and a show the
    menu is shown, but the show cleared only the second timer: a timer is
    still pending, and firing the pending timers hides the menu that was
    just shown. *)
Theorem double_hide_hides_shown_menu (s : menu_state) :
  reachable s ->
  visible (run_menu [Hide; Hide; Show] s) = true /\
  pending (run_menu [Hide; Hide; Show] s) = (pending s ++ [next_timer s])%list /\
  visible (run_menu (repeat Fire (length (pending (run_menu [Hide; Hide; Show] s))))
             (run_menu [Hide; Hide; Show] s)) = false.
Proof.
  intros Hr. destruct (reachable_timers s Hr) as (_ & Hlt & _).
  assert (Hp : pending (run_menu [Hide; Hide; Show] s) = (pending s ++ [next_timer s])%list).
  { cbn. rewrite <- app_assoc. cbn. rewrite list.filter_app, filter_keep_all
      by (refine (Forall_impl _ _ Hlt); intros; simpl in *; lia).
    rewrite filter_cons, decide_True by lia. rewrite filter_cons, decide_False by congruence.
    by rewrite filter_nil. }
  split; [done|]. split; [exact Hp|].
  destruct (fire_all _ (run_menu [Hide; Hide; Show] s) eq_refl) as [_ Hv]. apply Hv.
  rewrite Hp, length_app. simpl. lia.
Qed.


(** ** Witnesses *)

Lemma menu_has_no_items_for_render_commit_witness :
  renderContextMenuContents None (Some (mkMenuData "render" None None)) <>
  Return (MenuItems [ZoomToBatch; CopySummary], []).
Proof.
  apply (menu_has_no_items_for_render_commit None (mkMenuData "render" None None) Render).
  - reflexivity.
  - left. reflexivity.
Defined.


Lemma hide_then_show_cancels_witness :
  pending (onShow (onHide menu_initial)) = [] /\ visible (onShow (onHide menu_initial)) = true.
Proof. apply (hide_then_show_cancels menu_initial). constructor. Defined.

Lemma hide_is_never_lost_witness :
  visible (run_menu [Hide; Fire; Fire] menu_initial) = false /\
  pending (run_menu [Hide; Fire; Fire] menu_initial) = [].
Proof.
  apply (hide_is_never_lost menu_initial [Fire; Hide]).
  repeat constructor; discriminate.
Defined.

Lemma work_menu_only_logs_witness :
  render None (mapStateToProps (Some (ClickedMeasure (mkMeasure LayoutEffects 0 1 High 5 2)))) =
    Return (RenderContextMenu "ReactContextMenu" (MenuItems [ZoomToBatch; CopySummary]), []) /\
  map (fun i => menu_action i (clicked_data (ClickedMeasure (mkMeasure LayoutEffects 0 1 High 5 2))))
    [ZoomToBatch; CopySummary] = [ConsoleLog "_zoomToBatch()"; ConsoleLog "_copySummary()"].
Proof. apply work_menu_only_logs; discriminate. Defined.

(** From a state where the menu was hidden once and shown again. *)
Lemma double_hide_hides_shown_menu_witness :
  reachable (onShow (onHide menu_initial)) /\
  visible (run_menu [Hide; Hide; Show] (onShow (onHide menu_initial))) = true /\
  pending (run_menu [Hide; Hide; Show] (onShow (onHide menu_initial))) = [1] /\
  visible (run_menu (repeat Fire 1) (run_menu [Hide; Hide; Show] (onShow (onHide menu_initial))))
    = false.
Proof.
  assert (Hr : reachable (onShow (onHide menu_initial))).
  { apply (reach_step (onHide menu_initial)); [|constructor].
    apply (reach_step menu_initial); constructor. }
  split; [exact Hr|].
  destruct (double_hide_hides_shown_menu _ Hr) as (Hv & Hp & Hf).
  split; [exact Hv|]. split; [exact Hp|]. rewrite Hp in Hf. exact Hf.
Defined.
