(* ===== verification/Views.v ===== *)
(** * What the tooltip and the menu show of the processor's events

    The three sources meet here: the processor pushes an event for a
    [--schedule-state-update-<name>-<stack>] marker
    ([reactProfilerProcessor.js], lines 260-272); the tooltip
    ([TooltipReactEvent], [React.js] lines 56-100) and the context menu
    ([render] and the copy actions, [ReactContextMenu.js] lines 88-96 and
    166-182) read that event. [view_event] collects what a user sees of
    an event: its tooltip, the rendered menu, and the effect of each item
    the menu offers. *)

From S2P Require Import Prelude Types Markers Names Processor ProcessorInvariant ProcessorFacts Tooltip ContextMenu.

Local Open Scope string_scope.
Local Open Scope profiler_scope.

Record event_view : Type := mkEventView {
  ev_tooltip : event_tooltip;
  ev_menu : outcome unit (menu_render * list menu_log);
  ev_clicks : list menu_effect
}.

(** The effects of the items of a rendered menu. *)
Definition menu_clicks (r : outcome unit (menu_render * list menu_log)) (d : menu_data)
    : list menu_effect :=
  match r with
  | Return (RenderContextMenu _ (MenuItems items), _) => map (fun i => menu_action i d) items
  | _ => []
  end.

Definition view_event (window_event : option string) (zeroAt : Z) (ev : react_event) : event_view :=
  let d := mapStateToProps (Some (ClickedEvent ev)) in
  mkEventView (TooltipReactEvent ev zeroAt) (render window_event d)
    (menu_clicks (render window_event d) (clicked_data (ClickedEvent ev))).

(** The current group after a write at the current key. *)
Lemma cur_group_set_cur s g g' :
  cur_group s = Some g ->
  cur_group (mkState (ptable_set (cur_group_key s) g' (st_data s))
               (st_metadata s) (st_priority s) (st_uid s) (st_log s)) = Some g'.
Proof.
  intros Hg. unfold cur_group at 1. cbn [st_data st_priority].
  apply ptable_get_set_eq. exact (cur_group_key_known s g Hg).
Qed.

(** Every event gets the copy items; what they copy are its fields. *)
Lemma view_event_fields window_event zeroAt ev :
  view_event window_event zeroAt ev =
  mkEventView (TooltipReactEvent ev zeroAt)
    (Return (RenderContextMenu "ReactContextMenu" (MenuItems [CopyComponentName; CopyComponentStack]), []))
    [CopyToClipboard (event_componentName ev); CopyToClipboard (event_componentStack ev)].
Proof. by destruct ev. Qed.

(** C38: Composition of the three sources on a state update: on a context
    with a data group, a [--schedule-state-update-] marker whose name and
    stack hold no ['-'] appends one event; its tooltip shows the name
    (when not empty), the title "state update scheduled", the time since
    [zeroAt] and the stack formatted by [formatComponentStack]; its menu
    renders the two copy items with no warning, and they copy exactly the
    name and the stack of the marker. *)
Theorem state_update_presented (s : pstate) (g : data_group) (n : string) (cs : option string)
    (ts zeroAt : Z) (window_event : option string) :
  cur_group s = Some g -> component_ok n cs = true ->
  exists ev s',
    processEvent (user_timing ("--schedule-state-update-" +:+ component_text n cs) ts) s =
      Return (tt, s') /\
    cur_group s' = Some (mkGroup (events g ++ [ev]) (measures g)) /\
    view_event window_event zeroAt ev =
      mkEventView
        (mkEventTooltip (js_truthy (Some n)) (Some "state update scheduled") (ts - zeroAt)
           (option_map formatComponentStack (js_truthy cs)))
        (Return (RenderContextMenu "ReactContextMenu"
                   (MenuItems [CopyComponentName; CopyComponentStack]), []))
        [CopyToClipboard (Some n); CopyToClipboard cs].
Proof.
  intros Hg Hok. rewrite (state_update_run s g _ ts Hg), (component_parts_text n cs Hok).
  eexists _, _. split; [reflexivity|]. split; [exact (cur_group_set_cur s g _ Hg)|].
  rewrite view_event_fields. reflexivity.
Qed.

(** A [schedule-render] event has no component fields, yet its menu offers
    the two copy items: both copy [undefined]. *)
Lemma schedule_render_copies_undefined window_event zeroAt p t :
  ev_clicks (view_event window_event zeroAt (ScheduleRender p t)) =
  [CopyToClipboard None; CopyToClipboard None].
Proof. reflexivity. Qed.

(** ** Witness *)

Lemma state_update_presented_witness :
  exists ev s',
    processEvent (user_timing ("--schedule-state-update-" +:+ component_text "Foo" (Some "in Bar")) 7)
      initial_state = Return (tt, s') /\
    cur_group s' = Some (mkGroup (events empty_group ++ [ev]) (measures empty_group)) /\
    view_event None 2 ev =
      mkEventView
        (mkEventTooltip (js_truthy (Some "Foo")) (Some "state update scheduled") (7 - 2)
           (option_map formatComponentStack (js_truthy (Some "in Bar"))))
        (Return (RenderContextMenu "ReactContextMenu"
                   (MenuItems [CopyComponentName; CopyComponentStack]), []))
        [CopyToClipboard (Some "Foo"); CopyToClipboard (Some "in Bar")].
Proof.
  apply (state_update_presented initial_state empty_group "Foo" (Some "in Bar") 7 2 None).
  - reflexivity.
  - vm_compute. reflexivity.
Defined.
