(* ===== verification/Timeline.v ===== *)
(** * The abstract timeline and the refinement theorem

    What the processor promises on well-formed input (spec, sections 4.1
    and 8): for a trace of properly nested work within one priority, the
    stacks end empty, nothing is logged, and every measure has the type,
    depth, batch id, start and duration ([stop - start]) of the interval it
    records. The trace is abstract: effect intervals form trees
    ([etree]/[eforest]), a batch is an idle span holding render segments
    and a commit with its nested effects, a cancelled batch ends with a
    [--render-cancel] of its last render, and a timeline is a sequence of
    batches, cancelled batches, top-level effect trees and events
    (scheduled renders, state updates, suspensions). [timeline_markers]
    prints a timeline as the markers the instrumentation emits,
    [timeline_measures] and [timeline_events] are the data the spec says
    they stand for, and the refinement theorem states that
    [reactProfilerProcessor] computes exactly that data.

    The proofs run the handlers on states seen through their current
    context ([at_ctx]): the step lemmas of the first section give the
    effect of each helper on such a state. *)

From S2P Require Import Prelude Types Markers Names Processor ProcessorInvariant ProcessorFacts.
From Stdlib Require Import Ascii.

Local Open Scope string_scope.
Local Open Scope profiler_scope.

(** ** States seen through the current context *)

(** The state whose current priority's data group is [g] and metadata is
    [m], everything else as in [s]. *)
Definition at_ctx (s : pstate) (g : data_group) (m : metadata) : pstate :=
  mkState (ptable_set (st_priority s) g (st_data s))
    (ptable_set (st_priority s) m (st_metadata s))
    (st_priority s) (st_uid s) (st_log s).

(** [s] with the counter [uidCounter] set to [n]. *)
Definition with_uid (s : pstate) (n : nat) : pstate :=
  mkState (st_data s) (st_metadata s) (st_priority s) n (st_log s).

Section Steps.
Context (s : pstate) (Hk : known_priority (st_priority s) = true).

Lemma cur_group_at g m : cur_group (at_ctx s g m) = Some g.
Proof.
  unfold cur_group, cur_group_key, at_ctx. cbn. rewrite group_key_known by done.
  by apply ptable_get_set_eq.
Qed.

Lemma cur_meta_at g m : cur_meta (at_ctx s g m) = m.
Proof. unfold cur_meta, at_ctx. cbn. by rewrite ptable_get_set_eq. Qed.

Lemma cur_meta_key_at g m : cur_meta_key (at_ctx s g m) = st_priority s.
Proof. unfold cur_meta_key, at_ctx. cbn. by rewrite Hk. Qed.

Lemma at_ctx_at g m g' m' : at_ctx (at_ctx s g m) g' m' = at_ctx s g' m'.
Proof. unfold at_ctx. cbn. by rewrite !ptable_set_set. Qed.

Lemma update_meta_at f g m :
  update_meta f (at_ctx s g m) = Return (tt, at_ctx s g (f m)).
Proof.
  unfold update_meta, st_modify. rewrite cur_meta_key_at, cur_meta_at.
  unfold at_ctx. cbn. by rewrite ptable_set_set.
Qed.

Lemma set_cur_group_at g' g m :
  set_cur_group g' (at_ctx s g m) = Return (tt, at_ctx s g' m).
Proof.
  unfold set_cur_group, st_modify, at_ctx, cur_group_key. cbn.
  rewrite group_key_known by done. by rewrite ptable_set_set.
Qed.

Lemma markWorkStarted_at t ts g m :
  markWorkStarted t ts (at_ctx s g m) =
  Return (tt, at_ctx s
    (mkGroup (events g)
       (measures g ++ [mkMeasure t (batchUID m) (getDepth m) (st_priority s) ts 0]))
    (set_stack (mkFrame (getDepth m) (length (measures g)) ts t :: stack m) m)).
Proof.
  unfold markWorkStarted, st_bind at 1, st_get. rewrite cur_group_at, cur_meta_at.
  unfold st_bind. by rewrite update_meta_at, set_cur_group_at.
Qed.

Lemma markWorkCompleted_at t ts g m f rest ms :
  stack m = f :: rest -> fr_type f = t -> measures g !! fr_index f = Some ms ->
  markWorkCompleted t ts (at_ctx s g m) =
  Return (tt, at_ctx s
    (mkGroup (events g)
       (<[fr_index f := set_duration (ts - fr_startTime f) ms]> (measures g)))
    (set_stack rest m)).
Proof.
  intros Hst Ht Hms. unfold markWorkCompleted, st_bind at 1, st_get.
  rewrite cur_meta_at, Hst, decide_True by done. unfold st_bind.
  rewrite update_meta_at, cur_group_at, Hms, set_cur_group_at. done.
Qed.

Lemma throwIfIncomplete_at t g m :
  getLastType m <> Some t -> throwIfIncomplete t (at_ctx s g m) = Return (tt, at_ctx s g m).
Proof.
  intros Hne. unfold throwIfIncomplete, st_bind, st_get. rewrite cur_meta_at.
  unfold getLastType in Hne. destruct (stack m) as [|f rest]; [done|].
  rewrite decide_False by congruence. done.
Qed.

Lemma processEvent_at e g m :
  Filter.is_relevant e = true ->
  processEvent e (at_ctx s g m) =
  handleMarker (classify_name (mk_name e)) (mk_name e) (mk_startTime e) (at_ctx s g m).
Proof.
  intros Hr. rewrite processEvent_unfold, pre_event_known by done. done.
Qed.

Lemma mint_at g m :
  mint (at_ctx s g m) =
  if nextRenderShouldGenerateNewBatchID m
  then at_ctx (with_uid s (S (st_uid s))) g (mkMeta false (st_uid s) (stack m))
  else at_ctx s g m.
Proof.
  unfold mint. rewrite cur_meta_at. destruct (nextRenderShouldGenerateNewBatchID m); [|done].
  rewrite cur_meta_key_at. unfold at_ctx, with_uid. cbn. by rewrite ptable_set_set.
Qed.
End Steps.

Lemma with_uid_priority s n : st_priority (with_uid s n) = st_priority s.
Proof. done. Qed.

Lemma set_stack_same m : set_stack (stack m) m = m.
Proof. by destruct m. Qed.

Lemma processEvents_app l1 l2 s :
  processEvents (l1 ++ l2) s = (processEvents l1 ;; processEvents l2) s.
Proof.
  revert s. induction l1 as [|e l1 IH]; intros s; [done|]. cbn [app processEvents].
  unfold st_bind. destruct (processEvent e s) as [[[] s1]|]; [|done].
  rewrite IH. reflexivity.
Qed.

(** ** Effect intervals *)

Inductive effect_kind : Type := ELayout | EPassive.

Definition effect_type (k : effect_kind) : work_type :=
  match k with ELayout => LayoutEffects | EPassive => PassiveEffects end.

Definition effect_start_name (k : effect_kind) : string :=
  match k with
  | ELayout => "--layout-effects-start"
  | EPassive => "--passive-effects-start"
  end.

Definition effect_stop_name (k : effect_kind) : string :=
  match k with
  | ELayout => "--layout-effects-stop"
  | EPassive => "--passive-effects-stop"
  end.

(** An effect interval from [start] to [stop] with the intervals nested in
    it, in order. *)
Inductive etree : Type :=
  | ENode (k : effect_kind) (start : Z) (children : eforest) (stop : Z)
with eforest : Type :=
  | ENil
  | ECons (t : etree) (rest : eforest).

Scheme etree_mut := Induction for etree Sort Prop
with eforest_mut := Induction for eforest Sort Prop.
Combined Scheme etree_eforest_mut from etree_mut, eforest_mut.

(** The markers the instrumentation emits for an interval: its start, the
    markers of its children, its stop. *)
Fixpoint etree_markers (t : etree) : list marker :=
  match t with
  | ENode k a cs b =>
      user_timing (effect_start_name k) a ::
      eforest_markers cs ++ [user_timing (effect_stop_name k) b]
  end
with eforest_markers (f : eforest) : list marker :=
  match f with
  | ENil => []
  | ECons t f' => etree_markers t ++ eforest_markers f'
  end.

(** The measures an interval stands for (spec, sections 3 and 4.1): one per
    interval, in the order the intervals start, each with the depth of its
    nesting below [d] and the duration [stop - start]. *)
Fixpoint etree_measures (uid : nat) (p : priority) (d : nat) (t : etree) : list measure :=
  match t with
  | ENode k a cs b =>
      mkMeasure (effect_type k) uid d p a (b - a) :: eforest_measures uid p (S d) cs
  end
with eforest_measures (uid : nat) (p : priority) (d : nat) (f : eforest) : list measure :=
  match f with
  | ENil => []
  | ECons t f' => etree_measures uid p d t ++ eforest_measures uid p d f'
  end.

(** The nesting the fatal check of [throwIfIncomplete] admits: no interval
    starts directly inside one of its own kind, the outermost ones not
    inside an open frame [top] of their kind. *)
Fixpoint etree_ok (top : option work_type) (t : etree) : bool :=
  match t with
  | ENode k _ cs _ =>
      negb (bool_decide (top = Some (effect_type k))) && eforest_ok (Some (effect_type k)) cs
  end
with eforest_ok (top : option work_type) (f : eforest) : bool :=
  match f with
  | ENil => true
  | ECons t f' => etree_ok top t && eforest_ok top f'
  end.

Definition effect_start_kind (k : effect_kind) : marker_kind :=
  match k with ELayout => KLayoutEffectsStart | EPassive => KPassiveEffectsStart end.

Definition effect_stop_kind (k : effect_kind) : marker_kind :=
  match k with ELayout => KLayoutEffectsStop | EPassive => KPassiveEffectsStop end.

(** ** Running effect intervals *)

Lemma processEvents_cons e l s :
  processEvents (e :: l) s = (processEvent e ;; processEvents l) s.
Proof. reflexivity. Qed.

Lemma processEvents_one e s : processEvents [e] s = processEvent e s.
Proof. unfold processEvents, st_bind, st_ret. by destruct (processEvent e s) as [[[] ?]|]. Qed.

Lemma effect_markers_classified k :
  classify_name (effect_start_name k) = effect_start_kind k /\
  classify_name (effect_stop_name k) = effect_stop_kind k.
Proof. by destruct k. Qed.

Lemma effect_type_not_idle k : effect_type k <> RenderIdle.
Proof. by destruct k. Qed.

Lemma getDepth_push_effect k m d i a :
  getDepth (set_stack (mkFrame d i a (effect_type k) :: stack m) m) = S d.
Proof. unfold getDepth. cbn. rewrite decide_False; [done | apply effect_type_not_idle]. Qed.

Section EffectSteps.
Context (s : pstate) (Hk : known_priority (st_priority s) = true).

Lemma effect_start_step k a g m :
  getLastType m <> Some (effect_type k) ->
  processEvent (user_timing (effect_start_name k) a) (at_ctx s g m) =
  Return (tt, at_ctx s
    (mkGroup (events g)
       (measures g ++ [mkMeasure (effect_type k) (batchUID m) (getDepth m) (st_priority s) a 0]))
    (set_stack (mkFrame (getDepth m) (length (measures g)) a (effect_type k) :: stack m) m)).
Proof.
  intros Hne. rewrite processEvent_at by (done || by destruct k). cbn [mk_name mk_startTime user_timing].
  rewrite (proj1 (effect_markers_classified k)).
  transitivity ((throwIfIncomplete (effect_type k) ;; markWorkStarted (effect_type k) a)
                  (at_ctx s g m)); [by destruct k|].
  unfold st_bind. rewrite throwIfIncomplete_at by done. by apply markWorkStarted_at.
Qed.

Lemma effect_stop_step k b g m f rest ms :
  stack m = f :: rest -> fr_type f = effect_type k -> measures g !! fr_index f = Some ms ->
  processEvent (user_timing (effect_stop_name k) b) (at_ctx s g m) =
  Return (tt, at_ctx s
    (mkGroup (events g)
       (<[fr_index f := set_duration (b - fr_startTime f) ms]> (measures g)))
    (set_stack rest m)).
Proof.
  intros Hst Ht Hms. rewrite processEvent_at by (done || by destruct k).
  cbn [mk_name mk_startTime user_timing]. rewrite (proj2 (effect_markers_classified k)).
  transitivity (markWorkCompleted (effect_type k) b (at_ctx s g m)); [by destruct k|].
  by apply markWorkCompleted_at.
Qed.
End EffectSteps.

(** Running the markers of an interval from a context [m] leaves the
    context as it was and appends the interval's measures. *)
Definition etree_runs (t : etree) : Prop :=
  forall s g m, known_priority (st_priority s) = true ->
  etree_ok (getLastType m) t = true ->
  processEvents (etree_markers t) (at_ctx s g m) =
  Return (tt, at_ctx s
    (mkGroup (events g) (measures g ++ etree_measures (batchUID m) (st_priority s) (getDepth m) t))
    m).

Definition eforest_runs (f : eforest) : Prop :=
  forall s g m, known_priority (st_priority s) = true ->
  eforest_ok (getLastType m) f = true ->
  processEvents (eforest_markers f) (at_ctx s g m) =
  Return (tt, at_ctx s
    (mkGroup (events g) (measures g ++ eforest_measures (batchUID m) (st_priority s) (getDepth m) f))
    m).

Lemma etree_node_runs k a cs b : eforest_runs cs -> etree_runs (ENode k a cs b).
Proof.
  intros IH s g m Hk Hok. cbn [etree_ok] in Hok. apply andb_true_iff in Hok as [Htop Hcs].
  apply negb_true_iff, bool_decide_eq_false in Htop.
  cbn [etree_markers etree_measures]. rewrite processEvents_cons. unfold st_bind at 1.
  rewrite effect_start_step by done. rewrite processEvents_app. unfold st_bind.
  rewrite IH by (done || by rewrite getDepth_push_effect). cbn [events measures].
  rewrite processEvents_one, getDepth_push_effect, <- app_assoc. cbn [app].
  erewrite effect_stop_step; [| done | reflexivity | reflexivity | apply lookup_middle_length].
  cbn [fr_index fr_startTime events measures]. rewrite insert_middle_length. by destruct m.
Qed.

Lemma eforest_cons_runs t f : etree_runs t -> eforest_runs f -> eforest_runs (ECons t f).
Proof.
  intros IHt IHf s g m Hk Hok. cbn [eforest_ok] in Hok. apply andb_true_iff in Hok as [Ht Hf].
  cbn [eforest_markers eforest_measures]. rewrite processEvents_app. unfold st_bind.
  rewrite IHt by done. rewrite IHf by done. cbn. by rewrite app_assoc.
Qed.

Lemma etree_eforest_runs : (forall t, etree_runs t) /\ (forall f, eforest_runs f).
Proof.
  apply etree_eforest_mut.
  - intros k a cs IH b. by apply etree_node_runs.
  - intros s g m _ _. cbn [eforest_markers eforest_measures processEvents].
    rewrite app_nil_r. by destruct g.
  - intros t IHt f IHf. by apply eforest_cons_runs.
Qed.

Lemma etree_runs_all t : etree_runs t.
Proof. apply etree_eforest_runs. Qed.

Lemma eforest_runs_all f : eforest_runs f.
Proof. apply etree_eforest_runs. Qed.

(** ** Render and commit markers *)

(** The batch id a [--render-start] in context [m] records, and the state
    after its batch-id block (lines 215-218). *)
Definition batch_id (s : pstate) (m : metadata) : nat :=
  if nextRenderShouldGenerateNewBatchID m then st_uid s else batchUID m.

Definition after_mint (s : pstate) (m : metadata) : pstate :=
  if nextRenderShouldGenerateNewBatchID m then with_uid s (S (st_uid s)) else s.

Lemma after_mint_priority s m : st_priority (after_mint s m) = st_priority s.
Proof. unfold after_mint. by destruct (nextRenderShouldGenerateNewBatchID m). Qed.

Lemma mint_at_batch s g m :
  known_priority (st_priority s) = true ->
  mint (at_ctx s g m) = at_ctx (after_mint s m) g (mkMeta false (batch_id s m) (stack m)).
Proof.
  intros Hk. rewrite mint_at by done. unfold after_mint, batch_id.
  destruct m as [[] u st]; done.
Qed.

Lemma processEvent_render_start s a :
  processEvent (user_timing "--render-start" a) s =
  handleMarker KRenderStart "--render-start" a (pre_event s).
Proof. by rewrite processEvent_unfold. Qed.

Section RenderSteps.
Context (s : pstate) (Hk : known_priority (st_priority s) = true).

(** A [--render-start] in a context whose top frame is neither a render nor
    an idle span: the batch-id block, then an idle span and a render at
    the context's depth. *)
Lemma render_start_fresh a g m :
  getLastType m <> Some Render -> getLastType m <> Some RenderIdle ->
  processEvent (user_timing "--render-start" a) (at_ctx s g m) =
  Return (tt, at_ctx (after_mint s m)
    (mkGroup (events g)
       ((measures g ++ [mkMeasure RenderIdle (batch_id s m) (getDepth m) (st_priority s) a 0]) ++
        [mkMeasure Render (batch_id s m) (getDepth m) (st_priority s) a 0]))
    (mkMeta false (batch_id s m)
       (mkFrame (getDepth m) (S (length (measures g))) a Render ::
        mkFrame (getDepth m) (length (measures g)) a RenderIdle :: stack m))).
Proof.
  intros Hr Hi. rewrite processEvent_render_start, pre_event_known by done.
  rewrite handleMarker_render_start, mint_at_batch by done.
  assert (Hk' : known_priority (st_priority (after_mint s m)) = true)
    by by rewrite after_mint_priority.
  unfold st_bind at 1. rewrite throwIfIncomplete_at by done.
  unfold st_bind at 1, st_get. rewrite cur_meta_at by done. cbn [getLastType stack].
  fold (getLastType m). rewrite decide_False by done. unfold st_bind.
  rewrite markWorkStarted_at by done. cbn [events measures].
  rewrite markWorkStarted_at by done. cbn [events measures].
  rewrite after_mint_priority, length_snoc. unfold getDepth at 2. cbn.
  rewrite decide_True by done. reflexivity.
Qed.

(** A [--render-start] in a context whose top frame is an idle span and
    whose batch is already minted: a render at the idle span's depth. *)
Lemma render_start_in_idle a g id fi st :
  fr_type fi = RenderIdle ->
  processEvent (user_timing "--render-start" a) (at_ctx s g (mkMeta false id (fi :: st))) =
  Return (tt, at_ctx s
    (mkGroup (events g) (measures g ++ [mkMeasure Render id (fr_depth fi) (st_priority s) a 0]))
    (mkMeta false id (mkFrame (fr_depth fi) (length (measures g)) a Render :: fi :: st))).
Proof.
  intros Hi. rewrite processEvent_render_start, pre_event_known by done.
  rewrite handleMarker_render_start, mint_at by done. cbn [nextRenderShouldGenerateNewBatchID].
  unfold st_bind at 1. rewrite throwIfIncomplete_at by (cbn; congruence).
  unfold st_bind at 1, st_get. rewrite cur_meta_at by done. cbn [getLastType stack].
  rewrite decide_True by congruence. unfold st_bind, st_ret.
  rewrite markWorkStarted_at by done. unfold getDepth. cbn. by rewrite decide_True.
Qed.

(** A marker whose branch is one [markWorkCompleted t], on a context whose
    top frame has type [t]. *)
Lemma completion_step name t b g m f rest ms :
  Filter.is_relevant (user_timing name b) = true ->
  (forall s', handleMarker (classify_name name) name b s' = markWorkCompleted t b s') ->
  stack m = f :: rest -> fr_type f = t -> measures g !! fr_index f = Some ms ->
  processEvent (user_timing name b) (at_ctx s g m) =
  Return (tt, at_ctx s
    (mkGroup (events g) (<[fr_index f := set_duration (b - fr_startTime f) ms]> (measures g)))
    (set_stack rest m)).
Proof.
  intros Hr Hh Hst Ht Hms. rewrite processEvent_at by done. cbn [mk_name mk_startTime user_timing].
  rewrite Hh. by apply markWorkCompleted_at.
Qed.

(** [--commit-start]: set the new-batch flag and push a commit. *)
Lemma commit_start_step c g m :
  processEvent (user_timing "--commit-start" c) (at_ctx s g m) =
  Return (tt, at_ctx s
    (mkGroup (events g)
       (measures g ++ [mkMeasure Commit (batchUID m) (getDepth m) (st_priority s) c 0]))
    (mkMeta true (batchUID m) (mkFrame (getDepth m) (length (measures g)) c Commit :: stack m))).
Proof.
  rewrite processEvent_at by done. cbn [mk_name mk_startTime user_timing].
  change (classify_name "--commit-start") with KCommitStart.
  unfold handleMarker, st_bind at 1, st_get. unfold st_bind.
  rewrite update_meta_at, markWorkStarted_at by done. done.
Qed.

(** [--commit-stop]: complete the commit, then the idle span below it. *)
Lemma commit_stop_step e g m fc fi st mc mi :
  stack m = fc :: fi :: st -> fr_type fc = Commit -> fr_type fi = RenderIdle ->
  measures g !! fr_index fc = Some mc ->
  <[fr_index fc := set_duration (e - fr_startTime fc) mc]> (measures g) !! fr_index fi = Some mi ->
  processEvent (user_timing "--commit-stop" e) (at_ctx s g m) =
  Return (tt, at_ctx s
    (mkGroup (events g)
       (<[fr_index fi := set_duration (e - fr_startTime fi) mi]>
          (<[fr_index fc := set_duration (e - fr_startTime fc) mc]> (measures g))))
    (set_stack st m)).
Proof.
  intros Hst Hc Hi Hmc Hmi. rewrite processEvent_at by done.
  cbn [mk_name mk_startTime user_timing].
  change (classify_name "--commit-stop") with KCommitStop.
  unfold handleMarker, st_bind at 1, st_get. unfold st_bind.
  rewrite (markWorkCompleted_at s Hk _ _ _ _ _ _ _ Hst Hc Hmc).
  by erewrite markWorkCompleted_at.
Qed.

(** [--render-cancel]: set the new-batch flag, complete the render, then
    the idle span below it. *)
Lemma cancel_step t g b id fr fi st mr mi :
  fr_type fr = Render -> fr_type fi = RenderIdle ->
  measures g !! fr_index fr = Some mr ->
  <[fr_index fr := set_duration (t - fr_startTime fr) mr]> (measures g) !! fr_index fi = Some mi ->
  processEvent (user_timing "--render-cancel" t) (at_ctx s g (mkMeta b id (fr :: fi :: st))) =
  Return (tt, at_ctx s
    (mkGroup (events g)
       (<[fr_index fi := set_duration (t - fr_startTime fi) mi]>
          (<[fr_index fr := set_duration (t - fr_startTime fr) mr]> (measures g))))
    (mkMeta true id st)).
Proof.
  intros Hr Hi Hmr Hmi. rewrite processEvent_at by done.
  cbn [mk_name mk_startTime user_timing].
  change (classify_name "--render-cancel") with KRenderCancel.
  unfold handleMarker, st_bind at 1, st_get. unfold st_bind.
  rewrite update_meta_at by done.
  rewrite (markWorkCompleted_at s Hk Render t g (set_next true (mkMeta b id (fr :: fi :: st)))
             fr (fi :: st) mr eq_refl Hr Hmr).
  rewrite (markWorkCompleted_at s Hk RenderIdle t
             (mkGroup (events g) (<[fr_index fr := set_duration (t - fr_startTime fr) mr]> (measures g)))
             (set_stack (fi :: st) (set_next true (mkMeta b id (fr :: fi :: st)))) fi st mi
             eq_refl Hi Hmi).
  reflexivity.
Qed.
End RenderSteps.

(** ** Batches *)

(** A render segment: a [--render-start] and the [--render-yield] or
    [--render-stop] that ends it. *)
Record segment : Type := mkSegment {
  seg_start : Z;
  seg_stop : Z;
  seg_yields : bool
}.

Definition segment_stop_name (sg : segment) : string :=
  if seg_yields sg then "--render-yield" else "--render-stop".

Definition segment_markers (sg : segment) : list marker :=
  [user_timing "--render-start" (seg_start sg); user_timing (segment_stop_name sg) (seg_stop sg)].

Definition segment_measure (uid : nat) (p : priority) (d : nat) (sg : segment) : measure :=
  mkMeasure Render uid d p (seg_start sg) (seg_stop sg - seg_start sg).

(** A batch: render segments, at least one, inside an idle span; then a
    commit with the effects nested in it, whose stop also ends the idle
    span (spec, section 4.1: "commit always ends the idle span it was
    nested in"). *)
Record batch : Type := mkBatch {
  b_first : segment;
  b_more : list segment;
  b_commit_start : Z;
  b_effects : eforest;
  b_commit_stop : Z
}.

Definition batch_markers (b : batch) : list marker :=
  segment_markers (b_first b) ++ flat_map segment_markers (b_more b) ++
  user_timing "--commit-start" (b_commit_start b) ::
  eforest_markers (b_effects b) ++ [user_timing "--commit-stop" (b_commit_stop b)].

(** The measures a batch stands for: the idle span from the first render's
    start to the commit's stop, each render segment, the commit, and the
    effects one level below the commit. *)
Definition batch_measures (uid : nat) (p : priority) (d : nat) (b : batch) : list measure :=
  mkMeasure RenderIdle uid d p (seg_start (b_first b)) (b_commit_stop b - seg_start (b_first b)) ::
  map (segment_measure uid p d) (b_first b :: b_more b) ++
  mkMeasure Commit uid d p (b_commit_start b) (b_commit_stop b - b_commit_start b) ::
  eforest_measures uid p (S d) (b_effects b).

Definition batch_ok (b : batch) : bool := eforest_ok (Some Commit) (b_effects b).

Lemma segment_stop_completes sg b s' :
  handleMarker (classify_name (segment_stop_name sg)) (segment_stop_name sg) b s' =
  markWorkCompleted Render b s'.
Proof. unfold segment_stop_name. by destruct (seg_yields sg). Qed.

Lemma segment_stop_relevant sg b : Filter.is_relevant (user_timing (segment_stop_name sg) b) = true.
Proof. unfold segment_stop_name. by destruct (seg_yields sg). Qed.

Lemma getDepth_idle_top b id fi st :
  fr_type fi = RenderIdle -> getDepth (mkMeta b id (fi :: st)) = fr_depth fi.
Proof. intros Hi. unfold getDepth. cbn. by rewrite decide_True. Qed.

Lemma getDepth_busy_top b id f st :
  fr_type f <> RenderIdle -> getDepth (mkMeta b id (f :: st)) = S (fr_depth f).
Proof. intros Hi. unfold getDepth. cbn. by rewrite decide_False. Qed.

Section BatchRuns.
Context (s : pstate) (Hk : known_priority (st_priority s) = true).

Lemma segment_in_idle sg g id fi st :
  fr_type fi = RenderIdle ->
  processEvents (segment_markers sg) (at_ctx s g (mkMeta false id (fi :: st))) =
  Return (tt, at_ctx s
    (mkGroup (events g) (measures g ++ [segment_measure id (st_priority s) (fr_depth fi) sg]))
    (mkMeta false id (fi :: st))).
Proof.
  intros Hi. unfold segment_markers. rewrite processEvents_cons. unfold st_bind at 1.
  rewrite render_start_in_idle by done. rewrite processEvents_one.
  erewrite completion_step; [| done | apply segment_stop_relevant | apply segment_stop_completes
                             | reflexivity | reflexivity | apply lookup_snoc_length].
  cbn [events measures fr_index fr_startTime]. by rewrite insert_snoc_length.
Qed.

Lemma segments_in_idle sgs g id fi st :
  fr_type fi = RenderIdle ->
  processEvents (flat_map segment_markers sgs) (at_ctx s g (mkMeta false id (fi :: st))) =
  Return (tt, at_ctx s
    (mkGroup (events g) (measures g ++ map (segment_measure id (st_priority s) (fr_depth fi)) sgs))
    (mkMeta false id (fi :: st))).
Proof.
  intros Hi. revert g. induction sgs as [|sg sgs IH]; intros g.
  - cbn. rewrite app_nil_r. by destruct g.
  - cbn [flat_map]. rewrite processEvents_app. unfold st_bind.
    rewrite segment_in_idle, IH by done. cbn. by rewrite <- app_assoc.
Qed.

(** The first segment of a batch opens the idle span and mints the batch's
    id if the context asks for a new one. *)
Lemma first_segment sg g m :
  getLastType m <> Some Render -> getLastType m <> Some RenderIdle ->
  processEvents (segment_markers sg) (at_ctx s g m) =
  Return (tt, at_ctx (after_mint s m)
    (mkGroup (events g)
       ((measures g ++
         [mkMeasure RenderIdle (batch_id s m) (getDepth m) (st_priority s) (seg_start sg) 0]) ++
        [segment_measure (batch_id s m) (st_priority s) (getDepth m) sg]))
    (mkMeta false (batch_id s m)
       (mkFrame (getDepth m) (length (measures g)) (seg_start sg) RenderIdle :: stack m))).
Proof.
  intros Hr Hi. unfold segment_markers. rewrite processEvents_cons. unfold st_bind at 1.
  rewrite render_start_fresh by done. rewrite processEvents_one.
  set (i0 := mkMeasure RenderIdle (batch_id s m) (getDepth m) (st_priority s) (seg_start sg) 0).
  rewrite <- (length_snoc (measures g) i0).
  erewrite completion_step; [| by rewrite after_mint_priority | apply segment_stop_relevant
    | apply segment_stop_completes | reflexivity | reflexivity | apply lookup_snoc_length].
  cbn [events measures fr_index fr_startTime]. rewrite insert_snoc_length. reflexivity.
Qed.

(** The commit of a batch: inside the idle span [fi], push the commit, run
    the effects one level below it, then complete the commit and the idle
    span. *)
Lemma commit_in_idle c e z g id fi st mi :
  fr_type fi = RenderIdle -> measures g !! fr_index fi = Some mi ->
  fr_index fi < length (measures g) -> eforest_ok (Some Commit) e = true ->
  processEvents (user_timing "--commit-start" c :: eforest_markers e ++
                 [user_timing "--commit-stop" z])%list (at_ctx s g (mkMeta false id (fi :: st))) =
  Return (tt, at_ctx s
    (mkGroup (events g)
       (<[fr_index fi := set_duration (z - fr_startTime fi) mi]>
          (measures g ++ mkMeasure Commit id (fr_depth fi) (st_priority s) c (z - c) ::
           eforest_measures id (st_priority s) (S (fr_depth fi)) e)%list))
    (mkMeta true id st)).
Proof.
  intros Hi Hmi Hlt He. rewrite processEvents_cons. unfold st_bind at 1.
  rewrite commit_start_step by done. cbn [batchUID stack events measures].
  rewrite getDepth_idle_top by done. rewrite processEvents_app. unfold st_bind at 1.
  rewrite eforest_runs_all by done. cbn [events measures batchUID].
  rewrite getDepth_busy_top by done. cbn [fr_depth]. rewrite processEvents_one, <- app_assoc.
  cbn [app]. erewrite commit_stop_step; [| done | reflexivity | done | done | apply lookup_middle_length |].
  - cbn [fr_index fr_startTime events measures]. rewrite insert_middle_length. done.
  - cbn [fr_index fr_startTime measures]. rewrite insert_middle_length, lookup_app_l by done.
    exact Hmi.
Qed.
End BatchRuns.

(** Running a batch from a context whose top frame is neither a render nor
    an idle span: the batch's measures are appended with the batch id
    [batch_id], the stack is back as it was, and the next render will mint
    a new id. *)
Lemma batch_run s b g m :
  known_priority (st_priority s) = true ->
  getLastType m <> Some Render -> getLastType m <> Some RenderIdle -> batch_ok b = true ->
  processEvents (batch_markers b) (at_ctx s g m) =
  Return (tt, at_ctx (after_mint s m)
    (mkGroup (events g)
       (measures g ++ batch_measures (batch_id s m) (st_priority s) (getDepth m) b))
    (mkMeta true (batch_id s m) (stack m))).
Proof.
  intros Hk Hr Hi Hb.
  assert (Hk' : known_priority (st_priority (after_mint s m)) = true)
    by by rewrite after_mint_priority.
  unfold batch_markers. rewrite processEvents_app. unfold st_bind at 1.
  rewrite first_segment by done. rewrite processEvents_app. unfold st_bind at 1.
  rewrite segments_in_idle by done. cbn [events measures fr_depth].
  rewrite after_mint_priority, <- !app_assoc. cbn [app].
  erewrite commit_in_idle; [| done | done | apply lookup_middle_length
                          | cbn [fr_index measures]; rewrite length_app; cbn; lia | exact Hb].
  cbn [fr_index fr_startTime fr_depth events measures]. rewrite <- app_assoc. cbn [app].
  rewrite insert_middle_length, after_mint_priority. reflexivity.
Qed.

(** ** Cancelled batches *)

(** A cancelled batch: completed render segments, then a render that a
    [--render-cancel] ends together with the idle span. *)
Record cancelled : Type := mkCancelled {
  c_done : list segment;
  c_last : Z;
  c_cancel : Z
}.

Definition cancelled_markers (c : cancelled) : list marker :=
  flat_map segment_markers (c_done c) ++
  [user_timing "--render-start" (c_last c); user_timing "--render-cancel" (c_cancel c)].

(** The idle span starts with the batch's first render. *)
Definition cancelled_start (c : cancelled) : Z :=
  match c_done c with
  | [] => c_last c
  | sg :: _ => seg_start sg
  end.

Definition cancelled_measures (uid : nat) (p : priority) (d : nat) (c : cancelled) : list measure :=
  mkMeasure RenderIdle uid d p (cancelled_start c) (c_cancel c - cancelled_start c) ::
  map (segment_measure uid p d) (c_done c) ++
  [mkMeasure Render uid d p (c_last c) (c_cancel c - c_last c)].

(** The cancel of a render pushed last, above an idle span addressing an
    earlier measure. *)
Lemma cancel_tail s t ev l r0 i0 b id fr fi st :
  known_priority (st_priority s) = true ->
  fr_type fr = Render -> fr_type fi = RenderIdle ->
  fr_index fr = length l -> l !! fr_index fi = Some i0 ->
  processEvent (user_timing "--render-cancel" t)
    (at_ctx s (mkGroup ev (l ++ [r0])) (mkMeta b id (fr :: fi :: st))) =
  Return (tt, at_ctx s
    (mkGroup ev (<[fr_index fi := set_duration (t - fr_startTime fi) i0]> l ++
                 [set_duration (t - fr_startTime fr) r0]))
    (mkMeta true id st)).
Proof.
  intros Hk Hr Hi Hidx Hl. pose proof (lookup_lt_Some _ _ _ Hl) as Hlt.
  erewrite cancel_step; [| done | done | done | cbn; rewrite Hidx; apply lookup_snoc_length |].
  - cbn [events measures]. rewrite Hidx, insert_snoc_length, insert_app_l by done. reflexivity.
  - cbn [measures]. rewrite Hidx, insert_snoc_length, lookup_app_l by done. exact Hl.
Qed.

Lemma cancelled_run s c g m :
  known_priority (st_priority s) = true ->
  getLastType m <> Some Render -> getLastType m <> Some RenderIdle ->
  processEvents (cancelled_markers c) (at_ctx s g m) =
  Return (tt, at_ctx (after_mint s m)
    (mkGroup (events g)
       (measures g ++ cancelled_measures (batch_id s m) (st_priority s) (getDepth m) c))
    (mkMeta true (batch_id s m) (stack m))).
Proof.
  intros Hk Hr Hi.
  assert (Hk' : known_priority (st_priority (after_mint s m)) = true)
    by by rewrite after_mint_priority.
  unfold cancelled_markers, cancelled_measures, cancelled_start.
  destruct (c_done c) as [|sg rest]; cbn [flat_map app map].
  - rewrite processEvents_cons. unfold st_bind at 1. rewrite render_start_fresh by done.
    rewrite processEvents_one.
    erewrite cancel_tail; [| done | done | done | symmetry; apply length_snoc | apply lookup_snoc_length].
    cbn [fr_index fr_startTime]. rewrite insert_snoc_length, <- app_assoc. reflexivity.
  - rewrite <- app_assoc, processEvents_app. unfold st_bind at 1. rewrite first_segment by done.
    rewrite processEvents_app. unfold st_bind at 1. rewrite segments_in_idle by done.
    rewrite processEvents_cons. unfold st_bind at 1. rewrite render_start_in_idle by done.
    rewrite processEvents_one. cbn [events measures fr_depth].
    erewrite cancel_tail; [| done | done | done | reflexivity |].
    2: { cbn [fr_index]. rewrite <- !app_assoc. cbn [app]. apply lookup_middle_length. }
    cbn [fr_index fr_startTime]. rewrite <- !app_assoc. cbn [app].
    rewrite insert_middle_length, <- app_assoc, after_mint_priority. cbn [app]. reflexivity.
Qed.

(** ** Timelines *)

(** What one priority's context sees, one after the other: batches,
    cancelled batches, effect intervals outside any batch, and the three
    kinds of events. *)
Inductive item : Type :=
  | IBatch (b : batch)
  | ICancelled (c : cancelled)
  | IEffect (t : etree)
  | IScheduleRender (t : Z)
  | IStateUpdate (name : string) (cstack : option string) (t : Z)
  | ISuspend (name : string) (cstack : option string) (t : Z).

Definition item_markers (i : item) : list marker :=
  match i with
  | IBatch b => batch_markers b
  | ICancelled c => cancelled_markers c
  | IEffect t => etree_markers t
  | IScheduleRender t => [user_timing "--schedule-render" t]
  | IStateUpdate n cs t => [user_timing ("--schedule-state-update-" +:+ component_text n cs) t]
  | ISuspend n cs t => [user_timing ("--suspend-" +:+ component_text n cs) t]
  end.

Definition timeline_markers (items : list item) : list marker := flat_map item_markers items.

(** Batches and cancelled batches use a batch id and set the new-batch
    flag again. *)
Definition item_opens_batch (i : item) : bool :=
  match i with IBatch _ | ICancelled _ => true | _ => false end.

(** The measures of an item at depth [d] in priority [p]: a batch's with
    the id [id] it takes, an effect interval's with the context's current
    id [cur]. *)
Definition item_measures (p : priority) (d id cur : nat) (i : item) : list measure :=
  match i with
  | IBatch b => batch_measures id p d b
  | ICancelled c => cancelled_measures id p d c
  | IEffect t => etree_measures cur p d t
  | _ => []
  end.

(** The events of an item, [casc] telling whether a commit frame is open
    in the context. *)
Definition item_events (p : priority) (casc : bool) (i : item) : list react_event :=
  match i with
  | IScheduleRender t => [ScheduleRender p t]
  | IStateUpdate n cs t => [ScheduleStateUpdate p casc t n cs]
  | ISuspend n cs t => [Suspend p t n cs]
  | _ => []
  end.

(** The measures of a timeline run in a context at depth [d] whose
    new-batch flag is [next] and batch id [cur], with the counter at [uid]:
    every batch takes a fresh id from the counter if the flag asks for one
    (and sets the flag again); effect intervals take the context's current
    id. *)
Fixpoint timeline_measures (p : priority) (d : nat) (next : bool) (cur uid : nat)
    (items : list item) : list measure :=
  match items with
  | [] => []
  | i :: rest =>
      let id := if next then uid else cur in
      item_measures p d id cur i ++
      if item_opens_batch i
      then timeline_measures p d true id (if next then S uid else uid) rest
      else timeline_measures p d next cur uid rest
  end.

Definition timeline_events (p : priority) (casc : bool) (items : list item) : list react_event :=
  flat_map (item_events p casc) items.

(** Batches need a context whose top frame is neither a render nor an idle
    span; effect intervals the nesting of [etree_ok]; component names and
    stacks no ['-']. *)
Definition item_ok (top : option work_type) (i : item) : bool :=
  match i with
  | IBatch b =>
      negb (bool_decide (top = Some Render)) && negb (bool_decide (top = Some RenderIdle)) &&
      batch_ok b
  | ICancelled _ =>
      negb (bool_decide (top = Some Render)) && negb (bool_decide (top = Some RenderIdle))
  | IEffect t => etree_ok top t
  | IScheduleRender _ => true
  | IStateUpdate n cs _ | ISuspend n cs _ => component_ok n cs
  end.

Definition timeline_ok (top : option work_type) (items : list item) : bool :=
  forallb (item_ok top) items.

Lemma with_uid_with_uid s a b : with_uid (with_uid s a) b = with_uid s b.
Proof. done. Qed.

Lemma with_uid_self s : with_uid s (st_uid s) = s.
Proof. by destruct s. Qed.

Lemma after_mint_with_uid s m :
  after_mint s m =
  with_uid s (if nextRenderShouldGenerateNewBatchID m then S (st_uid s) else st_uid s).
Proof.
  unfold after_mint. destruct (nextRenderShouldGenerateNewBatchID m); [done|].
  by rewrite with_uid_self.
Qed.

Lemma pushEvent_at s ev g m :
  known_priority (st_priority s) = true ->
  pushEvent ev (at_ctx s g m) = Return (tt, at_ctx s (mkGroup (events g ++ [ev]) (measures g)) m).
Proof.
  intros Hk. unfold pushEvent, st_bind, st_get. rewrite cur_group_at by done.
  by rewrite set_cur_group_at.
Qed.

(** An event marker appends its event. *)
Lemma event_run s g m name k ev ts :
  known_priority (st_priority s) = true ->
  Filter.is_relevant (user_timing name ts) = true -> classify_name name = k ->
  handleMarker k name ts (at_ctx s g m) = pushEvent ev (at_ctx s g m) ->
  processEvents [user_timing name ts] (at_ctx s g m) =
  Return (tt, at_ctx s (mkGroup (events g ++ [ev]) (measures g)) m).
Proof.
  intros Hk Hr Hc Hh. rewrite processEvents_one, processEvent_at by done.
  cbn [mk_name mk_startTime user_timing]. rewrite Hc, Hh. by apply pushEvent_at.
Qed.

(** One item from a context [m]. *)
Lemma item_run s g m i :
  known_priority (st_priority s) = true -> item_ok (getLastType m) i = true ->
  processEvents (item_markers i) (at_ctx s g m) =
  Return (tt, at_ctx (if item_opens_batch i then after_mint s m else s)
    (mkGroup (events g ++ item_events (st_priority s) (has_open_commit m) i)
       (measures g ++ item_measures (st_priority s) (getDepth m) (batch_id s m) (batchUID m) i))
    (if item_opens_batch i then mkMeta true (batch_id s m) (stack m) else m)).
Proof.
  intros Hk Hok. destruct i as [b|c|t|ts|n cs ts|n cs ts]; cbn [item_ok] in Hok;
    cbn [item_markers item_opens_batch item_events item_measures]; rewrite ?app_nil_r.
  - apply andb_true_iff in Hok as [Hb Hbok]. apply andb_true_iff in Hb as [Hr Hi].
    apply negb_true_iff, bool_decide_eq_false in Hr, Hi. by apply batch_run.
  - apply andb_true_iff in Hok as [Hr Hi].
    apply negb_true_iff, bool_decide_eq_false in Hr, Hi. by apply cancelled_run.
  - rewrite etree_runs_all by done. by destruct g.
  - by apply (event_run s g m _ KScheduleRender).
  - apply (event_run s g m _ (KScheduleStateUpdate (component_text n cs))); [done | done
      | apply classify_state_update |].
    unfold handleMarker, st_bind at 1, st_get. rewrite cur_meta_at by done.
    by rewrite component_parts_text.
  - apply (event_run s g m _ (KSuspend (component_text n cs))); [done | done
      | apply classify_suspend |].
    unfold handleMarker, st_bind at 1, st_get. by rewrite component_parts_text.
Qed.

Lemma timeline_run items : forall s g m,
  known_priority (st_priority s) = true -> timeline_ok (getLastType m) items = true ->
  exists n m',
    processEvents (timeline_markers items) (at_ctx s g m) =
    Return (tt, at_ctx (with_uid s n)
      (mkGroup (events g ++ timeline_events (st_priority s) (has_open_commit m) items)
         (measures g ++ timeline_measures (st_priority s) (getDepth m)
                          (nextRenderShouldGenerateNewBatchID m) (batchUID m) (st_uid s) items))
      m') /\
    stack m' = stack m.
Proof.
  induction items as [|i items IH]; intros s g m Hk Hok.
  - exists (st_uid s), m. rewrite with_uid_self. cbn. rewrite !app_nil_r. by destruct g.
  - cbn [timeline_ok forallb] in Hok. apply andb_true_iff in Hok as [Hi Hrest].
    cbn [timeline_markers flat_map]. rewrite processEvents_app. unfold st_bind.
    rewrite item_run by done.
    set (s1 := if item_opens_batch i then after_mint s m else s).
    set (m1 := if item_opens_batch i then mkMeta true (batch_id s m) (stack m) else m).
    assert (Hu : s1 = with_uid s (if item_opens_batch i && nextRenderShouldGenerateNewBatchID m
                                  then S (st_uid s) else st_uid s)).
    { subst s1. destruct (item_opens_batch i); [apply after_mint_with_uid | by rewrite with_uid_self]. }
    assert (Hm1 : stack m1 = stack m) by (subst m1; by destruct (item_opens_batch i)).
    assert (Hl1 : getLastType m1 = getLastType m) by (unfold getLastType; by rewrite Hm1).
    assert (Hd1 : getDepth m1 = getDepth m) by (unfold getDepth; by rewrite Hm1).
    assert (Hc1 : has_open_commit m1 = has_open_commit m) by (unfold has_open_commit; by rewrite Hm1).
    rewrite Hu. rewrite <- Hl1 in Hrest.
    destruct (IH (with_uid s (if item_opens_batch i && nextRenderShouldGenerateNewBatchID m
                              then S (st_uid s) else st_uid s))
                (mkGroup (events g ++ item_events (st_priority s) (has_open_commit m) i)
                   (measures g ++ item_measures (st_priority s) (getDepth m) (batch_id s m)
                                    (batchUID m) i))
                m1 Hk Hrest) as (n & m' & Hrun & Hst).
    exists n, m'. split; [|by rewrite Hst].
    unfold timeline_markers in Hrun. rewrite Hrun, with_uid_with_uid, Hd1, Hc1.
    cbn [timeline_events timeline_measures flat_map events measures]. rewrite <- !app_assoc.
    do 3 f_equal. f_equal. f_equal.
    subst m1 s1. unfold batch_id in *. cbn [st_uid with_uid].
    by destruct (item_opens_batch i), (nextRenderShouldGenerateNewBatchID m).
Qed.

(** ** One scheduling scope from the initial state *)

(** A timeline inside [--scheduler-start-<p>] ... [--scheduler-stop-<p>]. *)
Definition scoped_markers (p : priority) (t0 t1 : Z) (items : list item) : list marker :=
  user_timing ("--scheduler-start-" +:+ string_of_priority p) t0 ::
  timeline_markers items ++ [user_timing ("--scheduler-stop-" +:+ string_of_priority p) t1].

Lemma classify_scheduler_stop q :
  classify_name ("--scheduler-stop-" +:+ q) = KSchedulerStop q.
Proof.
  unfold classify_name. rewrite ?js_startsWith_app. simpl. rewrite ?js_startsWith_app.
  reflexivity.
Qed.

Lemma priority_of_string_known p :
  known_priority p = true -> priority_of_string (string_of_priority p) = p.
Proof. by destruct p. Qed.

(** The state after [--scheduler-start-<p>] from the initial state. *)
Definition scope_state (p : priority) : pstate :=
  mkState (ptable_const empty_group) (ptable_const initial_meta) p 0 [].

Lemma scope_start p t0 :
  known_priority p = true ->
  processEvent (user_timing ("--scheduler-start-" +:+ string_of_priority p) t0) initial_state =
  Return (tt, at_ctx (scope_state p) empty_group initial_meta).
Proof.
  intros Hk. rewrite processEvent_unfold by (by destruct p). cbn [mk_name mk_startTime user_timing].
  rewrite classify_scheduler_start. unfold handleMarker, st_bind, st_get, set_priority, st_modify.
  cbn. rewrite priority_of_string_known by done. by destruct p.
Qed.

Lemma scope_stop_report p t1 g m n :
  p <> Unscheduled -> known_priority p = true -> stack m = [] ->
  match processEvents [user_timing ("--scheduler-stop-" +:+ string_of_priority p) t1]
          (at_ctx (with_uid (scope_state p) n) g m) with
  | Return (_, s') => reportIncomplete s'
  | Throw e => Throw e
  end =
  Return (tt, mkState (ptable_set p g (ptable_const empty_group))
                (ptable_set p m (ptable_const initial_meta)) Unscheduled n []).
Proof.
  intros Hu Hk Hst. rewrite processEvents_one.
  rewrite processEvent_at by (done || by destruct p). cbn [mk_name mk_startTime user_timing].
  rewrite classify_scheduler_stop. unfold handleMarker, st_bind, st_get. cbn [st_priority at_ctx with_uid scope_state].
  rewrite known_not_unscheduled, String.eqb_refl by done. cbn.
  unfold reportIncomplete, st_bind, st_get. cbn.
  destruct p; try done; cbn; rewrite Hst; reflexivity.
Qed.

(** ** Filtering and sorting a well-timed trace *)

(** Strictly increasing timestamps. *)
Fixpoint increasing (l : list Z) : bool :=
  match l with
  | [] => true
  | x :: l' =>
      match l' with
      | [] => true
      | y :: _ => Z.ltb x y && increasing l'
      end
  end.

Lemma increasing_sorted ms :
  increasing (map mk_startTime ms) = true -> StronglySorted SortFacts.time_lt ms.
Proof.
  intros Hinc. apply Sorted_StronglySorted; [intros ???; unfold SortFacts.time_lt; lia|].
  apply Sorted_LocallySorted_iff. induction ms as [|a [|b ms] IH]; constructor.
  - apply IH. cbn in Hinc |- *. by apply andb_true_iff in Hinc as [_ ?].
  - cbn in Hinc. apply andb_true_iff in Hinc as [H _]. unfold SortFacts.time_lt. lia.
Qed.

Definition all_relevant (l : list marker) : Prop := Forall (fun e => Filter.is_relevant e = true) l.

Lemma filter_markers_all l : all_relevant l -> Filter.filter_markers (map Some l) = l.
Proof.
  unfold Filter.filter_markers. induction 1 as [|e l He _ IH]; [done|].
  change (omap id (map Some (e :: l))) with (e :: omap id (map Some l)).
  rewrite filter_cons, decide_True by done. by f_equal.
Qed.

Lemma etree_eforest_relevant :
  (forall t, all_relevant (etree_markers t)) /\ (forall f, all_relevant (eforest_markers f)).
Proof.
  apply etree_eforest_mut.
  - intros k a cs IH b. cbn. constructor; [by destruct k|].
    apply Forall_app. split; [done|]. constructor; [by destruct k | constructor].
  - constructor.
  - intros t IHt f IHf. by apply Forall_app.
Qed.

Lemma segment_markers_relevant sg : all_relevant (segment_markers sg).
Proof. repeat constructor. apply segment_stop_relevant. Qed.

Lemma item_markers_relevant i : all_relevant (item_markers i).
Proof.
  destruct i as [b|c|t|ts|n cs ts|n cs ts]; cbn [item_markers]; try by repeat constructor.
  - unfold batch_markers. apply Forall_app. split; [apply segment_markers_relevant|].
    apply Forall_app. split.
    + apply Forall_flat_map, Forall_forall. intros. apply segment_markers_relevant.
    + constructor; [done|]. apply Forall_app. split; [apply (proj2 etree_eforest_relevant)|].
      repeat constructor.
  - unfold cancelled_markers. apply Forall_app. split; [|by repeat constructor].
    apply Forall_flat_map, Forall_forall. intros. apply segment_markers_relevant.
  - apply (proj1 etree_eforest_relevant).
Qed.

Lemma timeline_markers_relevant items : all_relevant (timeline_markers items).
Proof.
  apply Forall_flat_map, Forall_forall. intros i _. apply item_markers_relevant.
Qed.

Lemma scoped_markers_relevant p t0 t1 items :
  known_priority p = true -> all_relevant (scoped_markers p t0 t1 items).
Proof.
  intros Hk. constructor; [by destruct p|]. apply Forall_app.
  split; [apply timeline_markers_relevant|]. constructor; [by destruct p | constructor].
Qed.

(** ** The refinement theorem *)

Lemma scoped_run p t0 t1 items :
  p <> Unscheduled -> known_priority p = true -> timeline_ok None items = true ->
  exists s',
    (processEvents (scoped_markers p t0 t1 items) ;; reportIncomplete) initial_state =
    Return (tt, s') /\
    st_data s' = ptable_set p (mkGroup (timeline_events p false items)
                                 (timeline_measures p 0 true 0 0 items))
                   (ptable_const empty_group) /\
    st_log s' = [].
Proof.
  intros Hu Hk Hok. unfold scoped_markers. unfold st_bind at 1.
  rewrite processEvents_cons. unfold st_bind at 1. rewrite scope_start by done.
  rewrite processEvents_app. unfold st_bind at 1.
  destruct (timeline_run items (scope_state p) empty_group initial_meta Hk Hok)
    as (n & m' & Hrun & Hst).
  rewrite Hrun. erewrite scope_stop_report by done. by eexists.
Qed.

(** The processor's result on a scoped, well-timed timeline. *)
Lemma reactProfilerProcessor_scoped `{Sort.MarkerSort} p t0 t1 items :
  p <> Unscheduled -> known_priority p = true -> timeline_ok None items = true ->
  increasing (map mk_startTime (scoped_markers p t0 t1 items)) = true ->
  reactProfilerProcessor (map Some (scoped_markers p t0 t1 items)) =
  Return (Some (ptable_set p (mkGroup (timeline_events p false items)
                                (timeline_measures p 0 true 0 0 items))
                  (ptable_const empty_group)), []).
Proof.
  intros Hu Hk Hok Hinc. unfold reactProfilerProcessor.
  rewrite filter_markers_all by (by apply scoped_markers_relevant).
  rewrite SortFacts.msort_strict by (by apply increasing_sorted).
  destruct (scoped_run p t0 t1 items Hu Hk Hok) as (s' & Hrun & Hd & Hl).
  revert Hrun. unfold scoped_markers. cbv beta iota. intros ->. by rewrite Hd, Hl.
Qed.

(** The ids of a timeline of batches: the [i]-th batch takes [u + i]. *)
Lemma timeline_measures_batches p d c u bs :
  timeline_measures p d true c u (map IBatch bs) =
  concat (imap (fun i b => batch_measures (u + i) p d b) bs).
Proof.
  revert c u. induction bs as [|b bs IH]; intros c u; [done|].
  cbn [map timeline_measures item_measures item_opens_batch]. rewrite IH, imap_cons. cbn [concat]. rewrite Nat.add_0_r.
  f_equal. f_equal. apply imap_ext. intros i x _. cbn. f_equal. lia.
Qed.

Lemma timeline_events_batches p c bs : timeline_events p c (map IBatch bs) = [].
Proof. by induction bs. Qed.

Lemma timeline_ok_batches bs :
  forallb batch_ok bs = true -> timeline_ok None (map IBatch bs) = true.
Proof. induction bs as [|b bs IH]; [done|]. cbn. intros [-> ?]%andb_true_iff. by apply IH. Qed.

(** C1: The processor implements the abstract timeline. For every
    priority [p] other than [unscheduled] and every timeline of batches,
    cancelled batches, effect intervals nested as the fatal check admits
    and events, whose markers, wrapped in a [p] scheduling scope, carry
    strictly increasing timestamps, [reactProfilerProcessor] returns,
    whatever sort runs, the dataset whose [p] measures are exactly
    [timeline_measures] (each interval's type, nesting depth, batch id,
    start and [stop - start]) and whose [p] events are exactly
    [timeline_events], whose other priorities are empty, and logs
    nothing: in particular every stack ends empty (spec, section 8,
    "stack discipline"). *)
Theorem processor_refines_timeline `{Sort.MarkerSort} (p : priority) (t0 t1 : Z)
    (items : list item) :
  p <> Unscheduled -> known_priority p = true -> timeline_ok None items = true ->
  increasing (map mk_startTime (scoped_markers p t0 t1 items)) = true ->
  reactProfilerProcessor (map Some (scoped_markers p t0 t1 items)) =
  Return (Some (ptable_set p (mkGroup (timeline_events p false items)
                                (timeline_measures p 0 true 0 0 items))
                  (ptable_const empty_group)), []).
Proof. apply reactProfilerProcessor_scoped. Qed.

(** C13: Within a scheduling scope, a sequence of batches gets the batch
    ids 0, 1, 2, ... in order: every measure of the [i]-th batch (its idle
    span, renders, commit and the effects in the commit) carries id [i],
    so no id is shared between two batches (spec, section 3: ids "are
    never reused"; compare the effects outside a batch, which take the
    current id). *)
Theorem processor_batch_ids `{Sort.MarkerSort} (p : priority) (t0 t1 : Z) (bs : list batch) :
  p <> Unscheduled -> known_priority p = true -> forallb batch_ok bs = true ->
  increasing (map mk_startTime (scoped_markers p t0 t1 (map IBatch bs))) = true ->
  reactProfilerProcessor (map Some (scoped_markers p t0 t1 (map IBatch bs))) =
  Return (Some (ptable_set p (mkGroup [] (concat (imap (fun i b => batch_measures i p 0 b) bs)))
                  (ptable_const empty_group)), []).
Proof.
  intros Hu Hk Hb Hinc. rewrite reactProfilerProcessor_scoped by (done || by apply timeline_ok_batches).
  by rewrite timeline_measures_batches, timeline_events_batches.
Qed.

(** ** Witnesses *)

(** A scheduled render; a batch with a yielded and a finished render
    segment and a layout effect in its commit; passive effects holding a
    layout effect; a state update; a batch cancelled after one yielded
    segment; a suspension. *)
Definition witness_timeline : list item :=
  [IScheduleRender 1;
   IBatch (mkBatch (mkSegment 2 3 true) [mkSegment 4 5 false] 6
             (ECons (ENode ELayout 7 ENil 8) ENil) 9);
   IEffect (ENode EPassive 10 (ECons (ENode ELayout 11 ENil 12) ENil) 13);
   IStateUpdate "Foo" (Some "in App") 14;
   ICancelled (mkCancelled [mkSegment 15 16 true] 17 18);
   ISuspend "Bar" None 19].

Lemma processor_refines_timeline_witness :
  @reactProfilerProcessor SortFacts.v8_sort (map Some (scoped_markers Normal 0 20 witness_timeline)) =
  Return (Some (ptable_set Normal
                  (mkGroup (timeline_events Normal false witness_timeline)
                     (timeline_measures Normal 0 true 0 0 witness_timeline))
                  (ptable_const empty_group)), []).
Proof.
  apply (@processor_refines_timeline SortFacts.v8_sort Normal 0 20 witness_timeline).
  - discriminate.
  - reflexivity.
  - vm_compute. reflexivity.
  - vm_compute. reflexivity.
Defined.

(** Two batches, the second with a passive effect in its commit. *)
Definition witness_batches : list batch :=
  [mkBatch (mkSegment 1 2 false) [] 3 ENil 4;
   mkBatch (mkSegment 5 6 true) [mkSegment 7 8 false] 9 (ECons (ENode EPassive 10 ENil 11) ENil) 12].

Lemma processor_batch_ids_witness :
  @reactProfilerProcessor SortFacts.v8_sort
    (map Some (scoped_markers High 0 13 (map IBatch witness_batches))) =
  Return (Some (ptable_set High
                  (mkGroup [] (concat (imap (fun i b => batch_measures i High 0 b) witness_batches)))
                  (ptable_const empty_group)), []).
Proof.
  apply (@processor_batch_ids SortFacts.v8_sort High 0 13 witness_batches).
  - discriminate.
  - reflexivity.
  - vm_compute. reflexivity.
  - vm_compute. reflexivity.
Defined.
